(** * Kaizen Energy integration: the Tridens API client and the daily
      statistics aggregation

    A shallow embedding of [custom_components/kaizen_energy/api.py] and of
    [async_calculate_statistic_data] in [sensor.py], and the properties of
    the two that the specification states.

    - [Py]: the Python values, exceptions and builtin operations the two
      files use (subscripting, [in], [dict.get], [int], [float], [/], [sum]).
    - [Sensor]: [day_block_for_hist_state], [itertools.groupby] and the
      aggregation loop.
    - [Api]: [TridensApiClient] as a reader/state/exception monad over the
      client's fields, the history of HTTP calls and the log records.
    - [Recorder]: the aggregation on the rows the recorder passes.
    - [Entities]: the two sensors of [sensor.py], their set-up and the
      update of their historical states.
    - [Integration]: the set-up, unload and reload of [__init__.py].
    - [ConfigFlow]: [validate_input] and the user step of [config_flow.py].

    Python floats are IEEE 754 binary64 numbers: they are modelled by Rocq's
    primitive floats, which are the same format with the same rounding. *)

From Stdlib Require Import ZArith List String Ascii Bool Lia.
From Stdlib Require Import Floats.PrimFloat Floats.SpecFloat Floats.FloatOps.
From Stdlib Require Uint63 Floats.FloatAxioms.
Import ListNotations.

Set Warnings "-register-all,-inexact-float".

Local Open Scope string_scope.
Local Open Scope list_scope.
Local Open Scope Z_scope.

(* ================================================================== *)
(** * Python values, exceptions and builtins *)
(* ================================================================== *)

Module Py.

(** The exception classes that can arise in the code under study.
    [ClientError] stands for [aiohttp.ClientError] and all its subclasses
    ([ClientResponseError], [ContentTypeError], [ClientConnectionError], ...);
    [JSONDecodeError] is a subclass of [ValueError]; [PyJWTError] is any of
    PyJWT's exceptions. *)
Inductive exn : Type :=
| InvalidAuth
| CannotConnect
| ClientError
| JSONDecodeError
| PyJWTError
| ValueError
| KeyError
| IndexError
| TypeError
| AttributeError
| OverflowError
| ZeroDivisionError.

(** [isinstance(e, aiohttp.ClientError)] *)
Definition is_ClientError (e : exn) : bool :=
  match e with ClientError => true | _ => false end.

(** [isinstance(e, ValueError)] *)
Definition is_ValueError (e : exn) : bool :=
  match e with ValueError | JSONDecodeError => true | _ => false end.

(** The outcome of evaluating an expression: a value or a raised exception. *)
Inductive result (A : Type) : Type :=
| Ok (a : A)
| Raise (e : exn).
Arguments Ok {A} a.
Arguments Raise {A} e.

Definition rbind {A B} (r : result A) (k : A -> result B) : result B :=
  match r with
  | Ok a => k a
  | Raise e => Raise e
  end.

(** Python objects as [json.loads] produces them (and [None], which is
    also the initial value of the client's fields). A [dict] keeps its
    insertion order and its keys are strings. *)
Inductive value : Type :=
| VNone
| VBool (b : bool)
| VInt (z : Z)
| VFloat (f : float)
| VStr (s : string)
| VList (l : list value)
| VDict (d : list (string * value)).

Definition dict := list (string * value).

(** [x is None] *)
Definition is_None (v : value) : bool :=
  match v with VNone => true | _ => false end.

(** ** Dictionaries *)

Fixpoint dict_lookup {V} (k : string) (d : list (string * V)) : option V :=
  match d with
  | [] => None
  | (k', v) :: d' => if String.eqb k k' then Some v else dict_lookup k d'
  end.

(** [d[k] = v]: replaces the value of an existing key in place, appends a
    new key at the end. *)
Fixpoint dict_set {V} (k : string) (v : V) (d : list (string * V))
  : list (string * V) :=
  match d with
  | [] => [(k, v)]
  | (k', v') :: d' =>
      if String.eqb k k' then (k', v) :: d' else (k', v') :: dict_set k v d'
  end.

(** ** Subscripting, membership, [get], iteration *)

(** [v[k]] for a string key [k]. *)
Definition getitem (v : value) (k : string) : result value :=
  match v with
  | VDict d =>
      match dict_lookup k d with
      | Some x => Ok x
      | None => Raise KeyError
      end
  | _ => Raise TypeError
  end.

(** [l[i]] on a Python sequence of length [length l]: negative indices
    count from the end. *)
Definition seq_index {A} (l : list A) (i : Z) : option A :=
  let n := Z.of_nat (List.length l) in
  if (0 <=? i) && (i <? n) then nth_error l (Z.to_nat i)
  else if (- n <=? i) && (i <? 0) then nth_error l (Z.to_nat (n + i))
  else None.

(** [v[i]] for an integer [i]. The keys of a [dict] are strings, so an
    integer is never one of them. *)
Definition getindex (v : value) (i : Z) : result value :=
  match v with
  | VList l =>
      match seq_index l i with
      | Some x => Ok x
      | None => Raise IndexError
      end
  | VStr s =>
      match seq_index (list_ascii_of_string s) i with
      | Some c => Ok (VStr (String c EmptyString))
      | None => Raise IndexError
      end
  | VDict _ => Raise KeyError
  | _ => Raise TypeError
  end.

Fixpoint is_prefix (p s : list ascii) : bool :=
  match p, s with
  | [], _ => true
  | _ :: _, [] => false
  | a :: p', b :: s' => Ascii.eqb a b && is_prefix p' s'
  end.

Fixpoint is_substring (p s : list ascii) : bool :=
  is_prefix p s ||
  match s with
  | [] => false
  | _ :: s' => is_substring p s'
  end.

(** [k in v] for a string [k]: a key of a dict, an element of a list, a
    substring of a string; other types are not iterable. *)
Definition contains (k : string) (v : value) : result bool :=
  match v with
  | VDict d =>
      Ok (match dict_lookup k d with Some _ => true | None => false end)
  | VList l =>
      Ok (existsb (fun x => match x with
                            | VStr s => String.eqb s k
                            | _ => false
                            end) l)
  | VStr s => Ok (is_substring (list_ascii_of_string k) (list_ascii_of_string s))
  | _ => Raise TypeError
  end.

(** [v.get(k, default)]: only a dict has the method. *)
Definition get (v : value) (k : string) (default : value) : result value :=
  match v with
  | VDict d =>
      Ok (match dict_lookup k d with Some x => x | None => default end)
  | _ => Raise AttributeError
  end.

(** The items a [for] loop over [v] visits. *)
Definition iter (v : value) : result (list value) :=
  match v with
  | VList l => Ok l
  | VDict d => Ok (map (fun kv => VStr (fst kv)) d)
  | VStr s =>
      Ok (map (fun c => VStr (String c EmptyString)) (list_ascii_of_string s))
  | _ => Raise TypeError
  end.

(** ** Numbers *)

(** The nearest binary64 number to [(-1)^neg * m / d] for integers
    [m >= 0] and [d > 0], ties to even; an infinity on overflow. *)
Definition nearest_quotient (neg : bool) (m d : Z) : spec_float :=
  match m with
  | Z0 => S754_zero neg
  | _ =>
      let '(q, e, loc) := SFdiv_core_binary prec emax m 0 d 0 in
      binary_round_aux prec emax neg q e loc
  end.

Definition is_inf (x : spec_float) : bool :=
  match x with S754_infinity _ => true | _ => false end.

(** [float(z)] for an integer: correctly rounded; too large an integer
    raises. *)
Definition float_of_int (z : Z) : result float :=
  let x := binary_normalize prec emax z 0 false in
  if is_inf x then Raise OverflowError else Ok (SF2Prim x).

(** [a / b] on integers (true division): the correctly rounded quotient. *)
Definition int_truediv (a b : Z) : result float :=
  if b =? 0 then Raise ZeroDivisionError
  else
    let x := nearest_quotient (xorb (a <? 0) (b <? 0)) (Z.abs a) (Z.abs b) in
    if is_inf x then Raise OverflowError else Ok (SF2Prim x).

(** [int(f)] for a float: truncation towards zero. *)
Definition int_of_float (f : float) : result Z :=
  match Prim2SF f with
  | S754_zero _ => Ok 0
  | S754_infinity _ => Raise OverflowError
  | S754_nan => Raise ValueError
  | S754_finite s m e =>
      let a := if 0 <=? e then Z.shiftl (Zpos m) e else Z.shiftr (Zpos m) (- e) in
      Ok (if s then - a else a)
  end.

(** *** Numeric literals in strings *)

Definition is_space (c : ascii) : bool :=
  let n := nat_of_ascii c in
  ((9 <=? n) && (n <=? 13) || (28 <=? n) && (n <=? 32))%nat.

Definition digit_of (c : ascii) : option Z :=
  let n := nat_of_ascii c in
  if ((48 <=? n) && (n <=? 57))%nat then Some (Z.of_nat n - 48) else None.

Definition lower (c : ascii) : ascii :=
  let n := nat_of_ascii c in
  if ((65 <=? n) && (n <=? 90))%nat then ascii_of_nat (n + 32) else c.

Fixpoint lstrip (l : list ascii) : list ascii :=
  match l with
  | c :: l' => if is_space c then lstrip l' else l
  | [] => []
  end.

(** [s.strip()] *)
Definition strip (l : list ascii) : list ascii :=
  rev (lstrip (rev (lstrip l))).

(** The rest of a [digitpart]: digits, each optionally preceded by one
    underscore. [acc] is the number read so far and [n] its digit count. *)
Fixpoint digits_tail (l : list ascii) (acc : Z) (n : Z) : Z * Z * list ascii :=
  match l with
  | [] => (acc, n, [])
  | c :: l' =>
      match digit_of c with
      | Some d => digits_tail l' (10 * acc + d) (n + 1)
      | None =>
          if Ascii.eqb c "_" then
            match l' with
            | c' :: l'' =>
                match digit_of c' with
                | Some d => digits_tail l'' (10 * acc + d) (n + 1)
                | None => (acc, n, l)
                end
            | [] => (acc, n, l)
            end
          else (acc, n, l)
      end
  end.

(** [digitpart ::= digit (["_"] digit)*]: the number, its count of digits
    and what follows it. *)
Definition digitpart (l : list ascii) : option (Z * Z * list ascii) :=
  match l with
  | c :: l' =>
      match digit_of c with
      | Some d => Some (digits_tail l' d 1)
      | None => None
      end
  | [] => None
  end.

(** An optional sign: [true] for a minus. *)
Definition sign (l : list ascii) : bool * list ascii :=
  match l with
  | c :: l' =>
      if Ascii.eqb c "-" then (true, l')
      else if Ascii.eqb c "+" then (false, l')
      else (false, l)
  | [] => (false, [])
  end.

(** [int(s)] for a string, base 10 (ASCII digits and white space). *)
Definition int_of_string (s : string) : result Z :=
  let '(neg, l) := sign (strip (list_ascii_of_string s)) in
  match digitpart l with
  | Some (z, _, []) => Ok (if neg then - z else z)
  | _ => Raise ValueError
  end.

(** [exponent ::= ("e" | "E") [sign] digitpart], absent when [l] is empty. *)
Definition exponent (l : list ascii) : option Z :=
  match l with
  | [] => Some 0
  | c :: l' =>
      if Ascii.eqb (lower c) "e" then
        let '(neg, l'') := sign l' in
        match digitpart l'' with
        | Some (z, _, []) => Some (if neg then - z else z)
        | _ => None
        end
      else None
  end.

(** [number ::= [digitpart] "." digitpart | digitpart ["."]], followed by
    an optional exponent: the decimal [m * 10^e] it denotes. *)
Definition decimal (l : list ascii) : option (Z * Z) :=
  match digitpart l with
  | Some (ip, _, rest) =>
      match rest with
      | c :: rest' =>
          if Ascii.eqb c "." then
            match rest' with
            | c' :: rest'' =>
                match digit_of c' with
                | Some d =>
                    let '(m, k, rest3) := digits_tail rest'' (10 * ip + d) 1 in
                    option_map (fun e => (m, e - k)) (exponent rest3)
                | None => option_map (fun e => (ip, e)) (exponent rest')
                end
            | [] => Some (ip, 0)
            end
          else option_map (fun e => (ip, e)) (exponent rest)
      | [] => Some (ip, 0)
      end
  | None =>
      match l with
      | c :: rest =>
          if Ascii.eqb c "." then
            match digitpart rest with
            | Some (m, k, rest') =>
                option_map (fun e => (m, e - k)) (exponent rest')
            | None => None
            end
          else None
      | [] => None
      end
  end.

(** The nearest binary64 number to [(-1)^neg * m * 10^e]. *)
Definition float_of_decimal (neg : bool) (m e : Z) : float :=
  SF2Prim (if 0 <=? e then nearest_quotient neg (m * 10 ^ e) 1
           else nearest_quotient neg m (10 ^ (- e))).

(** [float(s)] for a string (ASCII digits and white space). *)
Definition float_of_string (s : string) : result float :=
  let '(neg, l) := sign (strip (list_ascii_of_string s)) in
  let word := string_of_list_ascii (map lower l) in
  if String.eqb word "inf" || String.eqb word "infinity" then
    Ok (if neg then neg_infinity else infinity)
  else if String.eqb word "nan" then Ok nan
  else
    match decimal l with
    | Some (m, e) => Ok (float_of_decimal neg m e)
    | None => Raise ValueError
    end.

(** [int(v)] *)
Definition py_int (v : value) : result Z :=
  match v with
  | VInt z => Ok z
  | VBool b => Ok (if b then 1 else 0)
  | VFloat f => int_of_float f
  | VStr s => int_of_string s
  | _ => Raise TypeError
  end.

(** [float(v)] *)
Definition py_float (v : value) : result float :=
  match v with
  | VFloat f => Ok f
  | VInt z => float_of_int z
  | VBool b => Ok (if b then one else zero)
  | VStr s => float_of_string s
  | _ => Raise TypeError
  end.

End Py.

(* ================================================================== *)
(** * sensor.py: daily statistics *)
(* ================================================================== *)

Module Sensor.
Import Py.

(** [datetime.datetime], by its calendar fields. The historical states of
    one sensor all carry the same time zone ([dt_util.as_local]), for which
    Python's [==] is the equality of the fields. *)
Record datetime : Type := {
  year : Z;
  month : Z;
  day : Z;
  hour : Z;
  minute : Z;
  second : Z;
  microsecond : Z
}.

Definition datetime_eqb (a b : datetime) : bool :=
  (year a =? year b) && (month a =? month b) && (day a =? day b) &&
  (hour a =? hour b) && (minute a =? minute b) && (second a =? second b) &&
  (microsecond a =? microsecond b).

(** [d.replace(hour=h, minute=mi, second=s, microsecond=us)] *)
Definition replace (d : datetime) (h mi s us : Z) : datetime :=
  {| year := year d; month := month d; day := day d;
     hour := h; minute := mi; second := s; microsecond := us |}.

(** What the aggregation needs of the numbers it adds: Python's integer
    [0], from which [sum] and the running total start, and [+]. *)
Class Number (num : Type) : Type := {
  zero : num;
  add : num -> num -> num
}.

(** Python floats; the integer [0] enters a float addition as [0.0]. *)
#[export] Instance float_Number : Number float :=
  {| zero := PrimFloat.zero; add := PrimFloat.add |}.

(** Python integers. *)
#[export] Instance int_Number : Number Z :=
  {| zero := 0; add := Z.add |}.

(** [itertools.groupby(iterable, key)]: consecutive items whose key equals
    the key of the group being built ([tgtkey]) join that group; any other
    key closes the group and starts the next one. *)
Section GroupBy.
Context {A K : Type} (key : A -> K) (eqb : K -> K -> bool).

Fixpoint groupby_from (tgtkey : K) (group : list A) (l : list A)
  : list (K * list A) :=
  match l with
  | [] => [(tgtkey, group)]
  | x :: l' =>
      if eqb (key x) tgtkey then groupby_from tgtkey (group ++ [x]) l'
      else (tgtkey, group) :: groupby_from (key x) [x] l'
  end.

Definition groupby (l : list A) : list (K * list A) :=
  match l with
  | [] => []
  | x :: l' => groupby_from (key x) [x] l'
  end.

End GroupBy.

Section Statistics.
Context {num : Type} {N : Number num}.

(** [homeassistant_historical_sensor.HistoricalState] *)
Record HistoricalState : Type := {
  state : num;
  dt : datetime
}.

(** [homeassistant.components.recorder.models.StatisticData], with the
    three keys the sensor fills. *)
Record StatisticData : Type := {
  sd_start : datetime;
  sd_state : num;
  sd_sum : num
}.

(** [sum(xs)]: the items added from left to right, starting from [0].
    (CPython 3.12 and later add floats with a compensated summation, which
    can differ from this in the last bits on three or more floats; on one
    or two floats the results are the same.) *)
Definition py_sum (xs : list num) : num := fold_left add xs zero.

Definition day_block_for_hist_state (hist_state : HistoricalState) : datetime :=
  replace (dt hist_state) 0 0 0 0.

(** [accumulated = latest["sum"] if latest else 0]: [latest] is [None] or
    the recorder's last row; an empty dict is false as well. *)
Definition initial_sum (latest : option (list (string * num))) : result num :=
  match latest with
  | None | Some [] => Ok zero
  | Some d =>
      match dict_lookup "sum" d with
      | Some s => Ok s
      | None => Raise KeyError
      end
  end.

(** The body of the [for] loop, over the groups still to come: [accumulated]
    is the loop variable, the result what is appended to [ret]. *)
Fixpoint accumulate (accumulated : num)
    (groups : list (datetime * list HistoricalState)) : list StatisticData :=
  match groups with
  | [] => []
  | (dt, collection) :: rest =>
      let daily_total := py_sum (map state collection) in
      let accumulated := add accumulated daily_total in
      {| sd_start := dt; sd_state := daily_total; sd_sum := accumulated |}
        :: accumulate accumulated rest
  end.

Definition async_calculate_statistic_data
    (hist_states : list HistoricalState)
    (latest : option (list (string * num))) : result (list StatisticData) :=
  rbind (initial_sum latest) (fun accumulated =>
    Ok (accumulate accumulated
          (groupby day_block_for_hist_state datetime_eqb hist_states))).

End Statistics.

Arguments HistoricalState num : clear implicits.
Arguments StatisticData num : clear implicits.

End Sensor.

(* ================================================================== *)
(** * api.py: the Tridens API client *)
(* ================================================================== *)

Module Api.
Import Py.
Export Sensor (datetime).

(** ** Requests and responses *)

(** An f-string, as its sequence of literal text and formatted values. *)
Inductive fragment : Type :=
| Lit (s : string)
| Fmt (v : value).

Definition fstring := list fragment.

(** The method of [aiohttp.ClientSession] a call goes through. *)
Inductive verb : Type := Post | Request.

(** The keyword arguments of a call: [headers=], [params=], [json=]. *)
Record kwargs : Type := {
  kw_headers : option (list (string * fstring));
  kw_params : option dict;
  kw_json : option dict
}.

Definition no_kwargs : kwargs :=
  {| kw_headers := None; kw_params := None; kw_json := None |}.

Record request : Type := {
  via : verb;
  meth : string;
  url : fstring;
  kw : kwargs
}.

(** What [await response.json()] gives: the decoded body, a
    [ContentTypeError] (an [aiohttp.ClientError]) when the body is not
    served as JSON, a [json.JSONDecodeError] when it does not parse. *)
Inductive body : Type :=
| Json (v : value)
| NotJson
| BadJson.

Record response : Type := {
  status : Z;
  content : body
}.

(** The outcome of one call: a response, or an [aiohttp.ClientError] raised
    by the session (connection refused, DNS, TLS, ...). *)
Inductive outcome : Type :=
| Responds (r : response)
| Fails.

(** The remote end: its answer to a call, given the calls made before. *)
Definition transport := list request -> request -> outcome.

(** [response.status in (401, 403)] *)
Definition unauthorized (r : response) : bool :=
  (status r =? 401) || (status r =? 403).

(** [response.raise_for_status()]: aiohttp raises [ClientResponseError]
    when the status is 400 or higher ([ClientResponse.ok] is
    [400 > status]). *)
Definition raise_for_status (r : response) : result unit :=
  if 400 <=? status r then Raise ClientError else Ok tt.

Definition response_json (r : response) : result value :=
  match content r with
  | Json v => Ok v
  | NotJson => Raise ClientError
  | BadJson => Raise JSONDecodeError
  end.

(** ** What the client takes from its environment *)

Class Env : Type := {
  (** [const.TRIDENS_SITE] *)
  TRIDENS_SITE : string;
  (** [jwt.decode(token, options={"verify_signature": False})]: the payload,
      a JSON object, or [None] when PyJWT raises. *)
  jwt_decode : value -> option dict;
  (** [datetime.fromtimestamp(t)], in the host's time zone *)
  fromtimestamp : float -> datetime;
  (** [int(d.timestamp())]: the whole seconds of [d] since the epoch *)
  epoch_seconds : datetime -> Z
}.

(** ** The client and its world *)

Record ConsumptionRecord : Type := {
  time_of_read : datetime;
  consumption : float;
  cost : float
}.

(** The fields of a [TridensApiClient] that vary between instances or over
    time. [_session] is the [transport]; [_site_code], [_base_url] and
    [_service_type] are constants. *)
Record TridensApiClient : Type := {
  _username : string;
  _password : string;
  _access_token : value;
  _customer_code : value;
  _customer_id : value;
  _group_id : value;
  _balance_group_id : value
}.

(** [TridensApiClient(username, password, session)] *)
Definition new_client (username password : string) : TridensApiClient :=
  {| _username := username; _password := password;
     _access_token := VNone; _customer_code := VNone; _customer_id := VNone;
     _group_id := VNone; _balance_group_id := VNone |}.

Definition _base_url : string := "https://app.tridenstechnology.com/monetization".
Definition _service_type : string := "HEAT_METER_READ_SERVICE".

Inductive level : Type := DEBUG | INFO | WARNING | ERROR.

(** The client, the calls made so far (oldest first) and the records
    logged so far. *)
Record world : Type := {
  self : TridensApiClient;
  calls : list request;
  logged : list (level * string)
}.

(** ** The monad of the client's methods

    A method reads the transport, updates the world and returns a value or
    raises; what it did to the world before raising stays done. *)

Definition M (A : Type) : Type := transport -> world -> result A * world.

Definition ret {A} (a : A) : M A := fun _ w => (Ok a, w).

Definition raise {A} (e : exn) : M A := fun _ w => (Raise e, w).

Definition bind {A B} (m : M A) (k : A -> M B) : M B :=
  fun net w =>
    match m net w with
    | (Ok a, w') => k a net w'
    | (Raise e, w') => (Raise e, w')
    end.

(** An expression that may raise, evaluated inside a method. *)
Definition lift {A} (r : result A) : M A := fun _ w => (r, w).

(** [try: body except E: handler], where [catches] says which exceptions
    are instances of [E]. *)
Definition try_except {A} (body : M A) (catches : exn -> bool) (handler : M A)
  : M A :=
  fun net w =>
    match body net w with
    | (Raise e, w') => if catches e then handler net w' else (Raise e, w')
    | done => done
    end.

Declare Scope py_scope.
Delimit Scope py_scope with py.
Notation "x <- m ;; k" := (bind m (fun x => k))
  (at level 61, m at next level, right associativity) : py_scope.
Notation "m ;; k" := (bind m (fun _ => k))
  (at level 61, right associativity) : py_scope.
Local Open Scope py_scope.

(** [self.<field>] *)
Definition attr {A} (field : TridensApiClient -> A) : M A :=
  fun _ w => (Ok (field (self w)), w).

Definition update (f : TridensApiClient -> TridensApiClient) : M unit :=
  fun _ w =>
    (Ok tt, {| self := f (self w); calls := calls w; logged := logged w |}).

Definition set_access_token (v : value) (c : TridensApiClient) :=
  {| _username := _username c; _password := _password c;
     _access_token := v; _customer_code := _customer_code c;
     _customer_id := _customer_id c; _group_id := _group_id c;
     _balance_group_id := _balance_group_id c |}.

Definition set_customer_code (v : value) (c : TridensApiClient) :=
  {| _username := _username c; _password := _password c;
     _access_token := _access_token c; _customer_code := v;
     _customer_id := _customer_id c; _group_id := _group_id c;
     _balance_group_id := _balance_group_id c |}.

Definition set_customer_id (v : value) (c : TridensApiClient) :=
  {| _username := _username c; _password := _password c;
     _access_token := _access_token c; _customer_code := _customer_code c;
     _customer_id := v; _group_id := _group_id c;
     _balance_group_id := _balance_group_id c |}.

Definition set_group_id (v : value) (c : TridensApiClient) :=
  {| _username := _username c; _password := _password c;
     _access_token := _access_token c; _customer_code := _customer_code c;
     _customer_id := _customer_id c; _group_id := v;
     _balance_group_id := _balance_group_id c |}.

Definition set_balance_group_id (v : value) (c : TridensApiClient) :=
  {| _username := _username c; _password := _password c;
     _access_token := _access_token c; _customer_code := _customer_code c;
     _customer_id := _customer_id c; _group_id := _group_id c;
     _balance_group_id := v |}.

(** [_LOGGER.<level>(msg, ...)] *)
Definition log (l : level) (msg : string) : M unit :=
  fun _ w =>
    (Ok tt, {| self := self w; calls := calls w;
               logged := logged w ++ [(l, msg)] |}).

(** One call through the session: it is recorded, then answered. *)
Definition send (r : request) : M response :=
  fun net w =>
    let w' := {| self := self w; calls := calls w ++ [r];
                 logged := logged w |} in
    match net (calls w) r with
    | Responds resp => (Ok resp, w')
    | Fails => (Raise ClientError, w')
    end.

(** ** The methods *)

Section Client.
Context {E : Env}.

(** The call [async_get_token] makes for a client. *)
Definition auth_request (c : TridensApiClient) : request :=
  let auth_url := [Fmt (VStr _base_url); Lit "/authenticate"] in
  let auth_payload :=
    [("username", VStr (_username c));
     ("password", VStr (_password c));
     ("site_code", VStr TRIDENS_SITE)] in
  let headers :=
    [("Content-Type", [Lit "application/json"]);
     ("Accept", [Lit "application/json"])] in
  {| via := Post; meth := "POST"; url := auth_url;
     kw := {| kw_headers := Some headers; kw_params := None;
              kw_json := Some auth_payload |} |}.

Definition _set_customer_code_from_token (access_token : value) : M unit :=
  token_json <- lift (match jwt_decode access_token with
                      | Some d => Ok (VDict d)
                      | None => Raise PyJWTError
                      end) ;;
  customer_code <- lift (get token_json "customer_code" VNone) ;;
  update (set_customer_code customer_code).

Definition async_get_token : M value :=
  c <- attr id ;;
  log DEBUG "Attempting to authenticate user %s" ;;
  try_except
    (response <- send (auth_request c) ;;
     if unauthorized response then
       log ERROR "Invalid credentials for user %s" ;;
       raise InvalidAuth
     else
       lift (raise_for_status response) ;;
       token_data <- lift (response_json response) ;;
       has_access_token <- lift (contains "access_token" token_data) ;;
       if has_access_token : bool then
         token <- lift (getitem token_data "access_token") ;;
         update (set_access_token token) ;;
         access_token <- attr _access_token ;;
         _set_customer_code_from_token access_token ;;
         attr _access_token
       else
         has_token <- lift (contains "token" token_data) ;;
         if has_token : bool then
           token <- lift (getitem token_data "token") ;;
           update (set_access_token token) ;;
           access_token <- attr _access_token ;;
           _set_customer_code_from_token access_token ;;
           attr _access_token
         else
           log ERROR "No 'access_token' or 'token' in auth response" ;;
           raise CannotConnect)
    is_ClientError
    (log ERROR "Cannot connect to Tridens auth endpoint: %s" ;;
     raise CannotConnect).

Definition async_test_authentication : M bool :=
  async_get_token ;;
  ret true.

(** [f"Bearer {self._access_token}"] *)
Definition bearer (access_token : value) : fstring :=
  [Lit "Bearer "; Fmt access_token].

(** [headers["Authorization"] = ...] on the dict that is
    [kwargs["headers"]]. *)
Definition set_authorization (access_token : value) (k : kwargs) : kwargs :=
  {| kw_headers :=
       Some (dict_set "Authorization" (bearer access_token)
               (match kw_headers k with Some h => h | None => [] end));
     kw_params := kw_params k; kw_json := kw_json k |}.

(** The three header assignments before the first attempt. *)
Definition with_headers (access_token : value) (k : kwargs) : kwargs :=
  let headers := match kw_headers k with Some h => h | None => [] end in
  let headers := dict_set "Authorization" (bearer access_token) headers in
  let headers := dict_set "Accept" [Lit "application/json"] headers in
  let headers := dict_set "Response-Type" [Lit "full"] headers in
  {| kw_headers := Some headers; kw_params := kw_params k;
     kw_json := kw_json k |}.

Definition api_call (method : string) (u : fstring) (k : kwargs) : request :=
  {| via := Request; meth := method; url := u; kw := k |}.

Definition _api_request (method : string) (u : fstring) (k : kwargs)
  : M value :=
  access_token <- attr _access_token ;;
  (if is_None access_token then async_get_token ;; ret tt else ret tt) ;;
  access_token <- attr _access_token ;;
  let k := with_headers access_token k in
  try_except
    (response <- send (api_call method u k) ;;
     if unauthorized response then
       log WARNING "Token expired or invalid, re-authenticating" ;;
       async_get_token ;;
       access_token <- attr _access_token ;;
       let k := set_authorization access_token k in
       retry_response <- send (api_call method u k) ;;
       lift (raise_for_status retry_response) ;;
       lift (response_json retry_response)
     else
       lift (raise_for_status response) ;;
       lift (response_json response))
    is_ClientError
    (log ERROR "Error during API request: %s" ;;
     raise CannotConnect).

(** [f"{self._base_url}/api/v1/customers/{self._customer_code}"] *)
Definition customer_url (customer_code : value) : fstring :=
  [Fmt (VStr _base_url); Lit "/api/v1/customers/"; Fmt customer_code].

(** [f"{self._base_url}/api/v1/customers"] *)
Definition customers_url : fstring :=
  [Fmt (VStr _base_url); Lit "/api/v1/customers"].

(** [f"{self._base_url}/api/v1/customers/{self._customer_id}/usage-events"] *)
Definition usage_events_url (customer_id : value) : fstring :=
  [Fmt (VStr _base_url); Lit "/api/v1/customers/"; Fmt customer_id;
   Lit "/usage-events"].

Definition _get_customer_data : M unit :=
  customer_code <- attr _customer_code ;;
  (if is_None customer_code then async_get_token ;; ret tt else ret tt) ;;
  customer_code <- attr _customer_code ;;
  data <- _api_request "GET" (customer_url customer_code) no_kwargs ;;
  try_except
    (groups <- lift (get data "groups" VNone) ;;
     group <- lift (getindex groups 0) ;;
     group_id <- lift (getitem group "id") ;;
     update (set_group_id group_id) ;;
     log INFO "Successfully obtained customer group information")
    (fun _ => true)
    (log ERROR "Unable to obtain customer group information").

Definition _get_subscription_data : M unit :=
  group_id <- attr _group_id ;;
  (if is_None group_id then _get_customer_data else ret tt) ;;
  group_id <- attr _group_id ;;
  let params := [("parent-group", group_id)] in
  data <- _api_request "GET" customers_url
            {| kw_headers := None; kw_params := Some params;
               kw_json := None |} ;;
  try_except
    (objects <- lift (getitem data "objects") ;;
     object <- lift (getindex objects 0) ;;
     subscriptions <- lift (getitem object "subscriptions") ;;
     subscription <- lift (getindex subscriptions 0) ;;
     balance_group <- lift (getitem subscription "balance_group") ;;
     balance_group_id <- lift (getitem balance_group "id") ;;
     update (set_balance_group_id balance_group_id) ;;
     objects <- lift (getitem data "objects") ;;
     object <- lift (getindex objects 0) ;;
     customer_id <- lift (getitem object "id") ;;
     update (set_customer_id customer_id) ;;
     log INFO "Successfully obtained subscription data")
    is_ValueError
    (log ERROR "Balance group and customer ID not found").

(** The [params] dict of [fetch_consumption]; a [datetime] is always true. *)
Definition usage_events_params (start end_ : option datetime) : dict :=
  let params :=
    [("service_type", VStr _service_type);
     ("page", VInt 1);
     ("count", VInt 100);
     ("order-dir", VStr "desc")] in
  let params :=
    match start with
    | Some d => dict_set "time-from" (VInt (epoch_seconds d * 1000)) params
    | None => params
    end in
  match end_ with
  | Some d => dict_set "time-to" (VInt (epoch_seconds d * 1000)) params
  | None => params
  end.

(** The [ConsumptionRecord(...)] expression of the loop, for one item. *)
Definition consumption_record (item : value) : result ConsumptionRecord :=
  rbind (getitem item "fields") (fun fields =>
  rbind (getitem fields "time_of_read") (fun t =>
  rbind (py_int t) (fun ms =>
  rbind (int_truediv ms 1000) (fun seconds =>
  rbind (getitem item "quantity") (fun quantity =>
  rbind (py_float quantity) (fun consumption =>
  rbind (getitem item "amount_with_discount") (fun amount =>
  rbind (py_float amount) (fun cost =>
  Ok {| time_of_read := fromtimestamp seconds;
        consumption := consumption;
        cost := cost |})))))))).

(** The loop of [fetch_consumption] over the items still to visit. *)
Fixpoint consumption_records (items : list value)
  : result (list ConsumptionRecord) :=
  match items with
  | [] => Ok []
  | item :: rest =>
      rbind (consumption_record item) (fun record =>
      rbind (consumption_records rest) (fun records =>
      Ok (record :: records)))
  end.

(** [fetch_consumption] up to its request (lines 197 to 210): the
    resolution of the identifiers when one is missing, then the
    usage-events query. *)
Definition fetch_consumption_data (start end_ : option datetime) : M value :=
  customer_id <- attr _customer_id ;;
  balance_group_id <- attr _balance_group_id ;;
  (if is_None customer_id || is_None balance_group_id
   then _get_subscription_data else ret tt) ;;
  customer_id <- attr _customer_id ;;
  let params := usage_events_params start end_ in
  _api_request "GET" (usage_events_url customer_id)
    {| kw_headers := None; kw_params := Some params; kw_json := None |}.

(** [fetch_consumption] from the response on (lines 211 to 222). *)
Definition fetch_consumption_records (data : value)
  : M (list ConsumptionRecord) :=
  objects <- lift (get data "objects" (VList [])) ;;
  items <- lift (iter objects) ;;
  records <- lift (consumption_records items) ;;
  log INFO "Successfully obtained consumption data" ;;
  ret records.

Definition fetch_consumption (start end_ : option datetime)
  : M (list ConsumptionRecord) :=
  data <- fetch_consumption_data start end_ ;;
  fetch_consumption_records data.

End Client.

End Api.

(* ================================================================== *)
(** * Vocabulary of the statements *)
(* ================================================================== *)

Import Py Sensor Api.
Local Open Scope py_scope.

(** ** Aggregation *)

(** The keys of consecutive groups differ. *)
Fixpoint adjacent_differ {K} (ks : list K) : Prop :=
  match ks with
  | a :: (b :: _) as tl => a <> b /\ adjacent_differ tl
  | _ => True
  end.

(** A group of [itertools.groupby]: not empty, and all of one key. *)
Definition run_of {A K} (key : A -> K) (kg : K * list A) : Prop :=
  snd kg <> [] /\ forall x, In x (snd kg) -> key x = fst kg.

(** The total of a group, as the loop computes it. *)
Definition run_total {num} {N : Number num}
    (g : datetime * list (HistoricalState num)) : num :=
  py_sum (map state (snd g)).

(** The sum of the period totals is the sum of the readings, and the last
    cumulative sum is the seed plus that sum. *)
Definition totals_regroup {num} {N : Number num}
    (hist_states : list (HistoricalState num))
    (latest : option (list (string * num))) : Prop :=
  forall S out,
    initial_sum latest = Ok S ->
    async_calculate_statistic_data hist_states latest = Ok out ->
    py_sum (map sd_state out) = py_sum (map state hist_states) /\
    (out <> [] ->
     last (map sd_sum out) S = add S (py_sum (map state hist_states))).

(** The sum of whole numbers, and the sum of their absolute values. *)
Definition total (zs : list Z) : Z := fold_right Z.add 0 zs.

Definition magnitude (zs : list Z) : Z :=
  fold_right (fun z t => Z.abs z + t) 0 zs.

(** The additions of [num] are exact on whole numbers up to [bound]:
    [num_of] sends 0 to Python's 0 and, as long as the two numbers added
    and their sum are of absolute value at most [bound], sums to sums. *)
Definition exact_up_to {num} {N : Number num} (num_of : Z -> num)
    (bound : Z) : Prop :=
  num_of 0 = zero /\
  forall a b,
    Z.abs a <= bound -> Z.abs b <= bound -> Z.abs (a + b) <= bound ->
    add (num_of a) (num_of b) = num_of (a + b).

(** [float(z)] for a whole number of absolute value below 2^63. *)
Definition whole (z : Z) : float :=
  if z <? 0 then PrimFloat.opp (PrimFloat.of_uint63 (Uint63.of_Z (- z)))
  else PrimFloat.of_uint63 (Uint63.of_Z z).

(** The whole numbers from [- bound] to [bound]. *)
Definition whole_range (bound : Z) : list Z :=
  map (fun n => Z.of_nat n - bound) (seq 0 (Z.to_nat (2 * bound + 1))).

(** Whether the float additions of whole numbers up to [bound] are all
    exact. *)
Definition floats_exact_up_to (bound : Z) : bool :=
  let range := whole_range bound in
  PrimFloat.Leibniz.eqb (whole 0) PrimFloat.zero &&
  forallb (fun a =>
    forallb (fun b =>
      negb (Z.abs (a + b) <=? bound) ||
      PrimFloat.Leibniz.eqb (PrimFloat.add (whole a) (whole b)) (whole (a + b)))
      range)
    range.

(** Sample readings and entries. *)
Definition at_time (y mo d h : Z) : datetime :=
  {| year := y; month := mo; day := d; hour := h;
     minute := 0; second := 0; microsecond := 0 |}.

Definition reading {num} (d : datetime) (x : num) : HistoricalState num :=
  {| state := x; dt := d |}.

Definition entry {num} (d : datetime) (x s : num) : StatisticData num :=
  {| sd_start := d; sd_state := x; sd_sum := s |}.

(** ** Calls *)

(** A call to the usage-events endpoint: a request whose URL is
    [{base}/api/v1/customers/{id}/usage-events]. *)
Definition is_usage_events (c : request) : bool :=
  match via c, url c with
  | Request, [Fmt (VStr base); Lit p; Fmt _; Lit q] =>
      String.eqb base _base_url && String.eqb p "/api/v1/customers/" &&
      String.eqb q "/usage-events"
  | _, _ => false
  end.

(** The customer lookup [{base}/api/v1/customers/{code}] or the
    subscription lookup [{base}/api/v1/customers]. *)
Definition is_lookup (c : request) : bool :=
  match via c, url c with
  | Request, [Fmt (VStr base); Lit p; Fmt _] =>
      String.eqb base _base_url && String.eqb p "/api/v1/customers/"
  | Request, [Fmt (VStr base); Lit p] =>
      String.eqb base _base_url && String.eqb p "/api/v1/customers"
  | _, _ => false
  end.

Definition is_post (c : request) : bool :=
  match via c with Post => true | Request => false end.

Definition is_request (c : request) : bool :=
  match via c with Request => true | Post => false end.

(** Among the calls of a run, those of [async_get_token] (each makes one
    [session.post] and nothing else does) and the attempts of
    [_api_request] (its [session.request] calls). *)
Definition authenticate_calls (l : list request) : nat :=
  List.length (filter is_post l).

Definition request_attempts (l : list request) : nat :=
  List.length (filter is_request l).

(** What a response is worth to [_api_request] once it is not taken for an
    expired token. *)
Definition response_result (resp : response) : result value :=
  if 400 <=? status resp then Raise CannotConnect
  else
    match content resp with
    | Json v => Ok v
    | NotJson => Raise CannotConnect
    | BadJson => Raise JSONDecodeError
    end.

Definition outcome_result (o : outcome) : result value :=
  match o with
  | Responds resp => response_result resp
  | Fails => Raise CannotConnect
  end.

(** A value the session sends in a query. [aiohttp] builds the URL with
    [yarl], which raises [TypeError] on [None], a [bool] or a dict before
    anything is sent; strings and integers (written with [str], so of at
    most 4300 digits) are values every version takes, and the ones the
    client puts in its own queries. *)
Definition query_value (v : value) : bool :=
  match v with
  | VStr _ => true
  | VInt z => Z.abs z <? 10 ^ 4300
  | _ => false
  end.

(** The keyword arguments of a call the session sends: every value of
    [params] is one it accepts in a query. *)
Definition sendable (k : kwargs) : Prop :=
  match kw_params k with
  | Some params => Forall (fun kv => query_value (snd kv) = true) params
  | None => True
  end.

(** The world of [_api_request] after a first attempt [a1] that was
    answered 401 or 403, when it calls [async_get_token] again. *)
Definition refused (w : world) (a1 : request) : world :=
  {| self := self w; calls := calls w ++ [a1];
     logged := logged w ++
       [(WARNING, "Token expired or invalid, re-authenticating")] |}.

(** ** Relations between the worlds before and after a method *)

(** A method keeps [R] when every run of it, returning or raising, leaves
    a world related to the one it started from. *)
Definition stable (R : world -> world -> Prop) {A} (m : M A) : Prop :=
  forall net w, R w (snd (m net w)).

(** The credentials and the resolved identifiers are those of before. *)
Definition same_identity (w w' : world) : Prop :=
  _username (self w') = _username (self w) /\
  _password (self w') = _password (self w) /\
  _customer_id (self w') = _customer_id (self w) /\
  _group_id (self w') = _group_id (self w) /\
  _balance_group_id (self w') = _balance_group_id (self w).

(** The calls of before, followed by new calls that all satisfy [allowed]. *)
Definition calls_within (allowed : request -> Prop) (w w' : world) : Prop :=
  exists new, calls w' = calls w ++ new /\ Forall allowed new.

Definition is_resolved (w : world) : Prop :=
  is_None (_customer_id (self w)) = false /\
  is_None (_balance_group_id (self w)) = false.

(** ** Sessions *)

(** What a consumer of the client can ask of it. *)
Inductive operation : Type :=
| TestAuthentication
| FetchConsumption (start end_ : option datetime).

(** The world after an operation, whether it returned or raised. *)
Definition perform {E : Env} (op : operation) (net : transport) (w : world)
  : world :=
  match op with
  | TestAuthentication => snd (async_test_authentication net w)
  | FetchConsumption start end_ => snd (fetch_consumption start end_ net w)
  end.

Definition session {E : Env} (ops : list operation) (net : transport)
    (w : world) : world :=
  fold_left (fun w op => perform op net w) ops w.

(** [_api_request] from the assignment of [headers] on. *)
Definition attempt {E : Env} (method : string) (u : fstring) (k : kwargs)
  : M value :=
  access_token <- attr _access_token ;;
  let k := with_headers access_token k in
  try_except
    (response <- send (api_call method u k) ;;
     if unauthorized response then
       log WARNING "Token expired or invalid, re-authenticating" ;;
       async_get_token ;;
       access_token <- attr _access_token ;;
       let k := set_authorization access_token k in
       retry_response <- send (api_call method u k) ;;
       lift (raise_for_status retry_response) ;;
       lift (response_json retry_response)
     else
       lift (raise_for_status response) ;;
       lift (response_json response))
    is_ClientError
    (log ERROR "Error during API request: %s" ;;
     raise CannotConnect).

(** ** A sample environment, sample worlds and sample transports *)

(** Days since 1970-01-01 of a proleptic Gregorian date. *)
Definition days_from_civil (y m d : Z) : Z :=
  let y := if m <=? 2 then y - 1 else y in
  let era := y / 400 in
  let yoe := y - era * 400 in
  let doy := (153 * (if 2 <? m then m - 3 else m + 9) + 2) / 5 + d - 1 in
  let doe := yoe * 365 + yoe / 4 - yoe / 100 + doy in
  era * 146097 + doe - 719468.

Definition civil_from_days (z : Z) : Z * Z * Z :=
  let z := z + 719468 in
  let era := z / 146097 in
  let doe := z - era * 146097 in
  let yoe := (doe - doe / 1460 + doe / 36524 - doe / 146096) / 365 in
  let doy := doe - (365 * yoe + yoe / 4 - yoe / 100) in
  let mp := (5 * doy + 2) / 153 in
  let d := doy - (153 * mp + 2) / 5 + 1 in
  let m := if mp <? 10 then mp + 3 else mp - 9 in
  ((yoe + era * 400) + (if m <=? 2 then 1 else 0), m, d).

(** A host in UTC, a site code, and a token decoder that accepts every
    string and finds the customer code [C-1001] in it. Sub-second parts of
    a timestamp are dropped. *)
Definition sample_env : Env := {|
  TRIDENS_SITE := "kaizen";
  jwt_decode := fun token =>
    match token with
    | VStr _ => Some [("customer_code", VStr "C-1001")]
    | _ => None
    end;
  fromtimestamp := fun t =>
    let s := match int_of_float t with Ok z => z | Raise _ => 0 end in
    let '(y, m, d) := civil_from_days (s / 86400) in
    let r := s mod 86400 in
    {| year := y; month := m; day := d;
       hour := r / 3600; minute := (r mod 3600) / 60;
       second := r mod 60; microsecond := 0 |};
  epoch_seconds := fun d =>
    days_from_civil (year d) (month d) (day d) * 86400
    + hour d * 3600 + minute d * 60 + second d
|}.

(** A transport that gives the same answer to every call. *)
Definition always (o : outcome) : transport := fun _ _ => o.

(** A transport that answers the [n]-th call of a session with the [n]-th
    outcome of a script, and with [default] after the script's end. *)
Definition scripted (script : list outcome) (default : outcome) : transport :=
  fun history _ => nth (List.length history) script default.

Definition ok_json (v : value) : outcome :=
  Responds {| status := 200; content := Json v |}.

Definition status_only (code : Z) : outcome :=
  Responds {| status := code; content := NotJson |}.

Definition token_response (token : string) : outcome :=
  ok_json (VDict [("access_token", VStr token)]).

(** A client just constructed. *)
Definition fresh : world :=
  {| self := new_client "user" "secret"; calls := []; logged := [] |}.

(** A client that holds a token and has resolved the group, but not yet
    the customer and the balance group. *)
Definition grouped : world :=
  {| self := {| _username := "user"; _password := "secret";
                _access_token := VStr "T0";
                _customer_code := VStr "C-1001";
                _customer_id := VNone;
                _group_id := VInt 7;
                _balance_group_id := VNone |};
     calls := []; logged := [] |}.

(** A client that holds a token and has resolved every identifier. *)
Definition resolved : world :=
  {| self := {| _username := "user"; _password := "secret";
                _access_token := VStr "T0";
                _customer_code := VStr "C-1001";
                _customer_id := VInt 42;
                _group_id := VInt 7;
                _balance_group_id := VInt 9 |};
     calls := []; logged := [] |}.

(** The usage event of the specification's example. *)
Definition sample_usage_event : value :=
  VDict [("fields", VDict [("time_of_read", VStr "1700000000000")]);
         ("quantity", VStr "12.5");
         ("amount_with_discount", VStr "3.25")].

(** A server that accepts the credentials and knows one customer, with
    one group and one subscription: the answers to a first
    [fetch_consumption] on a fresh client (authentication, customer profile,
    subscriptions), then usage events for every later call. *)
Definition resolving : transport :=
  scripted
    [token_response "T1";
     ok_json (VDict [("groups", VList [VDict [("id", VInt 7)]])]);
     ok_json (VDict [("objects",
        VList [VDict [("id", VInt 42);
                      ("subscriptions",
                       VList [VDict [("balance_group",
                                      VDict [("id", VInt 9)])]])]])])]
    (ok_json (VDict [("objects", VList [sample_usage_event])])).

(** A server that accepts the credentials and answers 401 to everything
    else. *)
Definition rejecting : transport :=
  scripted
    [token_response "T1"; status_only 401; token_response "T2"]
    (status_only 401).

(** A server whose first answer to a request is 401 and whose answer to
    the retry is a body. *)
Definition expiring : transport :=
  scripted
    [token_response "T1"; status_only 401; token_response "T2"]
    (ok_json (VDict [("groups", VList [])])).

(* ================================================================== *)
(** * sensor.py: the two sensors and their set-up *)
(* ================================================================== *)

Module Entities.

(** ** What the platform takes from Home Assistant and the host *)

(** [const.DOMAIN] and [const.NAME] *)
Class Const : Type := {
  DOMAIN : string;
  NAME : string
}.

(** The time zones. A [datetime] with a [tzinfo] is its calendar fields
    paired with the zone object it carries. *)
Class Host : Type := {
  tzinfo : Type;
  (** [d.astimezone()] for a naive [d]: the same fields read in the
      system's zone, with the fixed-offset zone of that instant *)
  astimezone : datetime -> datetime * tzinfo;
  (** [dt_util.as_local(d)] for an aware [d]: the fields of the same
      instant in Home Assistant's zone *)
  as_local : datetime * tzinfo -> datetime
}.

(** ** Dates *)

(** [d - timedelta(days=n)]: the date moves by whole days on the proleptic
    Gregorian calendar and the time of day stays; a date before
    0001-01-01 or after 9999-12-31 raises. *)
Definition sub_timedelta (d : datetime) (days : Z) : result datetime :=
  let z := days_from_civil (year d) (month d) (day d) - days in
  if (days_from_civil 1 1 1 <=? z) && (z <=? days_from_civil 9999 12 31) then
    let '(y, m, dd) := civil_from_days z in
    Ok {| year := y; month := m; day := dd;
          hour := hour d; minute := minute d; second := second d;
          microsecond := microsecond d |}
  else Raise OverflowError.

(** ** Dictionaries of Home Assistant *)

(** [d.setdefault(k, default)], for the dict it leaves. *)
Definition setdefault {V} (k : string) (default : V) (d : list (string * V))
  : list (string * V) :=
  match dict_lookup k d with
  | Some _ => d
  | None => dict_set k default d
  end.

(** [d.pop(k)], for the dict it leaves; [None] when [k] is not a key
    ([KeyError]). *)
Definition pop {V} (k : string) (d : list (string * V))
  : option (list (string * V)) :=
  match dict_lookup k d with
  | Some _ => Some (filter (fun kv => negb (String.eqb k (fst kv))) d)
  | None => None
  end.

(** [homeassistant.helpers.entity.DeviceInfo], with the keys the
    integration fills. *)
Record DeviceInfo : Type := {
  identifiers : list (string * string);
  name : string;
  manufacturer : string
}.

(** [hass.data], as far as integrations store one dict of device
    information per domain. *)
Definition hass_data := list (string * list (string * DeviceInfo)).

(** [homeassistant.config_entries.ConfigEntry]: its id and the data the
    config flow stored, which the flow's schema makes strings. *)
Record ConfigEntry : Type := {
  entry_id : string;
  data : list (string * string)
}.

(** ** The entities *)

Inductive unit_of_measurement : Type := KILO_WATT_HOUR | CURRENCY_EURO.

Inductive SensorDeviceClass : Type := ENERGY | MONETARY.

(** The attributes the two constructors set. [self.api] is the client of
    the [platform] below; [_attr_historical_states] is kept there too. *)
Record SensorEntity : Type := {
  config_entry : ConfigEntry;
  _attr_has_entity_name : bool;
  _attr_name : string;
  _attr_unique_id : string;
  _attr_device_info : DeviceInfo;
  _attr_entity_registry_enabled_default : bool;
  _attr_state : option float;
  _attr_native_unit_of_measurement : unit_of_measurement;
  _attr_device_class : SensorDeviceClass
}.

(** [KaizenEnergySensor(config_entry, device_info, api)] *)
Definition KaizenEnergySensor (config_entry : ConfigEntry)
    (device_info : DeviceInfo) : SensorEntity :=
  let username :=
    match dict_lookup "username" (data config_entry) with
    | Some u => u
    | None => "unknown"
    end in
  {| config_entry := config_entry;
     _attr_has_entity_name := true;
     _attr_name := "Energy Consumption";
     _attr_unique_id := entry_id config_entry ++ "_" ++ username ++ "_energy";
     _attr_device_info := device_info;
     _attr_entity_registry_enabled_default := true;
     _attr_state := None;
     _attr_native_unit_of_measurement := KILO_WATT_HOUR;
     _attr_device_class := ENERGY |}.

(** [KaizenEnergyCostSensor(config_entry, device_info, api)] *)
Definition KaizenEnergyCostSensor (config_entry : ConfigEntry)
    (device_info : DeviceInfo) : SensorEntity :=
  let username :=
    match dict_lookup "username" (data config_entry) with
    | Some u => u
    | None => "unknown"
    end in
  {| config_entry := config_entry;
     _attr_has_entity_name := true;
     _attr_name := "Cost";
     _attr_unique_id := entry_id config_entry ++ "_" ++ username ++ "_cost";
     _attr_device_info := device_info;
     _attr_entity_registry_enabled_default := true;
     _attr_state := None;
     _attr_native_unit_of_measurement := CURRENCY_EURO;
     _attr_device_class := MONETARY |}.

(** What [async_setup_entry] creates besides the entities: the one client
    both sensors hold as [self.api] (with the calls of its session and its
    log), and the [_attr_historical_states] of each sensor, [None] as long
    as the sensor has not assigned it. *)
Record platform : Type := {
  tridens_api : world;
  energy_historical_states : option (list (HistoricalState float));
  cost_historical_states : option (list (HistoricalState float))
}.

(** The truth value of what [dict.get] returned: [None] and the empty
    string are false. *)
Definition truthy (v : option string) : bool :=
  match v with
  | Some s => negb (String.eqb s "")
  | None => false
  end.

Section Setup.
Context {C : Const}.

(** [async_setup_entry(hass, config_entry, async_add_entities)]: the
    entities handed to [async_add_entities], and what they share. *)
Definition async_setup_entry (hass_data_ : hass_data)
    (config_entry : ConfigEntry) : result (list SensorEntity * platform) :=
  match dict_lookup DOMAIN hass_data_ with
  | None => Raise KeyError
  | Some infos =>
      match dict_lookup (entry_id config_entry) infos with
      | None => Raise KeyError
      | Some device_info =>
          let username := dict_lookup "username" (data config_entry) in
          let password := dict_lookup "password" (data config_entry) in
          if negb (truthy username && truthy password) then Raise ValueError
          else
            match username, password with
            | Some username, Some password =>
                let sensors :=
                  [KaizenEnergySensor config_entry device_info;
                   KaizenEnergyCostSensor config_entry device_info] in
                Ok (sensors,
                    {| tridens_api :=
                         {| self := new_client username password;
                            calls := []; logged := [] |};
                       energy_historical_states := None;
                       cost_historical_states := None |})
            | _, _ => Raise ValueError
            end
      end
  end.

End Setup.

Section Updates.
Context {E : Env} {H : Host}.

(** The body of the loop of [async_update_historical], where [value_of]
    is [consumption] for the energy sensor and [cost] for the cost
    sensor. *)
Definition historical_state (value_of : ConsumptionRecord -> float)
    (consumption_record : ConsumptionRecord) : result (HistoricalState float) :=
  let '(local_dt, zone) := astimezone (time_of_read consumption_record) in
  rbind (sub_timedelta local_dt 1) (fun corrected_dt =>
  Ok {| state := value_of consumption_record;
        dt := as_local (corrected_dt, zone) |}).

(** The loop, over the records still to visit. *)
Fixpoint historical_states (value_of : ConsumptionRecord -> float)
    (consumption_records : list ConsumptionRecord)
  : result (list (HistoricalState float)) :=
  match consumption_records with
  | [] => Ok []
  | consumption_record :: rest =>
      rbind (historical_state value_of consumption_record) (fun hist_state =>
      rbind (historical_states value_of rest) (fun hist_states =>
      Ok (hist_state :: hist_states)))
  end.

(** [async_update_historical] up to its assignment, for a sensor that
    looks [days] back and reads [value_of]. [now_start] and [now_end] are
    the two readings of [datetime.now()], in the order they are made. *)
Definition update_historical (days : Z)
    (value_of : ConsumptionRecord -> float) (now_start now_end : datetime)
  : M (list (HistoricalState float)) :=
  (start <- lift (sub_timedelta now_start days) ;;
   consumption_records <- fetch_consumption (Some start) (Some now_end) ;;
   lift (historical_states value_of consumption_records))%py.

(** [KaizenEnergySensor.async_update_historical] (15 days, consumption) *)
Definition energy_async_update_historical (now_start now_end : datetime)
    (net : transport) (p : platform) : result unit * platform :=
  match update_historical 15 consumption now_start now_end net (tridens_api p) with
  | (Ok hist_states, w) =>
      (Ok tt, {| tridens_api := w;
                 energy_historical_states := Some hist_states;
                 cost_historical_states := cost_historical_states p |})
  | (Raise e, w) =>
      (Raise e, {| tridens_api := w;
                   energy_historical_states := energy_historical_states p;
                   cost_historical_states := cost_historical_states p |})
  end.

(** [KaizenEnergyCostSensor.async_update_historical] (30 days, cost) *)
Definition cost_async_update_historical (now_start now_end : datetime)
    (net : transport) (p : platform) : result unit * platform :=
  match update_historical 30 cost now_start now_end net (tridens_api p) with
  | (Ok hist_states, w) =>
      (Ok tt, {| tridens_api := w;
                 energy_historical_states := energy_historical_states p;
                 cost_historical_states := Some hist_states |})
  | (Raise e, w) =>
      (Raise e, {| tridens_api := w;
                   energy_historical_states := energy_historical_states p;
                   cost_historical_states := cost_historical_states p |})
  end.

End Updates.

End Entities.

(* ================================================================== *)
(** * __init__.py: the set-up of the integration *)
(* ================================================================== *)

Module Integration.
Import Entities.

Definition PLATFORMS : list string := ["sensor"].

(** The calls the integration makes to Home Assistant, in the order it
    makes them. *)
Inductive framework_call : Type :=
| async_forward_entry_setups (entry : ConfigEntry) (platforms : list string)
| add_update_listener (entry : ConfigEntry)
| async_unload_platforms (entry : ConfigEntry) (platforms : list string).

(** [hass], as far as the integration acts on it: [hass.data], the calls
    made to Home Assistant and the records logged. *)
Record HomeAssistant : Type := {
  hass_data_ : hass_data;
  framework_calls : list framework_call;
  hass_logged : list (level * string)
}.

Section Integration.
Context {C : Const}.

Definition get_device_info : DeviceInfo :=
  {| identifiers := [("id", NAME)]; name := NAME; manufacturer := NAME |}.

(** [async_setup_entry(hass, entry)]. [forward] is what
    [hass.config_entries.async_forward_entry_setups] does: it returns or
    raises. *)
Definition async_setup_entry (forward : result unit) (hass : HomeAssistant)
    (entry : ConfigEntry) : result bool * HomeAssistant :=
  let data0 := setdefault DOMAIN [] (hass_data_ hass) in
  let infos :=
    match dict_lookup DOMAIN data0 with Some i => i | None => [] end in
  let data1 :=
    dict_set DOMAIN (dict_set (entry_id entry) get_device_info infos) data0 in
  let forwarded :=
    framework_calls hass ++ [async_forward_entry_setups entry PLATFORMS] in
  match forward with
  | Raise e =>
      (Raise e, {| hass_data_ := data1; framework_calls := forwarded;
                   hass_logged := hass_logged hass |})
  | Ok _ =>
      (Ok true, {| hass_data_ := data1;
                   framework_calls := forwarded ++ [add_update_listener entry];
                   hass_logged := hass_logged hass |})
  end.

(** [async_unload_entry(hass, entry)]. [unload] is what
    [hass.config_entries.async_unload_platforms] does: it returns a truth
    value or raises. *)
Definition async_unload_entry (unload : result bool) (hass : HomeAssistant)
    (entry : ConfigEntry) : result bool * HomeAssistant :=
  let hass :=
    {| hass_data_ := hass_data_ hass;
       framework_calls :=
         framework_calls hass ++ [async_unload_platforms entry PLATFORMS];
       hass_logged := hass_logged hass ++ [(DEBUG, "Unloading platforms")] |} in
  match unload with
  | Raise e => (Raise e, hass)
  | Ok unload_ok =>
      if unload_ok then
        match dict_lookup DOMAIN (hass_data_ hass) with
        | None => (Raise KeyError, hass)
        | Some infos =>
            match pop (entry_id entry) infos with
            | None => (Raise KeyError, hass)
            | Some infos' =>
                (Ok unload_ok,
                 {| hass_data_ := dict_set DOMAIN infos' (hass_data_ hass);
                    framework_calls := framework_calls hass;
                    hass_logged := hass_logged hass |})
            end
        end
      else (Ok unload_ok, hass)
  end.

(** [async_reload_entry(hass, entry)] *)
Definition async_reload_entry (unload : result bool) (forward : result unit)
    (hass : HomeAssistant) (entry : ConfigEntry)
  : result unit * HomeAssistant :=
  match async_unload_entry unload hass entry with
  | (Raise e, hass) => (Raise e, hass)
  | (Ok _, hass) =>
      match async_setup_entry forward hass entry with
      | (Raise e, hass) => (Raise e, hass)
      | (Ok _, hass) => (Ok tt, hass)
      end
  end.

End Integration.

End Integration.

(* ================================================================== *)
(** * config_flow.py: the configuration flow *)
(* ================================================================== *)

Module ConfigFlow.

(** What a step of the flow returns: [async_create_entry(title, data)] or
    [async_show_form(step_id, data_schema, errors)], whose schema is the
    constant [STEP_USER_DATA_SCHEMA]. *)
Inductive ConfigFlowResult : Type :=
| CreateEntry (title : string) (data : list (string * string))
| ShowForm (step_id : string) (errors : list (string * string)).

(** What leaves a step: its result, [AbortFlow(reason)], or another
    exception. *)
Inductive step_outcome : Type :=
| Returns (r : ConfigFlowResult)
| AbortFlow (reason : string)
| Raises (e : exn).

(** What a step leaves behind: the calls made through the session of
    [validate_input] and the records logged. *)
Record trace : Type := {
  requests : list request;
  records : list (level * string)
}.

Definition no_trace : trace := {| requests := []; records := [] |}.

Section Flow.
Context {E : Env}.

(** [validate_input(hass, data)]; [net] is the remote end as the
    function's own session reaches it. The values of the form are
    strings (the schema). *)
Definition validate_input (data : list (string * string)) (net : transport)
  : result (list (string * string)) * trace :=
  match dict_lookup "username" data with
  | None => (Raise KeyError, no_trace)
  | Some username =>
      match dict_lookup "password" data with
      | None => (Raise KeyError, no_trace)
      | Some password =>
          let hub := {| self := new_client username password;
                        calls := []; logged := [] |} in
          match async_test_authentication net hub with
          | (Raise e, w) =>
              (Raise e, {| requests := calls w; records := logged w |})
          | (Ok ok, w) =>
              if negb ok then
                (Raise InvalidAuth,
                 {| requests := calls w; records := logged w |})
              else
                (Ok [("title", username)],
                 {| requests := calls w;
                    records := logged w ++
                      [(INFO, "Simulating successful authentication for %s")]
                 |})
          end
      end
  end.

(** [ConfigFlow.async_step_user(user_input)]. [abort_reason] is Home
    Assistant's verdict on a unique id: the reason with which
    [async_set_unique_id] or [_abort_if_unique_id_configured] raises
    [AbortFlow], if one of them does. *)
Definition async_step_user (abort_reason : string -> option string)
    (user_input : option (list (string * string))) (net : transport)
  : step_outcome * trace :=
  let errors : list (string * string) := [] in
  match user_input with
  | None => (Returns (ShowForm "user" errors), no_trace)
  | Some user_input =>
      match dict_lookup "username" user_input with
      | None => (Raises KeyError, no_trace)
      | Some unique_id =>
          match abort_reason unique_id with
          | Some reason => (AbortFlow reason, no_trace)
          | None =>
              let unexpected (t : trace) :=
                (Returns (ShowForm "user" (dict_set "base" "unknown" errors)),
                 {| requests := requests t;
                    records := records t ++ [(ERROR, "Unexpected exception")] |}) in
              match validate_input user_input net with
              | (Ok info, t) =>
                  match dict_lookup "title" info with
                  | Some title => (Returns (CreateEntry title user_input), t)
                  | None => unexpected t
                  end
              | (Raise CannotConnect, t) =>
                  (Returns (ShowForm "user"
                              (dict_set "base" "cannot_connect" errors)), t)
              | (Raise InvalidAuth, t) =>
                  (Returns (ShowForm "user"
                              (dict_set "base" "invalid_auth" errors)), t)
              | (Raise _, t) => unexpected t
              end
          end
      end
  end.

End Flow.

End ConfigFlow.

(* ================================================================== *)
(** * sensor.py: the aggregation on the recorder's rows *)
(* ================================================================== *)

Module Recorder.

(** The aggregation on the rows the recorder passes as [latest]: the [sum]
    of a row is a number or [None]. *)
Section Rows.
Context {num : Type} {N : Number num}.

Definition row : Type := list (string * option num).

(** [accumulated = latest["sum"] if latest else 0] *)
Definition initial_sum (latest : option row) : result (option num) :=
  match latest with
  | None | Some [] => Ok (Some zero)
  | Some d =>
      match dict_lookup "sum" d with
      | Some s => Ok s
      | None => Raise KeyError
      end
  end.

(** [accumulated + daily_total], where [accumulated] may be [None]. *)
Definition add_total (accumulated : option num) (daily_total : num)
  : result num :=
  match accumulated with
  | Some a => Ok (add a daily_total)
  | None => Raise TypeError
  end.

(** The loop: the first addition is the only one that can meet [None];
    from then on [accumulated] is a number. *)
Definition async_calculate_statistic_data
    (hist_states : list (HistoricalState num)) (latest : option row)
  : result (list (StatisticData num)) :=
  rbind (initial_sum latest) (fun accumulated =>
    match groupby day_block_for_hist_state datetime_eqb hist_states with
    | [] => Ok []
    | (dt, collection) :: rest =>
        let daily_total := py_sum (map state collection) in
        rbind (add_total accumulated daily_total) (fun accumulated =>
        Ok ({| sd_start := dt; sd_state := daily_total;
               sd_sum := accumulated |}
              :: accumulate accumulated rest))
    end).

(** A row all of whose values are numbers. *)
Definition of_numbers (d : list (string * num)) : row :=
  map (fun kv => (fst kv, Some (snd kv))) d.

End Rows.

End Recorder.

(* ================================================================== *)
(** * Vocabulary of the further properties *)
(* ================================================================== *)

(** ** Days and readings *)

(** The pairs of neighbours of a list. *)
Definition neighbours {A} (l : list A) : list (A * A) := combine l (tl l).

(** The number of readings that fall on another day than the reading
    before them. *)
Definition day_changes {num} (hist_states : list (HistoricalState num)) : nat :=
  List.length
    (filter (fun p => negb (datetime_eqb (day_block_for_hist_state (snd p))
                                         (day_block_for_hist_state (fst p))))
            (neighbours hist_states)).

(** The readings of one day are next to one another: between two readings
    of a day there is no reading of another day. *)
Definition contiguous {A K} (key : A -> K) (l : list A) : Prop :=
  forall l1 x l2 y l3,
    l = l1 ++ x :: l2 ++ y :: l3 -> key x = key y ->
    forall z, In z l2 -> key z = key x.

(** The readings of a given day. *)
Definition readings_of {num} (d : datetime)
    (hist_states : list (HistoricalState num)) : list (HistoricalState num) :=
  filter (fun x => datetime_eqb (day_block_for_hist_state x) d) hist_states.

(** ** Tokens *)

(** The token of an authentication response: the value of [access_token],
    or else that of [token]. *)
Definition token_of (d : dict) : option value :=
  match dict_lookup "access_token" d with
  | Some t => Some t
  | None => dict_lookup "token" d
  end.

(** [payload.get("customer_code")] *)
Definition customer_code_of (payload : dict) : value :=
  match dict_lookup "customer_code" payload with
  | Some code => code
  | None => VNone
  end.

(** ** The exceptions a method raises *)

(** Every exception a method raises satisfies [P]. *)
Definition raises_only (P : exn -> Prop) {A} (m : M A) : Prop :=
  forall net w e, fst (m net w) = Raise e -> P e.

(** Every exception an expression raises satisfies [P]. *)
Definition may_raise (P : exn -> Prop) {A} (r : result A) : Prop :=
  forall e, r = Raise e -> P e.

(** The exceptions of a usage event that does not parse. *)
Definition parse_error (e : exn) : Prop :=
  In e [KeyError; TypeError; ValueError; OverflowError].

(** A numeral within the reach of [int_of_string] and [float_of_string]:
    ASCII characters other than the separators 28 to 31 (which [int] and
    [float] do not strip from an ASCII string), and at most 4300 of them
    (the limit of [int] on the number of digits). *)
Definition plain_numeral (s : string) : bool :=
  (String.length s <=? 4300)%nat &&
  forallb (fun c => let n := nat_of_ascii c in
                    ((n <? 128) && negb ((28 <=? n) && (n <=? 31)))%nat)
          (list_ascii_of_string s).

(** A field that is absent, or is not a string, or is a plain numeral. *)
Definition plain_field (field : result value) : bool :=
  match field with
  | Ok (VStr s) => plain_numeral s
  | _ => true
  end.

(** A time of read, in milliseconds, that [datetime.fromtimestamp] accepts
    in every time zone: from 1970-01-02 to 9999-12-31, 0 h UTC. *)
Definition time_in_range (ms : result Z) : bool :=
  match ms with
  | Ok ms => (86400000 <=? ms) && (ms <=? 253402214400000)
  | Raise _ => true
  end.

(** A usage event on which [consumption_record] is the code's expression:
    its numerals are plain and its time of read, when it is a number, is
    one [datetime.fromtimestamp] accepts. *)
Definition in_scope (item : value) : bool :=
  let time_of_read :=
    rbind (getitem item "fields") (fun fields =>
    getitem fields "time_of_read") in
  plain_field time_of_read &&
  plain_field (getitem item "quantity") &&
  plain_field (getitem item "amount_with_discount") &&
  time_in_range (rbind time_of_read py_int).

(** Not an [aiohttp.ClientError]. *)
Definition not_ClientError (e : exn) : Prop := e <> ClientError.

(** ** The lookups of a first fetch *)

(** [data.get("groups")[0]["id"]] *)
Definition group_of (data : value) : result value :=
  rbind (get data "groups" VNone) (fun groups =>
  rbind (getindex groups 0) (fun group =>
  getitem group "id")).

(** [data["objects"][0]["subscriptions"][0]["balance_group"]["id"]] *)
Definition balance_group_of (data : value) : result value :=
  rbind (getitem data "objects") (fun objects =>
  rbind (getindex objects 0) (fun object =>
  rbind (getitem object "subscriptions") (fun subscriptions =>
  rbind (getindex subscriptions 0) (fun subscription =>
  rbind (getitem subscription "balance_group") (fun balance_group =>
  getitem balance_group "id"))))).

(** [data["objects"][0]["id"]] *)
Definition customer_of (data : value) : result value :=
  rbind (getitem data "objects") (fun objects =>
  rbind (getindex objects 0) (fun object =>
  getitem object "id")).

(** The remote end answers the call [c], made after the calls [history],
    with the JSON body [data] and a status below 400. *)
Definition answers (net : transport) (history : list request) (c : request)
    (data : value) : Prop :=
  exists resp, net history c = Responds resp /\
               status resp < 400 /\ content resp = Json data.

(** The keyword arguments of a call that passes [params=] only. *)
Definition with_params (params : dict) : kwargs :=
  {| kw_headers := None; kw_params := Some params; kw_json := None |}.

(** ** The calls a client makes *)

(** The headers [_api_request] puts on its calls: a bearer token, and the
    two fixed headers. *)
Definition authorized (c : request) : Prop :=
  exists headers token,
    kw_headers (kw c) = Some headers /\
    dict_lookup "Authorization" headers = Some (bearer token) /\
    dict_lookup "Accept" headers = Some [Lit "application/json"] /\
    dict_lookup "Response-Type" headers = Some [Lit "full"].

(** The two kinds of call a client [c0] makes: the authentication with its
    own credentials, and authorized GET requests, without a body, below
    [/api/v1/customers]. *)
Definition well_formed_call {E : Env} (c0 : TridensApiClient) (c : request)
  : Prop :=
  match via c with
  | Post => c = auth_request c0
  | Request =>
      meth c = "GET" /\ kw_json (kw c) = None /\
      (is_lookup c = true \/ is_usage_events c = true) /\
      authorized c
  end.

(** The credentials are those of before, and the new calls are well
    formed. *)
Definition discipline {E : Env} (w w' : world) : Prop :=
  _username (self w') = _username (self w) /\
  _password (self w') = _password (self w) /\
  calls_within (well_formed_call (self w)) w w'.

(** ** The history of a sensor *)

(** The day number of the date of [d]. *)
Definition day_number (d : datetime) : Z :=
  days_from_civil (year d) (month d) (day d).

(** [s] is the historical state of the record [r], read by [value_of]:
    the record's value, dated one calendar day before the record's time of
    read in the system's zone, at the same time of day, and put in Home
    Assistant's zone. *)
Definition state_of_record {H : Entities.Host}
    (value_of : ConsumptionRecord -> float)
    (r : ConsumptionRecord) (s : HistoricalState float) : Prop :=
  state s = value_of r /\
  exists corrected,
    Entities.sub_timedelta (fst (Entities.astimezone (time_of_read r))) 1
      = Ok corrected /\
    day_number corrected =
      day_number (fst (Entities.astimezone (time_of_read r))) - 1 /\
    dt s = Entities.as_local
             (corrected, snd (Entities.astimezone (time_of_read r))).

(** The query of a usage-events request for the window from [start] to
    [end_]. *)
Definition window_query {E : Env} (start end_ : datetime) : dict :=
  [("service_type", VStr "HEAT_METER_READ_SERVICE");
   ("page", VInt 1); ("count", VInt 100); ("order-dir", VStr "desc");
   ("time-from", VInt (epoch_seconds start * 1000));
   ("time-to", VInt (epoch_seconds end_ * 1000))].

(** ** A sample host and a sample platform *)

Definition sample_host : Entities.Host := {|
  Entities.tzinfo := unit;
  Entities.astimezone := fun d => (d, tt);
  Entities.as_local := fun d => fst d
|}.

(** A platform just set up for the user of [fresh]. *)
Definition sample_platform : Entities.platform :=
  {| Entities.tridens_api := fresh;
     Entities.energy_historical_states := None;
     Entities.cost_historical_states := None |}.

(** ** What [hass.data] holds *)

(** The device information [hass.data] holds for an entry. *)
Definition stored_info {C : Entities.Const} (hass_data_ : Entities.hass_data)
    (entry : Entities.ConfigEntry) : option Entities.DeviceInfo :=
  match dict_lookup Entities.DOMAIN hass_data_ with
  | Some infos => dict_lookup (Entities.entry_id entry) infos
  | None => None
  end.

(** [hass.data] holds the same as before for every other entry of the
    domain and for every other domain. *)
Definition others_kept {C : Entities.Const} (entry : Entities.ConfigEntry)
    (before after : Entities.hass_data) : Prop :=
  (forall other,
      Entities.entry_id other <> Entities.entry_id entry ->
      stored_info after other = stored_info before other) /\
  (forall domain,
      domain <> Entities.DOMAIN ->
      dict_lookup domain after = dict_lookup domain before).

(** ** The forms of the configuration flow *)

(** The form shown again with one error. *)
Definition form_with (reason : string) : ConfigFlow.step_outcome :=
  ConfigFlow.Returns (ConfigFlow.ShowForm "user" [("base", reason)]).

(** The client [validate_input] makes for a form. *)
Definition hub_of (username password : string) : world :=
  {| self := new_client username password; calls := []; logged := [] |}.

(* ================================================================== *)
(** * The builtins on small inputs *)
(* ================================================================== *)

Example float_of_string_samples :
  float_of_string "12.5" = Ok 12.5%float /\
  float_of_string " -1_0.5E+1 " = Ok (-105)%float /\
  float_of_string "0.1" = Ok 0.1%float /\
  float_of_string "1e23" = Ok 1e23%float /\
  float_of_string "9007199254740993" = Ok 9007199254740992%float /\
  float_of_string "1e400" = Ok infinity /\
  float_of_string "-Infinity" = Ok neg_infinity /\
  float_of_string "1_" = Raise ValueError /\
  float_of_string "1.5.2" = Raise ValueError /\
  float_of_string "" = Raise ValueError.
Proof. vm_compute. repeat split. Qed.

Example int_samples :
  int_of_string "1700000000000" = Ok 1700000000000 /\
  int_of_string " -0_7 " = Ok (-7) /\
  int_of_string "1.5" = Raise ValueError /\
  py_int (VFloat (-2.5)%float) = Ok (-2) /\
  py_int VNone = Raise TypeError /\
  int_truediv 1700000000000 1000 = Ok 1700000000%float /\
  int_truediv 1 3 = Ok (1 / 3)%float /\
  int_truediv 1 0 = Raise ZeroDivisionError.
Proof. vm_compute. repeat split. Qed.

Example subscripting_samples :
  getindex (VList [VInt 1; VInt 2]) (-1) = Ok (VInt 2) /\
  getindex (VList []) 0 = Raise IndexError /\
  getindex VNone 0 = Raise TypeError /\
  getitem (VDict [("id", VInt 7)]) "id" = Ok (VInt 7) /\
  getitem (VDict []) "id" = Raise KeyError /\
  getitem (VList []) "id" = Raise TypeError /\
  contains "token" (VStr "a token") = Ok true /\
  contains "token" VNone = Raise TypeError /\
  get (VList []) "objects" VNone = Raise AttributeError.
Proof. vm_compute. repeat split. Qed.

(* ================================================================== *)
(** * The aggregation *)
(* ================================================================== *)

Example groupby_is_adjacent :
  groupby (fun n => n / 10) Z.eqb [11; 12; 25; 13; 14] =
  [(1, [11; 12]); (2, [25]); (1, [13; 14])].
Proof. reflexivity. Qed.

Lemma datetime_eqb_eq (a b : datetime) : datetime_eqb a b = true <-> a = b.
Proof.
  unfold datetime_eqb. split.
  - intros H. repeat (apply andb_prop in H; destruct H as [H ?]).
    destruct a, b; simpl in *.
    repeat match goal with E : (_ =? _) = true |- _ => apply Z.eqb_eq in E end.
    congruence.
  - intros ->. rewrite !Z.eqb_refl. reflexivity.
Qed.

Lemma datetime_eqb_neq (a b : datetime) : datetime_eqb a b = false <-> a <> b.
Proof.
  rewrite <- datetime_eqb_eq. destruct (datetime_eqb a b); intuition congruence.
Qed.

Section GroupByFacts.
Context {A K : Type} (key : A -> K) (eqb : K -> K -> bool).
Hypothesis eqb_eq : forall a b, eqb a b = true <-> a = b.

Lemma groupby_from_head k g l :
  exists g' rest, groupby_from key eqb k g l = (k, g') :: rest.
Proof.
  revert k g. induction l as [|x l IH]; intros k g; simpl.
  - eauto.
  - destruct (eqb (key x) k); eauto.
Qed.

Lemma groupby_from_concat k g l :
  List.concat (map snd (groupby_from key eqb k g l)) = g ++ l.
Proof.
  revert k g. induction l as [|x l IH]; intros k g; simpl.
  - now rewrite !app_nil_r.
  - destruct (eqb (key x) k); simpl.
    + rewrite IH, <- app_assoc. reflexivity.
    + rewrite IH. reflexivity.
Qed.

Lemma groupby_from_runs k g l :
  run_of key (k, g) -> Forall (run_of key) (groupby_from key eqb k g l).
Proof.
  revert k g. induction l as [|x l IH]; intros k g Hg; simpl.
  - constructor; [exact Hg | constructor].
  - destruct (eqb (key x) k) eqn:E.
    + apply IH. destruct Hg as [Hne Hk]. split; simpl in *.
      * destruct g; discriminate.
      * intros y Hy. apply in_app_or in Hy. destruct Hy as [Hy | [<- | []]].
        -- now apply Hk.
        -- now apply eqb_eq.
    + constructor; [exact Hg |]. apply IH. split; simpl.
      * discriminate.
      * intros y [<- | []]. reflexivity.
Qed.

Lemma groupby_from_adjacent k g l :
  adjacent_differ (map fst (groupby_from key eqb k g l)).
Proof.
  revert k g. induction l as [|x l IH]; intros k g; simpl.
  - exact I.
  - destruct (eqb (key x) k) eqn:E.
    + apply IH.
    + specialize (IH (key x) [x]).
      destruct (groupby_from_head (key x) [x] l) as (g' & rest & Hd).
      rewrite Hd in *. simpl in *. split; [| exact IH].
      intros Heq. symmetry in Heq. apply eqb_eq in Heq. congruence.
Qed.

(** The groups, put end to end, are the input. *)
Lemma groupby_concat l : List.concat (map snd (groupby key eqb l)) = l.
Proof. destruct l; simpl; [reflexivity | apply groupby_from_concat]. Qed.

(** Every group is a run of one key. *)
Lemma groupby_runs l : Forall (run_of key) (groupby key eqb l).
Proof.
  destruct l as [|x l]; simpl; [constructor |].
  apply groupby_from_runs. split; simpl; [discriminate |].
  intros y [<- | []]. reflexivity.
Qed.

(** Runs are maximal: the next group has another key. *)
Lemma groupby_adjacent l : adjacent_differ (map fst (groupby key eqb l)).
Proof. destruct l; simpl; [exact I | apply groupby_from_adjacent]. Qed.

End GroupByFacts.

Lemma last_cons {A} (l : list A) (a d : A) : last (a :: l) d = last l a.
Proof.
  revert a d. induction l as [|b l IH]; intros a d; [reflexivity |].
  change (last (a :: b :: l) d) with (last (b :: l) d).
  now rewrite !IH.
Qed.

Section AccumulateFacts.
Context {num : Type} {N : Number num}.
Implicit Types (groups : list (datetime * list (HistoricalState num))).

Lemma accumulate_start acc groups :
  map sd_start (accumulate acc groups) = map fst groups.
Proof.
  revert acc. induction groups as [|[d c] groups IH]; intros acc; simpl;
    [reflexivity | now rewrite IH].
Qed.

Lemma accumulate_state acc groups :
  map sd_state (accumulate acc groups) = map run_total groups.
Proof.
  revert acc. induction groups as [|[d c] groups IH]; intros acc; simpl;
    [reflexivity | now rewrite IH].
Qed.

(** Each cumulative sum is the previous one (the seed for the first entry)
    plus the entry's own total. *)
Lemma accumulate_step acc groups i cur :
  nth_error (accumulate acc groups) i = Some cur ->
  sd_sum cur =
  add (nth i (acc :: map sd_sum (accumulate acc groups)) acc) (sd_state cur).
Proof.
  revert acc i. induction groups as [|[d c] groups IH]; intros acc i; simpl.
  - destruct i; discriminate.
  - destruct i as [|i]; simpl.
    + intros [= <-]. reflexivity.
    + intros H. rewrite (IH _ _ H).
      f_equal.
      change (nth i (add acc (py_sum (map state c))
                :: map sd_sum (accumulate (add acc (py_sum (map state c))) groups))
                (add acc (py_sum (map state c))) =
              nth i (add acc (py_sum (map state c))
                :: map sd_sum (accumulate (add acc (py_sum (map state c))) groups))
                acc).
      apply nth_indep. simpl. rewrite length_map.
      assert (i < List.length (accumulate (add acc (py_sum (map state c))) groups))%nat
        by (apply nth_error_Some; congruence).
      lia.
Qed.

(** The last cumulative sum is the seed with the totals added in order. *)
Lemma accumulate_last acc groups :
  last (map sd_sum (accumulate acc groups)) acc =
  fold_left add (map run_total groups) acc.
Proof.
  revert acc. induction groups as [|[d c] groups IH]; intros acc; simpl.
  - reflexivity.
  - rewrite <- IH. apply last_cons.
Qed.

Lemma calculate_seeded hist latest S :
  initial_sum latest = Ok S ->
  async_calculate_statistic_data hist latest =
  Ok (accumulate S (groupby day_block_for_hist_state datetime_eqb hist)).
Proof. unfold async_calculate_statistic_data. now intros ->. Qed.

Section Exact.
Hypothesis add_assoc : forall a b c : num, add a (add b c) = add (add a b) c.
Hypothesis add_zero_l : forall a : num, add zero a = a.
Hypothesis add_zero_r : forall a : num, add a zero = a.

Lemma fold_add_from (xs : list num) (a : num) :
  fold_left add xs a = add a (py_sum xs).
Proof.
  unfold py_sum. revert a. induction xs as [|x xs IH]; intros a; simpl.
  - now rewrite add_zero_r.
  - rewrite IH, (IH (add zero x)), add_zero_l, add_assoc. reflexivity.
Qed.

Lemma py_sum_app (xs ys : list num) :
  py_sum (xs ++ ys) = add (py_sum xs) (py_sum ys).
Proof. unfold py_sum at 1. rewrite fold_left_app. apply fold_add_from. Qed.

Lemma py_sum_runs groups :
  py_sum (map run_total groups) =
  py_sum (map state (List.concat (map snd groups))).
Proof.
  induction groups as [|[d c] groups IH]; simpl; [reflexivity |].
  rewrite map_app, py_sum_app, <- IH.
  change (py_sum (run_total (d, c) :: map run_total groups))
    with (fold_left add (map run_total groups) (add zero (run_total (d, c)))).
  now rewrite fold_add_from, add_zero_l.
Qed.

End Exact.
End AccumulateFacts.

(** C2. The aggregation partitions its input into adjacency-based runs:
    the groups put end to end are the input, every group is a non-empty
    run of readings of one calendar day, consecutive groups are of
    different days, and the output has one entry per group, with the
    group's day and the sum of the group's readings. Two readings of one
    day separated by a reading of another day therefore give three entries.
    In particular the readings day1=5, day2=3, day1=2, with no prior total,
    give three entries with period totals 5, 3, 2 and cumulative sums
    5, 8, 10. *)
Theorem runs_are_adjacency_based :
  (forall (num : Type) (N : Number num)
          (hist_states : list (HistoricalState num)) latest S,
      initial_sum latest = Ok S ->
      let groups := groupby day_block_for_hist_state datetime_eqb hist_states in
      exists out,
        async_calculate_statistic_data hist_states latest = Ok out /\
        List.concat (map snd groups) = hist_states /\
        Forall (fun g => snd g <> [] /\
                  forall x, In x (snd g) -> day_block_for_hist_state x = fst g)
               groups /\
        adjacent_differ (map fst groups) /\
        map sd_start out = map fst groups /\
        map sd_state out = map (fun g => py_sum (map state (snd g))) groups)
  /\
  (forall (num : Type) (N : Number num) (a b c : HistoricalState num) latest S,
      initial_sum latest = Ok S ->
      day_block_for_hist_state a = day_block_for_hist_state c ->
      day_block_for_hist_state b <> day_block_for_hist_state a ->
      exists e1 e2 e3,
        async_calculate_statistic_data [a; b; c] latest = Ok [e1; e2; e3] /\
        map sd_start [e1; e2; e3] =
          map day_block_for_hist_state [a; b; c] /\
        map sd_state [e1; e2; e3] =
          [py_sum [state a]; py_sum [state b]; py_sum [state c]])
  /\
  async_calculate_statistic_data
    [reading (at_time 2024 3 1 8) 5%float;
     reading (at_time 2024 3 2 8) 3%float;
     reading (at_time 2024 3 1 20) 2%float] None
  = Ok [entry (at_time 2024 3 1 0) 5%float 5%float;
        entry (at_time 2024 3 2 0) 3%float 8%float;
        entry (at_time 2024 3 1 0) 2%float 10%float].
Proof.
  split; [| split].
  - intros num N hist latest S HS groups.
    exists (accumulate S groups). subst groups.
    split; [now apply calculate_seeded |].
    split; [apply groupby_concat |].
    split; [apply (groupby_runs _ _ datetime_eqb_eq) |].
    split; [apply (groupby_adjacent _ _ datetime_eqb_eq) |].
    split; [apply accumulate_start | apply accumulate_state].
  - intros num N a b c latest S HS Hac Hba.
    rewrite (calculate_seeded _ _ _ HS). simpl.
    apply datetime_eqb_neq in Hba. rewrite Hba.
    assert (Hcb : datetime_eqb (day_block_for_hist_state c)
                    (day_block_for_hist_state b) = false).
    { apply datetime_eqb_neq. rewrite <- Hac. intros E.
      apply datetime_eqb_neq in Hba. congruence. }
    rewrite Hcb. simpl. rewrite <- Hac. eauto 10.
  - vm_compute. reflexivity.
Qed.

(** C4. For every sequence of readings and every seed [S] (the prior
    total, which is 0 when none is supplied), the aggregation returns, and
    the cumulative sum of its i-th entry is the cumulative sum of the
    entry before it (or [S] for the first entry) plus the i-th entry's
    period total. *)
Theorem cumulative_sum_recurrence
    (num : Type) (N : Number num)
    (hist_states : list (HistoricalState num))
    (latest : option (list (string * num))) (S : num) :
  initial_sum latest = Ok S ->
  (latest = None -> S = zero) /\
  exists out,
    async_calculate_statistic_data hist_states latest = Ok out /\
    forall i cur,
      nth_error out i = Some cur ->
      sd_sum cur = add (nth i (S :: map sd_sum out) S) (sd_state cur).
Proof.
  intros HS. split.
  - intros ->. simpl in HS. congruence.
  - exists (accumulate S
              (groupby day_block_for_hist_state datetime_eqb hist_states)).
    split; [apply calculate_seeded; exact HS |].
    intros i cur. apply accumulate_step.
Qed.

Lemma cumulative_sum_recurrence_witness :
  let hist_states := [reading (at_time 2024 3 1 8) 5%float;
                      reading (at_time 2024 3 1 20) 1.5%float;
                      reading (at_time 2024 3 2 8) 3%float] in
  let latest := Some [("sum", 100%float)] in
  (latest = None -> 100%float = zero) /\
  exists out,
    async_calculate_statistic_data hist_states latest = Ok out /\
    forall i cur,
      nth_error out i = Some cur ->
      sd_sum cur =
      add (nth i (100%float :: map sd_sum out) 100%float) (sd_state cur).
Proof.
  apply (cumulative_sum_recurrence float float_Number). reflexivity.
Defined.

(** C9 as it is stated fails on floats: with the seed 0.1 and the readings
    0.2 and 0.3 on two days, the last cumulative sum is (0.1 + 0.2) + 0.3,
    which is not 0.1 + (0.2 + 0.3). *)
Lemma totals_regroup_float_counterexample :
  ~ totals_regroup
      [reading (at_time 2024 3 1 8) 0.2%float;
       reading (at_time 2024 3 2 8) 0.3%float]
      (Some [("sum", 0.1%float)]).
Proof.
  intros H.
  destruct (H 0.1%float
              [entry (at_time 2024 3 1 0) 0.2 (0.1 + 0.2);
               entry (at_time 2024 3 2 0) 0.3 (0.1 + 0.2 + 0.3)]%float
              eq_refl eq_refl) as [_ Hlast].
  assert (Hne : [entry (at_time 2024 3 1 0) 0.2 (0.1 + 0.2);
                 entry (at_time 2024 3 2 0) 0.3 (0.1 + 0.2 + 0.3)]%float <> [])
    by discriminate.
  apply Hlast in Hne. vm_compute in Hne. discriminate Hne.
Qed.

Lemma whole_range_In bound a : Z.abs a <= bound -> In a (whole_range bound).
Proof.
  intros H. unfold whole_range. apply in_map_iff.
  exists (Z.to_nat (a + bound)). split; [lia |].
  apply in_seq. lia.
Qed.

Lemma floats_exact bound :
  floats_exact_up_to bound = true -> exact_up_to whole bound.
Proof.
  unfold floats_exact_up_to. cbv zeta. intros H.
  apply andb_true_iff in H. destruct H as [H0 H].
  split; [now apply FloatAxioms.Leibniz.eqb_spec in H0 |].
  intros a b Ha Hb Hab.
  rewrite forallb_forall in H. specialize (H a (whole_range_In bound a Ha)).
  rewrite forallb_forall in H. specialize (H b (whole_range_In bound b Hb)).
  apply Z.leb_le in Hab. rewrite Hab in H. simpl in H.
  now apply FloatAxioms.Leibniz.eqb_spec in H.
Qed.

(** The float additions of whole numbers up to 256 are exact: the pairs
    are checked one by one. *)
Lemma floats_exact_256 : exact_up_to whole 256.
Proof. apply floats_exact. vm_compute. reflexivity. Qed.

Lemma total_app xs ys : total (xs ++ ys) = total xs + total ys.
Proof. unfold total. induction xs as [|x xs IH]; simpl; lia. Qed.

Lemma magnitude_app xs ys : magnitude (xs ++ ys) = magnitude xs + magnitude ys.
Proof. unfold magnitude. induction xs as [|x xs IH]; simpl; lia. Qed.

Lemma total_le_magnitude zs : Z.abs (total zs) <= magnitude zs.
Proof.
  unfold total, magnitude. induction zs as [|z zs IH]; simpl; lia.
Qed.

Section ExactUpTo.
Context {num : Type} {N : Number num}.
Variables (num_of : Z -> num) (bound : Z).
Hypothesis exact : exact_up_to num_of bound.

(** Adding whole numbers one at a time, within the bound, gives their
    sum. *)
Lemma fold_exact zs a :
  Z.abs a + magnitude zs <= bound ->
  fold_left add (map num_of zs) (num_of a) = num_of (a + total zs).
Proof.
  destruct exact as [_ Hadd].
  revert a. induction zs as [|z zs IH]; intros a Hb; simpl in *.
  - now rewrite Z.add_0_r.
  - pose proof (total_le_magnitude zs).
    rewrite Hadd by lia. rewrite IH by lia. f_equal. lia.
Qed.

Lemma py_sum_exact zs :
  magnitude zs <= bound -> py_sum (map num_of zs) = num_of (total zs).
Proof.
  intros Hb. unfold py_sum. destruct exact as [<- _].
  pose proof (total_le_magnitude zs).
  now rewrite fold_exact by (simpl; lia).
Qed.

(** The period totals added one at a time give the sum of all readings. *)
Lemma runs_exact (groups : list (datetime * list (HistoricalState num))) zs a :
  map state (List.concat (map snd groups)) = map num_of zs ->
  Z.abs a + magnitude zs <= bound ->
  fold_left add (map run_total groups) (num_of a) = num_of (a + total zs).
Proof.
  revert zs a. induction groups as [|[d c] groups IH]; intros zs a Hz Hb.
  - simpl in *. symmetry in Hz. apply map_eq_nil in Hz. subst zs. simpl.
    now rewrite Z.add_0_r.
  - simpl in Hz. rewrite map_app in Hz. symmetry in Hz.
    apply map_eq_app in Hz. destruct Hz as (zs1 & zs2 & -> & Hz1 & Hz2).
    rewrite magnitude_app in Hb. rewrite total_app.
    pose proof (total_le_magnitude zs1). pose proof (total_le_magnitude zs2).
    assert (0 <= magnitude zs1 /\ 0 <= magnitude zs2) by lia.
    cbn [map fold_left].
    change (run_total (d, c)) with (py_sum (map state c)).
    rewrite <- Hz1, py_sum_exact by lia.
    destruct exact as [_ Hadd]. rewrite Hadd by lia.
    rewrite (IH zs2) by (auto; lia). f_equal. lia.
Qed.

End ExactUpTo.

(** C9, amended. For every sequence of readings and every seed [S], the
    period totals are the sums of the runs, and the last cumulative sum is
    [S] with the period totals added one at a time, in order. When the
    additions are exact, the period totals add up to the sum of all
    readings and the last cumulative sum is [S] plus that sum, however the
    readings are grouped into runs: this holds for a number type whose
    addition is associative with 0 neutral (Python's integers), and for
    any number type (floats included) on readings and a seed that are
    whole numbers, or their images under [num_of], as long as the
    absolute values of the seed and of the readings add up to no more
    than a bound up to which the additions are exact. *)
Theorem totals_by_runs
    (num : Type) (N : Number num)
    (hist_states : list (HistoricalState num))
    (latest : option (list (string * num))) (S : num)
    (out : list (StatisticData num)) :
  initial_sum latest = Ok S ->
  async_calculate_statistic_data hist_states latest = Ok out ->
  map sd_state out =
    map (fun g => py_sum (map state (snd g)))
        (groupby day_block_for_hist_state datetime_eqb hist_states) /\
  last (map sd_sum out) S = fold_left add (map sd_state out) S /\
  ((forall a b c : num, add a (add b c) = add (add a b) c) ->
   (forall a : num, add zero a = a) ->
   (forall a : num, add a zero = a) ->
   py_sum (map sd_state out) = py_sum (map state hist_states) /\
   last (map sd_sum out) S = add S (py_sum (map state hist_states))) /\
  (forall (num_of : Z -> num) (bound s : Z) (zs : list Z),
      exact_up_to num_of bound ->
      S = num_of s ->
      map state hist_states = map num_of zs ->
      Z.abs s + magnitude zs <= bound ->
      py_sum (map sd_state out) = py_sum (map state hist_states) /\
      py_sum (map state hist_states) = num_of (total zs) /\
      last (map sd_sum out) S = add S (py_sum (map state hist_states)) /\
      last (map sd_sum out) S = num_of (s + total zs)).
Proof.
  intros HS Hout.
  rewrite (calculate_seeded _ _ _ HS) in Hout. injection Hout as <-.
  set (groups := groupby day_block_for_hist_state datetime_eqb hist_states).
  assert (Hcat : List.concat (map snd groups) = hist_states)
    by apply groupby_concat.
  split; [apply accumulate_state |].
  split; [rewrite accumulate_state; apply accumulate_last |].
  split.
  - intros Hassoc Hl Hr. split.
    + rewrite accumulate_state, py_sum_runs, Hcat by assumption. reflexivity.
    + rewrite accumulate_last, fold_add_from, py_sum_runs, Hcat by assumption.
      reflexivity.
  - intros num_of bound s zs Hex -> Hz Hb.
    assert (Hm : 0 <= magnitude zs).
    { pose proof (total_le_magnitude zs). lia. }
    pose proof (total_le_magnitude zs) as Ht.
    rewrite <- Hcat in Hz.
    assert (Hsum : py_sum (map state hist_states) = num_of (total zs)).
    { rewrite <- Hcat, Hz. apply (py_sum_exact num_of bound Hex). lia. }
    assert (Hruns : py_sum (map run_total groups) = num_of (total zs)).
    { unfold py_sum. destruct Hex as [H0 Hadd]. rewrite <- H0.
      rewrite (runs_exact num_of bound (conj H0 Hadd) groups zs 0 Hz)
        by (simpl; lia).
      reflexivity. }
    rewrite accumulate_state, accumulate_last, Hsum, Hruns.
    rewrite (runs_exact num_of bound Hex groups zs s Hz Hb).
    destruct Hex as [_ Hadd]. rewrite Hadd by lia.
    now repeat split.
Qed.

(** The specification's readings 5, 3, 2 as floats, the first and the
    third on one day: three runs, and the sums agree. *)
Lemma totals_by_runs_witness :
  let hist_states := [reading (at_time 2024 3 1 8) 5%float;
                      reading (at_time 2024 3 2 8) 3%float;
                      reading (at_time 2024 3 1 20) 2%float] in
  let out := [entry (at_time 2024 3 1 0) 5 105;
              entry (at_time 2024 3 2 0) 3 108;
              entry (at_time 2024 3 1 0) 2 110]%float in
  map sd_state out = [5; 3; 2]%float /\
  py_sum (map sd_state out) = py_sum (map state hist_states) /\
  py_sum (map state hist_states) = 10%float /\
  last (map sd_sum out) 100%float =
    add 100%float (py_sum (map state hist_states)) /\
  last (map sd_sum out) 100%float = 110%float.
Proof.
  intros hist_states out.
  destruct (totals_by_runs float float_Number hist_states
              (Some [("sum", 100%float)]) 100%float out eq_refl eq_refl)
    as (Hstate & _ & _ & Hexact).
  destruct (Hexact whole 256 100 [5; 3; 2] floats_exact_256
              eq_refl eq_refl) as (H1 & H2 & H3 & H4).
  - vm_compute. discriminate.
  - repeat split; assumption.
Defined.

(* ================================================================== *)
(** * The API client *)
(* ================================================================== *)

Ltac unfold_monad :=
  unfold bind, ret, raise, lift, try_except, attr, update, log, send in *.

Ltac case_step :=
  match goal with
  | |- context [match ?x with _ => _ end] =>
      lazymatch x with
      | context [match _ with _ => _ end] => fail
      | _ => destruct x eqn:?
      end
  | |- context [if ?x then _ else _] =>
      lazymatch x with
      | context [if _ then _ else _] => fail
      | context [match _ with _ => _ end] => fail
      | _ => destruct x eqn:?
      end
  | |- context [existsb ?f ?l] => destruct (existsb f l) eqn:?
  | |- context [is_substring ?p ?l] => destruct (is_substring p l) eqn:?
  end.

(** ** Relations between the worlds before and after a method *)

Section Stable.
Variable R : world -> world -> Prop.
Hypothesis R_refl : forall w, R w w.
Hypothesis R_trans : forall w1 w2 w3, R w1 w2 -> R w2 w3 -> R w1 w3.

Lemma stable_ret {A} (a : A) : stable R (ret a).
Proof. intros net w. apply R_refl. Qed.

Lemma stable_raise {A} e : stable R (@raise A e).
Proof. intros net w. apply R_refl. Qed.

Lemma stable_lift {A} (r : result A) : stable R (lift r).
Proof. intros net w. apply R_refl. Qed.

Lemma stable_attr {A} (f : TridensApiClient -> A) : stable R (attr f).
Proof. intros net w. apply R_refl. Qed.

Lemma stable_bind {A B} (m : M A) (k : A -> M B) :
  stable R m -> (forall a, stable R (k a)) -> stable R (bind m k).
Proof.
  intros Hm Hk net w. unfold bind. specialize (Hm net w).
  destruct (m net w) as [[a | e] w1]; simpl in *; [| exact Hm].
  eapply R_trans; [exact Hm | apply Hk].
Qed.

Lemma stable_try_except {A} (m : M A) catches (h : M A) :
  stable R m -> stable R h -> stable R (try_except m catches h).
Proof.
  intros Hm Hh net w. unfold try_except. specialize (Hm net w).
  destruct (m net w) as [[a | e] w1]; simpl in *; [exact Hm |].
  destruct (catches e); [| exact Hm].
  eapply R_trans; [exact Hm | apply Hh].
Qed.

Lemma stable_log l msg :
  (forall w, R w {| self := self w; calls := calls w;
                    logged := logged w ++ [(l, msg)] |}) ->
  stable R (log l msg).
Proof. intros H net w. apply H. Qed.

Lemma stable_update f :
  (forall w, R w {| self := f (self w); calls := calls w;
                    logged := logged w |}) ->
  stable R (update f).
Proof. intros H net w. apply H. Qed.

Lemma stable_send r :
  (forall w, R w {| self := self w; calls := calls w ++ [r];
                    logged := logged w |}) ->
  stable R (send r).
Proof. intros H net w. unfold send. destruct (net (calls w) r); apply H. Qed.

End Stable.

Ltac stable_step :=
  lazymatch goal with
  | |- stable _ (ret _) => apply stable_ret; solve [eauto]
  | |- stable _ (raise _) => apply stable_raise; solve [eauto]
  | |- stable _ (lift _) => apply stable_lift; solve [eauto]
  | |- stable _ (attr _) => apply stable_attr; solve [eauto]
  | |- stable _ (try_except _ _ _) =>
      apply stable_try_except; [solve [eauto] | | ]
  | |- stable _ (bind _ _) => apply stable_bind; [solve [eauto] | | intros ? ]
  | |- stable _ (let _ := _ in _) => cbv zeta
  | |- stable _ (if ?b then _ else _) => destruct b
  | |- stable _ (match ?x with _ => _ end) => destruct x
  end.

Ltac stable_leaf :=
  lazymatch goal with
  | |- stable _ (log _ _) => apply stable_log; intros ?
  | |- stable _ (update _) => apply stable_update; intros ?
  | |- stable _ (send _) => apply stable_send; intros ?
  end.

(** The client's identity and resolved identifiers. *)
Lemma same_identity_refl w : same_identity w w.
Proof. repeat split. Qed.

Lemma same_identity_trans w1 w2 w3 :
  same_identity w1 w2 -> same_identity w2 w3 -> same_identity w1 w3.
Proof. unfold same_identity. intuition congruence. Qed.

(** The calls of a run all satisfy [allowed]. *)
Lemma calls_within_refl allowed w : calls_within allowed w w.
Proof. exists []. split; [now rewrite app_nil_r | constructor]. Qed.

Lemma calls_within_trans allowed w1 w2 w3 :
  calls_within allowed w1 w2 -> calls_within allowed w2 w3 ->
  calls_within allowed w1 w3.
Proof.
  intros (n1 & E1 & F1) (n2 & E2 & F2). exists (n1 ++ n2). split.
  - now rewrite E2, E1, app_assoc.
  - apply Forall_app. now split.
Qed.

#[local] Hint Resolve same_identity_refl same_identity_trans
  calls_within_refl calls_within_trans : core.

#[local] Arguments is_None : simpl never.
#[local] Arguments unauthorized : simpl never.
#[local] Arguments raise_for_status : simpl never.
#[local] Arguments response_json : simpl never.
#[local] Arguments auth_request : simpl never.
#[local] Arguments with_headers : simpl never.
#[local] Arguments set_authorization : simpl never.
#[local] Arguments api_call : simpl never.
#[local] Arguments usage_events_params : simpl never.
#[local] Arguments usage_events_url : simpl never.
#[local] Arguments async_get_token : simpl never.

Section ClientFacts.
Context {E : Env}.

Lemma get_token_calls net w :
  calls (snd (async_get_token net w)) = calls w ++ [auth_request (self w)].
Proof.
  unfold async_get_token, _set_customer_code_from_token. unfold_monad. simpl.
  repeat (case_step; simpl; try reflexivity).
Qed.

Lemma get_token_not_ClientError net w :
  fst (async_get_token net w) <> Raise ClientError.
Proof.
  unfold async_get_token, _set_customer_code_from_token. unfold_monad. simpl.
  repeat (case_step; simpl; try discriminate).
  all: try (intros [= ->]; discriminate).
Qed.

Lemma get_token_identity : stable same_identity async_get_token.
Proof.
  unfold async_get_token, _set_customer_code_from_token.
  repeat stable_step; stable_leaf; now repeat split.
Qed.

(** The world after [async_get_token], for a run that is case-split. *)
Lemma get_token_run net w :
  exists r wa,
    async_get_token net w = (r, wa) /\
    calls wa = calls w ++ [auth_request (self w)] /\
    r <> Raise ClientError /\
    same_identity w wa.
Proof.
  exists (fst (async_get_token net w)), (snd (async_get_token net w)).
  split; [apply surjective_pairing |].
  split; [apply get_token_calls |].
  split; [apply get_token_not_ClientError | apply get_token_identity].
Qed.

Lemma api_request_identity method u k :
  stable same_identity (_api_request method u k).
Proof.
  unfold _api_request.
  repeat (stable_step || apply get_token_identity);
    stable_leaf; now repeat split.
Qed.

Section CallsWithin.
Variable allowed : request -> Prop.
Hypothesis allowed_auth : forall c, allowed (auth_request c).

Lemma within_log w l :
  calls_within allowed w
    {| self := self w; calls := calls w; logged := logged w ++ l |}.
Proof. exists []. simpl. split; [now rewrite app_nil_r | constructor]. Qed.

Lemma within_update w f :
  calls_within allowed w
    {| self := f (self w); calls := calls w; logged := logged w |}.
Proof. exists []. simpl. split; [now rewrite app_nil_r | constructor]. Qed.

Lemma within_send w r :
  allowed r ->
  calls_within allowed w
    {| self := self w; calls := calls w ++ [r]; logged := logged w |}.
Proof. intros H. exists [r]. split; [reflexivity | now constructor]. Qed.

Ltac within_leaf :=
  lazymatch goal with
  | |- stable _ (log _ _) => apply stable_log; intros ?; apply within_log
  | |- stable _ (update _) => apply stable_update; intros ?; apply within_update
  | |- stable _ (send _) => apply stable_send; intros ?; apply within_send
  end.

Lemma get_token_within : stable (calls_within allowed) async_get_token.
Proof.
  unfold async_get_token, _set_customer_code_from_token.
  repeat stable_step; within_leaf. apply allowed_auth.
Qed.

Lemma api_request_within method u k :
  (forall k', kw_params k' = kw_params k -> kw_json k' = kw_json k ->
              allowed (api_call method u k')) ->
  stable (calls_within allowed) (_api_request method u k).
Proof.
  intros Hk. unfold _api_request.
  repeat (stable_step || apply get_token_within); within_leaf;
    apply Hk; reflexivity.
Qed.

Lemma customer_data_within :
  (forall code k', kw_params k' = None -> kw_json k' = None ->
                   allowed (api_call "GET" (customer_url code) k')) ->
  stable (calls_within allowed) _get_customer_data.
Proof.
  intros Hk. unfold _get_customer_data.
  repeat (stable_step || apply get_token_within
          || (apply api_request_within; intros ? H1 H2; apply Hk;
              [exact H1 | exact H2]));
    within_leaf.
Qed.

Lemma subscription_data_within :
  (forall code k', kw_params k' = None -> kw_json k' = None ->
                   allowed (api_call "GET" (customer_url code) k')) ->
  (forall group_id k',
      kw_params k' = Some [("parent-group", group_id)] -> kw_json k' = None ->
      allowed (api_call "GET" customers_url k')) ->
  stable (calls_within allowed) _get_subscription_data.
Proof.
  intros Hc Hs. unfold _get_subscription_data.
  repeat (stable_step || (apply customer_data_within; exact Hc)
          || (apply api_request_within; intros ? H1 H2; eapply Hs;
              [exact H1 | exact H2]));
    within_leaf.
Qed.

Lemma fetch_records_within data :
  stable (calls_within allowed) (fetch_consumption_records data).
Proof.
  unfold fetch_consumption_records. repeat stable_step; within_leaf.
Qed.

Lemma fetch_consumption_within start end_ :
  (forall code k', kw_params k' = None -> kw_json k' = None ->
                   allowed (api_call "GET" (customer_url code) k')) ->
  (forall group_id k',
      kw_params k' = Some [("parent-group", group_id)] -> kw_json k' = None ->
      allowed (api_call "GET" customers_url k')) ->
  (forall customer_id k',
      kw_params k' = Some (usage_events_params start end_) ->
      kw_json k' = None ->
      allowed (api_call "GET" (usage_events_url customer_id) k')) ->
  stable (calls_within allowed) (fetch_consumption start end_).
Proof.
  intros Hc Hs Hu. unfold fetch_consumption, fetch_consumption_data.
  repeat (stable_step || (apply subscription_data_within; assumption)
          || (apply api_request_within; intros ? H1 H2; apply Hu;
              [exact H1 | exact H2])
          || apply fetch_records_within).
Qed.

End CallsWithin.

End ClientFacts.

Section RunFacts.
Context {E : Env}.

(** With a token held, [_api_request] starts with its first attempt. *)
Lemma api_request_first_call method u k net w :
  is_None (_access_token (self w)) = false ->
  exists rest,
    calls (snd (_api_request method u k net w)) =
    calls w ++ api_call method u (with_headers (_access_token (self w)) k)
            :: rest.
Proof.
  intros Ht. unfold _api_request. unfold_monad. simpl. rewrite Ht. simpl.
  destruct (net _ _) as [resp |]; simpl; [| now exists []].
  destruct (unauthorized resp); simpl.
  - match goal with |- context [async_get_token net ?W] =>
      destruct (get_token_run net W) as (r & wa & -> & Hc & _ & _)
    end.
    simpl in Hc.
    destruct r as [tok | e]; simpl.
    + destruct (net _ _); simpl.
      * repeat case_step; simpl; rewrite Hc, <- !app_assoc; simpl; eauto.
      * rewrite Hc, <- !app_assoc; simpl; eauto.
    + destruct (is_ClientError e); simpl; rewrite Hc, <- app_assoc; simpl; eauto.
  - repeat case_step; simpl; now exists [].
Qed.

End RunFacts.

Section Fetching.
Context {E : Env}.

Lemma fetch_records_calls data net w :
  calls (snd (fetch_consumption_records data net w)) = calls w.
Proof.
  unfold fetch_consumption_records. unfold_monad.
  repeat (case_step; simpl; try reflexivity).
Qed.

Lemma fetch_records_self data net w :
  self (snd (fetch_consumption_records data net w)) = self w.
Proof.
  unfold fetch_consumption_records. unfold_monad.
  repeat (case_step; simpl; try reflexivity).
Qed.

(** With both identifiers resolved, [fetch_consumption_data] is its
    usage-events request alone. *)
Lemma fetch_data_resolved start end_ net w :
  is_None (_customer_id (self w)) = false ->
  is_None (_balance_group_id (self w)) = false ->
  fetch_consumption_data start end_ net w =
  _api_request "GET" (usage_events_url (_customer_id (self w)))
    {| kw_headers := None; kw_params := Some (usage_events_params start end_);
       kw_json := None |} net w.
Proof.
  intros Hc Hb. unfold fetch_consumption_data. unfold_monad. simpl.
  rewrite Hc, Hb. simpl. now destruct (_api_request _ _ _ net w) as [[] ?].
Qed.

Lemma fetch_calls start end_ net w :
  calls (snd (fetch_consumption start end_ net w)) =
  calls (snd (fetch_consumption_data start end_ net w)).
Proof.
  unfold fetch_consumption, bind.
  destruct (fetch_consumption_data start end_ net w) as [[data | e] w1];
    simpl; [apply fetch_records_calls | reflexivity].
Qed.

Lemma fetch_self start end_ net w :
  self (snd (fetch_consumption start end_ net w)) =
  self (snd (fetch_consumption_data start end_ net w)).
Proof.
  unfold fetch_consumption, bind.
  destruct (fetch_consumption_data start end_ net w) as [[data | e] w1];
    simpl; [apply fetch_records_self | reflexivity].
Qed.

End Fetching.

(** C8. For every call of [fetch_consumption], the query of the
    usage-events request is exactly the fixed service type, page 1, count
    100 and descending order, followed by [time-from] if and only if
    [start] is given and by [time-to] if and only if [end] is given, each
    the whole seconds since the epoch times 1000. Every usage-events
    request of a run is a GET with that query, and on a client that holds
    a token and its identifiers the run starts with that request. *)
Theorem usage_events_query (E : Env) (start end_ : option datetime) :
  usage_events_params start end_ =
    [("service_type", VStr "HEAT_METER_READ_SERVICE");
     ("page", VInt 1); ("count", VInt 100); ("order-dir", VStr "desc")]
    ++ match start with
       | Some d => [("time-from", VInt (epoch_seconds d * 1000))]
       | None => []
       end
    ++ match end_ with
       | Some d => [("time-to", VInt (epoch_seconds d * 1000))]
       | None => []
       end
  /\
  (forall net w,
      exists new,
        calls (snd (fetch_consumption start end_ net w)) = calls w ++ new /\
        Forall (fun c => is_usage_events c = true ->
                         meth c = "GET" /\
                         kw_params (kw c) = Some (usage_events_params start end_))
               new)
  /\
  (forall net w,
      is_None (_access_token (self w)) = false ->
      is_None (_customer_id (self w)) = false ->
      is_None (_balance_group_id (self w)) = false ->
      exists c rest,
        calls (snd (fetch_consumption start end_ net w)) = calls w ++ c :: rest /\
        is_usage_events c = true /\
        url c = usage_events_url (_customer_id (self w))).
Proof.
  split; [| split].
  - destruct start, end_; reflexivity.
  - intros net w.
    apply (fetch_consumption_within
             (fun c => is_usage_events c = true ->
                       meth c = "GET" /\
                       kw_params (kw c) = Some (usage_events_params start end_))).
    + intros c. discriminate.
    + intros code k' _ _. discriminate.
    + intros g k' _ _. discriminate.
    + intros cid k' Hp _ _. split; [reflexivity | exact Hp].
  - intros net w Ht Hc Hb.
    rewrite fetch_calls, fetch_data_resolved by assumption.
    destruct (api_request_first_call "GET"
                (usage_events_url (_customer_id (self w)))
                {| kw_headers := None;
                   kw_params := Some (usage_events_params start end_);
                   kw_json := None |} net w Ht) as [rest Hrest].
    eexists _, rest. split; [exact Hrest |]. split; reflexivity.
Qed.

(** C10. If the JSON object that answers the usage-events request has no
    [objects] key, or an empty [objects] list, [fetch_consumption] returns
    the empty list and does not raise. *)
Theorem no_objects_no_records (E : Env) (start end_ : option datetime)
    (net : transport) (w w1 : world) (d : dict) :
  fetch_consumption_data start end_ net w = (Ok (VDict d), w1) ->
  dict_lookup "objects" d = None \/ dict_lookup "objects" d = Some (VList []) ->
  fst (fetch_consumption start end_ net w) = Ok [].
Proof.
  intros Hdata Hobj. unfold fetch_consumption, bind. rewrite Hdata.
  unfold fetch_consumption_records. unfold_monad. simpl.
  destruct Hobj as [-> | ->]; reflexivity.
Qed.

Example empty_objects_no_records :
  fst (fetch_consumption (E := sample_env) None None
         (always (ok_json (VDict [("objects", VList [])]))) resolved) = Ok [].
Proof. vm_compute. reflexivity. Qed.

Lemma no_objects_no_records_witness :
  fst (fetch_consumption (E := sample_env) None None
         (always (ok_json (VDict []))) resolved) = Ok [].
Proof.
  apply (no_objects_no_records sample_env None None
           (always (ok_json (VDict []))) resolved
           (snd (fetch_consumption_data (E := sample_env) None None
                   (always (ok_json (VDict []))) resolved)) []).
  - vm_compute. reflexivity.
  - left. reflexivity.
Defined.

(** C7. Parsing the usage event
    [{"fields": {"time_of_read": "1700000000000"}, "quantity": "12.5",
      "amount_with_discount": "3.25"}] gives a [ConsumptionRecord] with
    consumption 12.5, cost 3.25 and the time of read at 1700000000000 / 1000
    = 1700000000 seconds since the epoch; [fetch_consumption] returns
    that record for a response whose [objects] holds that event. *)
Theorem usage_event_parses (E : Env) :
  consumption_record sample_usage_event =
    Ok {| time_of_read := fromtimestamp 1700000000%float;
          consumption := 12.5%float;
          cost := 3.25%float |}
  /\
  rbind (int_of_string "1700000000000") (fun ms => int_truediv ms 1000) =
    Ok 1700000000%float
  /\
  fst (fetch_consumption None None
         (always (ok_json (VDict [("objects", VList [sample_usage_event])])))
         resolved) =
    Ok [{| time_of_read := fromtimestamp 1700000000%float;
           consumption := 12.5%float;
           cost := 3.25%float |}].
Proof. repeat split; vm_compute; reflexivity. Qed.

(** C5, on the code. [_get_subscription_data] catches [ValueError] only.
    On a subscription response with an empty [objects] list it raises
    [IndexError], on one with no [objects] key [KeyError], and logs nothing;
    on one whose first object has a balance group but no [id], it raises
    [KeyError] after it has set [_balance_group_id]. *)
Theorem subscription_extraction_raises (E : Env) :
  (let run := _get_subscription_data
                (always (ok_json (VDict [("objects", VList [])]))) grouped in
   fst run = Raise IndexError /\
   _customer_id (self (snd run)) = VNone /\
   _balance_group_id (self (snd run)) = VNone /\
   logged (snd run) = [])
  /\
  (let run := _get_subscription_data (always (ok_json (VDict []))) grouped in
   fst run = Raise KeyError /\ logged (snd run) = [])
  /\
  (let run := _get_subscription_data
                (always (ok_json
                   (VDict [("objects",
                      VList [VDict [("subscriptions",
                        VList [VDict [("balance_group",
                          VDict [("id", VInt 9)])]])]])])))
                grouped in
   fst run = Raise KeyError /\
   _balance_group_id (self (snd run)) = VInt 9 /\
   _customer_id (self (snd run)) = VNone).
Proof. repeat split; vm_compute; reflexivity. Qed.

Section Swallowed.
Context {E : Env}.

(** Step 1 does swallow: once the customer profile is fetched, no
    extraction failure leaves [_get_customer_data]. *)
Lemma customer_extraction_swallowed net w data w1 :
  is_None (_customer_code (self w)) = false ->
  _api_request "GET" (customer_url (_customer_code (self w))) no_kwargs net w
    = (Ok data, w1) ->
  let run := _get_customer_data net w in
  fst run = Ok tt /\
  (_group_id (self (snd run)) = _group_id (self w1) /\
   logged (snd run) = logged w1 ++
     [(ERROR, "Unable to obtain customer group information")]
   \/
   exists group_id,
     rbind (rbind (get data "groups" VNone) (fun g => getindex g 0))
           (fun g => getitem g "id") = Ok group_id /\
     _group_id (self (snd run)) = group_id).
Proof.
  intros Hc Hreq. unfold _get_customer_data. unfold_monad. simpl.
  rewrite Hc. simpl. rewrite Hreq. simpl.
  destruct (get data "groups" VNone) as [groups | e1]; simpl; [| now auto].
  destruct (getindex groups 0) as [group | e2]; simpl; [| now auto].
  destruct (getitem group "id") as [group_id | e3]; simpl; [| now auto].
  split; [reflexivity |]. right. now exists group_id.
Qed.

End Swallowed.

Section Sessions.
Context {E : Env}.

Lemma test_authentication_identity net w :
  same_identity w (snd (async_test_authentication net w)).
Proof.
  unfold async_test_authentication.
  apply (stable_bind same_identity same_identity_trans);
    [apply get_token_identity | intros ?; apply stable_ret; auto].
Qed.

Lemma fetch_resolved_identity start end_ net w :
  is_resolved w -> same_identity w (snd (fetch_consumption start end_ net w)).
Proof.
  intros [Hc Hb].
  assert (H : same_identity w (snd (fetch_consumption_data start end_ net w))).
  { rewrite fetch_data_resolved by assumption. apply api_request_identity. }
  unfold same_identity in *. now rewrite fetch_self.
Qed.

Lemma perform_resolved op net w :
  is_resolved w ->
  same_identity w (perform op net w) /\ is_resolved (perform op net w).
Proof.
  intros Hr.
  assert (H : same_identity w (perform op net w)).
  { destruct op; simpl;
      [apply test_authentication_identity | now apply fetch_resolved_identity]. }
  split; [exact H |].
  destruct Hr as [Hc Hb], H as (_ & _ & Ec & _ & Eb).
  unfold is_resolved. now rewrite Ec, Eb.
Qed.

Lemma session_resolved ops net w :
  is_resolved w -> same_identity w (session ops net w).
Proof.
  revert w. induction ops as [| op ops IH]; intros w Hr; simpl.
  - apply same_identity_refl.
  - destruct (perform_resolved op net w Hr) as [Hs Hr'].
    eapply same_identity_trans; [exact Hs | now apply IH].
Qed.

End Sessions.

(** C6. When a first [fetch_consumption] has left [_customer_id] and
    [_balance_group_id] resolved, a second one on the same session makes no
    customer lookup and no subscription lookup (its calls are requests to
    the usage-events URL of the cached customer id, and authentications),
    and leaves the customer id, the balance-group id and the group id as
    they were; so does every later sequence of operations on the session. *)
Theorem resolved_identifiers_are_cached (E : Env) (net : transport)
    (w0 w1 : world) (start1 end1 start2 end2 : option datetime) :
  w1 = snd (fetch_consumption start1 end1 net w0) ->
  is_None (_customer_id (self w1)) = false ->
  is_None (_balance_group_id (self w1)) = false ->
  let w2 := snd (fetch_consumption start2 end2 net w1) in
  (exists new,
      calls w2 = calls w1 ++ new /\
      Forall (fun c => is_lookup c = false /\
                       (is_post c = true \/
                        url c = usage_events_url (_customer_id (self w1))))
             new) /\
  _customer_id (self w2) = _customer_id (self w1) /\
  _balance_group_id (self w2) = _balance_group_id (self w1) /\
  _group_id (self w2) = _group_id (self w1) /\
  (forall ops,
      let w := session ops net w1 in
      _customer_id (self w) = _customer_id (self w1) /\
      _balance_group_id (self w) = _balance_group_id (self w1) /\
      _group_id (self w) = _group_id (self w1)).
Proof.
  intros _ Hc Hb w2. subst w2.
  assert (Hr : is_resolved w1) by now split.
  split.
  - rewrite fetch_calls, fetch_data_resolved by assumption.
    apply (api_request_within
             (fun c => is_lookup c = false /\
                       (is_post c = true \/
                        url c = usage_events_url (_customer_id (self w1))))).
    + intros c. split; [reflexivity | now left].
    + intros k' _ _. split; [reflexivity | now right].
  - destruct (fetch_resolved_identity start2 end2 net w1 Hr)
      as (_ & _ & Ec & Eg & Eb).
    repeat (split; [assumption |]).
    intros ops w. subst w.
    destruct (session_resolved ops net w1 Hr) as (_ & _ & Ec' & Eg' & Eb').
    now repeat split.
Qed.

(** A server that accepts the credentials and knows one customer, with
    one group and one subscription: the answers to a first
    [fetch_consumption] on a fresh client (authentication, customer profile,
    subscriptions), then usage events for every later call. *)
Lemma resolved_identifiers_are_cached_witness :
  let w1 := snd (fetch_consumption (E := sample_env) None None resolving fresh) in
  let w2 := snd (fetch_consumption (E := sample_env) None None resolving w1) in
  (exists new,
      calls w2 = calls w1 ++ new /\
      Forall (fun c => is_lookup c = false /\
                       (is_post c = true \/
                        url c = usage_events_url (_customer_id (self w1))))
             new) /\
  _customer_id (self w2) = _customer_id (self w1) /\
  _balance_group_id (self w2) = _balance_group_id (self w1) /\
  _group_id (self w2) = _group_id (self w1) /\
  (forall ops,
      let w := session (E := sample_env) ops resolving w1 in
      _customer_id (self w) = _customer_id (self w1) /\
      _balance_group_id (self w) = _balance_group_id (self w1) /\
      _group_id (self w) = _group_id (self w1)).
Proof.
  apply (resolved_identifiers_are_cached sample_env resolving fresh
           (snd (fetch_consumption (E := sample_env) None None resolving fresh))
           None None None None).
  - reflexivity.
  - vm_compute. reflexivity.
  - vm_compute. reflexivity.
Defined.

Example first_fetch_resolves :
  let run := fetch_consumption (E := sample_env) None None resolving fresh in
  List.length (calls (snd run)) = 4%nat /\
  map is_lookup (calls (snd run)) = [false; true; true; false] /\
  _customer_id (self (snd run)) = VInt 42 /\
  _balance_group_id (self (snd run)) = VInt 9 /\
  _group_id (self (snd run)) = VInt 7 /\
  _customer_code (self (snd run)) = VStr "C-1001" /\
  exists record, fst run = Ok [record].
Proof. vm_compute. repeat split; eauto. Qed.

(** ** Authentication *)

Lemma unauthorized_iff (r : response) :
  unauthorized r = true <-> status r = 401 \/ status r = 403.
Proof. unfold unauthorized. rewrite orb_true_iff, !Z.eqb_eq. reflexivity. Qed.

Section TokenFacts.
Context {E : Env}.

Lemma get_token_InvalidAuth net w :
  fst (async_get_token net w) = Raise InvalidAuth ->
  exists resp,
    net (calls w) (auth_request (self w)) = Responds resp /\
    unauthorized resp = true.
Proof.
  unfold async_get_token, _set_customer_code_from_token. unfold_monad.
  unfold raise_for_status, response_json, contains, getitem, get, id.
  cbn -[auth_request unauthorized].
  repeat (case_step; cbn -[auth_request unauthorized] in *; try discriminate);
    eauto.
Qed.

End TokenFacts.

(** C3, amended. [async_get_token] makes exactly one call (no retry). It
    raises [InvalidAuth] exactly when the endpoint answers 401 or 403. It
    raises [CannotConnect] on a network-level failure, on any other status
    of 400 or more, and on a response of status below 400 whose JSON object
    has neither [access_token] nor [token]. *)
Theorem async_get_token_errors (E : Env) (net : transport) (w : world) :
  let answer := net (calls w) (auth_request (self w)) in
  let run := async_get_token net w in
  calls (snd run) = calls w ++ [auth_request (self w)] /\
  (fst run = Raise InvalidAuth <->
   exists resp, answer = Responds resp /\
                (status resp = 401 \/ status resp = 403)) /\
  (answer = Fails -> fst run = Raise CannotConnect) /\
  (forall resp,
      answer = Responds resp -> 400 <= status resp ->
      status resp <> 401 -> status resp <> 403 ->
      fst run = Raise CannotConnect) /\
  (forall resp d,
      answer = Responds resp -> status resp < 400 ->
      content resp = Json (VDict d) ->
      dict_lookup "access_token" d = None -> dict_lookup "token" d = None ->
      fst run = Raise CannotConnect).
Proof.
  intros answer run. subst answer run.
  split; [apply get_token_calls |].
  unfold async_get_token, _set_customer_code_from_token. unfold_monad.
  unfold id. cbn -[auth_request unauthorized].
  destruct (net (calls w) (auth_request (self w))) as [resp |] eqn:Hnet;
    cbn -[auth_request unauthorized].
  2:{ split; [| now repeat split].
      split; [discriminate | intros (? & ? & _); discriminate]. }
  destruct (unauthorized resp) eqn:Hun; cbn -[auth_request unauthorized].
  - apply unauthorized_iff in Hun. split; [split; eauto |].
    split; [discriminate |].
    split.
    + intros ? [= <-] _ ? ?. tauto.
    + intros ? d [= <-] Hlt. lia.
  - assert (Hnot : ~ (status resp = 401 \/ status resp = 403)).
    { rewrite <- unauthorized_iff. congruence. }
    unfold raise_for_status, response_json.
    split; [| split; [discriminate | split]].
    + split; [| intros (? & [= <-] & ?); tauto].
      intros Hinv.
      pose proof (get_token_InvalidAuth net w) as H.
      unfold async_get_token, _set_customer_code_from_token in H.
      unfold_monad. unfold id in H.
      cbn -[auth_request unauthorized] in H. rewrite Hnet in H.
      cbn -[auth_request unauthorized] in H. rewrite Hun in H.
      destruct (H Hinv) as (? & [= <-] & ?). congruence.
    + intros ? [= <-] Hge _ _.
      apply Z.leb_le in Hge. now rewrite Hge.
    + intros ? d [= <-] Hlt Hjson Ha Ht.
      apply Z.leb_gt in Hlt. rewrite Hlt, Hjson. simpl. now rewrite Ha, Ht.
Qed.

(** C3 as it is stated fails on a status that is neither 2xx nor 400 or
    more: the answer 300 with a token in its body is accepted. *)
Lemma non_2xx_token_accepted_counterexample :
  let answer := Responds {| status := 300;
                            content := Json (VDict [("access_token", VStr "T1")]) |} in
  let run := async_get_token (E := sample_env) (always answer) fresh in
  fst run = Ok (VStr "T1") /\
  fst run <> Raise CannotConnect /\
  _access_token (self (snd run)) = VStr "T1".
Proof. vm_compute. repeat split. discriminate. Qed.

Section Attempt.
Context {E : Env}.

Lemma api_request_unfold method u k net w :
  _api_request method u k net w =
  if is_None (_access_token (self w)) then
    match async_get_token net w with
    | (Ok _, w0) => attempt method u k net w0
    | (Raise e, w0) => (Raise e, w0)
    end
  else attempt method u k net w.
Proof.
  unfold _api_request, attempt, bind, attr, ret. simpl.
  destruct (is_None (_access_token (self w))); [| reflexivity].
  now destruct (async_get_token net w) as [[] ?].
Qed.

Lemma attempt_shape method u k net w r w' :
  attempt method u k net w = (r, w') ->
  let a1 := api_call method u (with_headers (_access_token (self w)) k) in
  match net (calls w) a1 with
  | Fails => calls w' = calls w ++ [a1] /\ r = Raise CannotConnect
  | Responds resp =>
      if unauthorized resp then
        exists ra wa,
          async_get_token net
            {| self := self w; calls := calls w ++ [a1];
               logged := logged w ++
                 [(WARNING, "Token expired or invalid, re-authenticating")] |}
          = (ra, wa) /\
          match ra with
          | Raise e =>
              calls w' = calls w ++ [a1; auth_request (self w)] /\
              r = Raise e
          | Ok _ =>
              let a2 :=
                api_call method u
                  (set_authorization (_access_token (self wa))
                     (with_headers (_access_token (self w)) k)) in
              calls w' = calls w ++ [a1; auth_request (self w); a2] /\
              _access_token (self w') = _access_token (self wa) /\
              r = outcome_result
                    (net (calls w ++ [a1; auth_request (self w)]) a2)
          end
      else calls w' = calls w ++ [a1] /\ r = response_result resp
  end.
Proof.
  intros H a1. subst a1. unfold attempt in H. unfold_monad. simpl in H.
  destruct (net (calls w) _) as [resp |]; simpl in H.
  2:{ injection H as <- <-. now split. }
  destruct (unauthorized resp); simpl in H.
  - match type of H with context [async_get_token net ?W] =>
      destruct (get_token_run net W) as (ra & wa & Hrun & Hc & Hne & _)
    end.
    exists ra, wa. split; [exact Hrun |]. rewrite Hrun in H.
    simpl in Hc. rewrite <- app_assoc in Hc. simpl in Hc.
    destruct ra as [tok | e]; simpl in H.
    + rewrite <- Hc.
      destruct (net (calls wa) _) as [resp2 |]; simpl in H.
      * unfold outcome_result, response_result, raise_for_status,
          response_json in *.
        destruct (400 <=? status resp2); simpl in H;
          [| destruct (content resp2); simpl in H];
          injection H as <- <-; simpl; rewrite Hc, <- app_assoc;
          now repeat split.
      * injection H as <- <-. simpl. rewrite Hc, <- app_assoc.
        now repeat split.
    + destruct e; simpl in H; try congruence; injection H as <- <-;
        now split.
  - unfold response_result, raise_for_status, response_json in *.
    destruct (400 <=? status resp); simpl in H;
      [injection H as <- <-; now split |].
    destruct (content resp); simpl in H; injection H as <- <-; now split.
Qed.

End Attempt.

Lemma is_request_iff c : is_request c = true <-> via c = Request.
Proof. unfold is_request. destruct (via c); split; congruence. Qed.

Lemma no_attempts_cons c l :
  request_attempts (c :: l) = 0%nat ->
  is_request c = false /\ request_attempts l = 0%nat.
Proof.
  unfold request_attempts. simpl. destruct (is_request c); simpl;
    [discriminate | now split].
Qed.

(** The first attempt of a run splits its calls in one way only. *)
Lemma first_attempt_unique pre a rest pre' a' rest' :
  pre ++ a :: rest = pre' ++ a' :: rest' ->
  request_attempts pre = 0%nat -> request_attempts pre' = 0%nat ->
  is_request a = true -> is_request a' = true ->
  pre = pre' /\ a = a' /\ rest = rest'.
Proof.
  revert pre'. induction pre as [| b pre IH]; intros [| b' pre'] Heq Hp Hp' Ha Ha';
    simpl in Heq.
  - injection Heq as <- <-. now repeat split.
  - injection Heq as <- _. apply no_attempts_cons in Hp'. destruct Hp'. congruence.
  - injection Heq as <- _. apply no_attempts_cons in Hp. destruct Hp. congruence.
  - injection Heq as <- Heq.
    apply no_attempts_cons in Hp, Hp'. destruct Hp, Hp'.
    destruct (IH pre' Heq) as (-> & -> & ->); auto.
Qed.

(** C1 as it is stated fails on a client that holds a token: the first
    attempt is answered 401, so is the retry, the failure is
    [CannotConnect] and two attempts were made, with one call of
    [async_get_token], not two. *)
Lemma held_token_counterexample :
  let net := scripted [status_only 401; token_response "T2"; status_only 401]
               (status_only 401) in
  let run := _api_request (E := sample_env) "GET"
               (customer_url (VStr "C-1001")) no_kwargs net resolved in
  fst run = Raise CannotConnect /\
  request_attempts (calls (snd run)) = 2%nat /\
  authenticate_calls (calls (snd run)) = 1%nat.
Proof. vm_compute. repeat split. Qed.

Section RetryOnce.
Context {E : Env}.

(** The run of [attempt] when its first call is answered 401 or 403. *)
Lemma attempt_unauthorized method u k net w r w' rest resp :
  attempt method u k net w = (r, w') ->
  let a1 := api_call method u (with_headers (_access_token (self w)) k) in
  calls w' = calls w ++ a1 :: rest ->
  net (calls w) a1 = Responds resp -> unauthorized resp = true ->
  let p := auth_request (self w) in
  (rest = [p] /\ exists e, r = Raise e) \/
  (let a2 := api_call method u
               (set_authorization (_access_token (self w')) (kw a1)) in
   rest = [p; a2] /\
   r = outcome_result (net (calls w ++ [a1; p]) a2)).
Proof.
  intros H a1 Hcalls Hnet Hun p.
  pose proof (attempt_shape method u k net w r w' H) as S.
  cbv zeta in S. fold a1 in S. rewrite Hnet, Hun in S.
  destruct S as (ra & wa & _ & S). destruct ra as [tok | e].
  - cbv zeta in S. destruct S as (Hc & Ht & Hr). right.
    rewrite Hc in Hcalls. apply app_inv_head in Hcalls.
    injection Hcalls as <-. rewrite Ht. now split.
  - destruct S as (Hc & Hr). left.
    rewrite Hc in Hcalls. apply app_inv_head in Hcalls.
    injection Hcalls as <-. split; [reflexivity | now exists e].
Qed.

End RetryOnce.

Lemma outcome_result_not_InvalidAuth o : outcome_result o <> Raise InvalidAuth.
Proof.
  destruct o as [resp |]; simpl; [| discriminate].
  unfold response_result. destruct (400 <=? status resp); [discriminate |].
  destruct (content resp); discriminate.
Qed.

Section Reauth.
Context {E : Env}.

(** The token [async_get_token] returns is the one it has stored. *)
Lemma get_token_stored net w t :
  fst (async_get_token net w) = Ok t ->
  _access_token (self (snd (async_get_token net w))) = t.
Proof.
  unfold async_get_token, _set_customer_code_from_token. unfold_monad.
  unfold raise_for_status, response_json, contains, getitem, get, id.
  cbn -[auth_request unauthorized].
  repeat (case_step; cbn -[auth_request unauthorized] in *;
          try discriminate);
    intros [= <-]; reflexivity.
Qed.

End Reauth.

Section Refused.
Context {E : Env}.

(** [attempt] on a first call that is answered 401 or 403. *)
Lemma attempt_refused method u k net w0 resp :
  let a1 := api_call method u (with_headers (_access_token (self w0)) k) in
  net (calls w0) a1 = Responds resp -> unauthorized resp = true ->
  let p := auth_request (self w0) in
  let run := attempt method u k net w0 in
  match fst (async_get_token net (refused w0 a1)) with
  | Raise e => fst run = Raise e /\ calls (snd run) = calls w0 ++ [a1; p]
  | Ok token =>
      let a2 := api_call method u (set_authorization token (kw a1)) in
      calls (snd run) = calls w0 ++ [a1; p; a2] /\
      _access_token (self (snd run)) = token /\
      fst run = outcome_result (net (calls w0 ++ [a1; p]) a2)
  end.
Proof.
  intros a1 Hnet Hun p run.
  pose proof (attempt_shape method u k net w0 (fst run) (snd run)
                (surjective_pairing _)) as S.
  cbv zeta in S. fold a1 in S. rewrite Hnet, Hun in S.
  destruct S as (ra & wa & Hre & S).
  change (async_get_token net (refused w0 a1) = (ra, wa)) in Hre.
  pose proof (get_token_stored net (refused w0 a1)) as Hst.
  rewrite Hre in *. cbn [fst snd] in *.
  destruct ra as [token | e].
  - cbv zeta in S. destruct S as (Hc & Ht & Hr).
    rewrite (Hst token eq_refl) in *. now repeat split.
  - destruct S as (Hc & Hr). now split.
Qed.

End Refused.

(** C1, amended. Take a request the session sends (its query values are
    strings and integers) on a client that holds a token or has just
    obtained one. When the first attempt of [_api_request] is answered 401
    or 403, [async_get_token] is called once more: in total twice when no
    token was held at entry and once when one was. If that call raises, its
    exception leaves [_api_request] and there is no retry: one attempt was
    made. If it returns, the same request (method, URL, query and body),
    with the new token in its [Authorization] header, is attempted exactly
    once more: two attempts were made, and the result is that of the retry,
    which is [CannotConnect] when the retry fails at the network level or
    is answered 400 or more (401 and 403 included) and never
    [InvalidAuth]. *)
Theorem api_request_retries_once (E : Env) (net : transport) (w : world)
    (method : string) (u : fstring) (k : kwargs) (resp : response) :
  sendable k ->
  let no_token := is_None (_access_token (self w)) in
  (no_token = true -> exists t, fst (async_get_token net w) = Ok t) ->
  let p := auth_request (self w) in
  let before := if no_token then [p] else [] in
  let w0 := if no_token then snd (async_get_token net w) else w in
  let a1 := api_call method u (with_headers (_access_token (self w0)) k) in
  net (calls w ++ before) a1 = Responds resp ->
  unauthorized resp = true ->
  let reauth := async_get_token net (refused w0 a1) in
  let run := _api_request method u k net w in
  match fst reauth with
  | Raise e =>
      fst run = Raise e /\
      calls (snd run) = calls w ++ before ++ [a1; p]
  | Ok token =>
      let a2 := api_call method u (set_authorization token (kw a1)) in
      let answer := net (calls w ++ before ++ [a1; p]) a2 in
      calls (snd run) = calls w ++ before ++ [a1; p; a2] /\
      _access_token (self (snd run)) = token /\
      fst run = outcome_result answer /\
      fst run <> Raise InvalidAuth /\
      (answer = Fails -> fst run = Raise CannotConnect) /\
      (forall resp2,
          answer = Responds resp2 -> 400 <= status resp2 ->
          fst run = Raise CannotConnect)
  end /\
  exists new,
    calls (snd run) = calls w ++ new /\
    authenticate_calls new = (if no_token then 2 else 1)%nat /\
    request_attempts new =
      match fst reauth with Ok _ => 2%nat | Raise _ => 1%nat end.
Proof.
  intros _ no_token Hinit p before w0 a1 Hnet Hun reauth run.
  assert (Hw0 : calls w0 = calls w ++ before /\
                auth_request (self w0) = p /\
                run = attempt method u k net w0).
  { subst run w0 before. rewrite api_request_unfold. fold no_token.
    destruct no_token.
    - destruct (Hinit eq_refl) as [t Ht].
      destruct (get_token_run net w) as (r0 & wa & Hr0 & Hc0 & _ & Hid).
      rewrite Hr0 in *. cbn [fst snd] in *. subst r0.
      split; [exact Hc0 |]. split; [| reflexivity].
      destruct Hid as (Hu & Hp & _). unfold p, auth_request.
      now rewrite Hu, Hp.
    - rewrite app_nil_r. now repeat split. }
  destruct Hw0 as (Hc0 & Hp0 & Hrun).
  rewrite <- Hc0 in Hnet.
  pose proof (attempt_refused method u k net w0 resp Hnet Hun) as S.
  cbv zeta in S. fold a1 in S. rewrite Hp0, <- Hrun in S.
  fold reauth in S.
  destruct (fst reauth) as [token | e].
  - cbv zeta in S. destruct S as (Hc & Ht & Hr).
    rewrite Hc0, <- !app_assoc in Hc, Hr.
    split.
    + repeat (split; [assumption |]).
      split; [rewrite Hr; apply outcome_result_not_InvalidAuth |].
      split.
      * intros Hf. now rewrite Hr, Hf.
      * intros resp2 Hr2 Hge. rewrite Hr, Hr2. simpl.
        unfold response_result. apply Z.leb_le in Hge. now rewrite Hge.
    + eexists. split; [exact Hc |]. subst before.
      now destruct no_token.
  - destruct S as (Hr & Hc). rewrite Hc0, <- !app_assoc in Hc.
    split; [now split |].
    eexists. split; [exact Hc |]. subst before.
    now destruct no_token.
Qed.

Lemma api_request_retries_once_witness :
  let u := customer_url (VStr "C-1001") in
  let run := _api_request (E := sample_env) "GET" u no_kwargs rejecting fresh in
  let p := auth_request (E := sample_env) (self fresh) in
  let a1 := api_call "GET" u (with_headers (VStr "T1") no_kwargs) in
  let a2 := api_call "GET" u (set_authorization (VStr "T2") (kw a1)) in
  (calls (snd run) = [p; a1; p; a2] /\
   _access_token (self (snd run)) = VStr "T2" /\
   fst run = Raise CannotConnect /\
   fst run <> Raise InvalidAuth) /\
  exists new,
    calls (snd run) = new /\
    authenticate_calls new = 2%nat /\
    request_attempts new = 2%nat.
Proof.
  intros u run p a1 a2.
  destruct (api_request_retries_once sample_env rejecting fresh "GET" u
              no_kwargs {| status := 401; content := NotJson |})
    as [(Hc & Ht & Hr & Hne & _) Hn].
  - exact I.
  - intros _. now exists (VStr "T1").
  - reflexivity.
  - reflexivity.
  - split; [| exact Hn]. repeat split; assumption.
Defined.

(** The two scenarios of the specification on a fresh client: two attempts
    and two authentications, a [CannotConnect] when the retry is answered
    401 too, the body when it is answered 200. *)
Example double_unauthorized :
  let run := _api_request (E := sample_env) "GET"
               (customer_url (VStr "C-1001")) no_kwargs rejecting fresh in
  fst run = Raise CannotConnect /\
  request_attempts (calls (snd run)) = 2%nat /\
  authenticate_calls (calls (snd run)) = 2%nat /\
  _access_token (self (snd run)) = VStr "T2".
Proof. vm_compute. repeat split. Qed.

Example unauthorized_then_ok :
  let run := _api_request (E := sample_env) "GET"
               (customer_url (VStr "C-1001")) no_kwargs expiring fresh in
  fst run = Ok (VDict [("groups", VList [])]) /\
  request_attempts (calls (snd run)) = 2%nat /\
  authenticate_calls (calls (snd run)) = 2%nat.
Proof. vm_compute. repeat split. Qed.

(** A rejected re-authentication leaves [_api_request] as [InvalidAuth],
    with no retry. *)
Example reauthentication_rejected :
  let net := scripted [status_only 401] (status_only 403) in
  let run := _api_request (E := sample_env) "GET"
               (customer_url (VStr "C-1001")) no_kwargs net resolved in
  fst run = Raise InvalidAuth /\
  request_attempts (calls (snd run)) = 1%nat /\
  authenticate_calls (calls (snd run)) = 1%nat.
Proof. vm_compute. repeat split. Qed.

(* ================================================================== *)
(** * The aggregation over batches and days *)
(* ================================================================== *)

Section GroupByMore.
Context {A K : Type} (key : A -> K) (eqb : K -> K -> bool).
Hypothesis eqb_eq : forall a b, eqb a b = true <-> a = b.

Lemma eqb_neq a b : eqb a b = false <-> a <> b.
Proof. rewrite <- eqb_eq. destruct (eqb a b); intuition congruence. Qed.

(** One group more than there are changes of key between neighbours. *)
Lemma groupby_from_length l p k g :
  key p = k ->
  List.length (groupby_from key eqb k g l) =
  S (List.length (filter (fun q => negb (eqb (key (snd q)) (key (fst q))))
                         (combine (p :: l) l))).
Proof.
  revert p k g. induction l as [|x l IH]; intros p k g Hp; [reflexivity |].
  cbn [groupby_from combine filter fst snd]. rewrite Hp.
  destruct (eqb (key x) k) eqn:E; cbn [negb List.length].
  - apply eqb_eq in E. now apply IH.
  - f_equal. now apply IH.
Qed.

(** A change of key between two neighbours closes a group there. *)
Lemma groupby_from_app l1 p k g y l2 :
  key p = k -> key (last l1 p) <> key y ->
  groupby_from key eqb k g (l1 ++ y :: l2) =
  groupby_from key eqb k g l1 ++ groupby_from key eqb (key y) [y] l2.
Proof.
  revert p k g. induction l1 as [|x l1 IH]; intros p k g Hp Hne.
  - simpl in *. assert (E : eqb (key y) k = false).
    { apply eqb_neq. congruence. }
    now rewrite E.
  - rewrite last_cons in Hne. cbn [app groupby_from].
    destruct (eqb (key x) k) eqn:E.
    + apply eqb_eq in E. now apply (IH x).
    + cbn [app]. f_equal. now apply (IH x).
Qed.

Lemma groupby_app l1 a b l2 :
  key a <> key b ->
  groupby key eqb ((l1 ++ [a]) ++ b :: l2) =
  groupby key eqb (l1 ++ [a]) ++ groupby key eqb (b :: l2).
Proof.
  intros Hne. destruct l1 as [|x l1]; cbn [app groupby].
  - apply (groupby_from_app [] a); [reflexivity | exact Hne].
  - apply (groupby_from_app (l1 ++ [a]) x); [reflexivity |].
    now rewrite last_last.
Qed.

(** A suffix of a contiguous list is contiguous. *)
Lemma contiguous_tail l0 l : contiguous key (l0 ++ l) -> contiguous key l.
Proof.
  intros H l1 x l2 y l3 -> Hxy. apply (H (l0 ++ l1) x l2 y l3); [| exact Hxy].
  now rewrite <- app_assoc.
Qed.

(** On a contiguous list every key has one group. *)
Lemma runs_NoDup (gs : list (K * list A)) :
  Forall (run_of key) gs -> adjacent_differ (map fst gs) ->
  contiguous key (List.concat (map snd gs)) ->
  NoDup (map fst gs).
Proof.
  induction gs as [|[k g] gs IH]; intros Hruns Hadj Hcont; [constructor |].
  inversion Hruns as [| ? ? [Hne Hk] Hruns']; subst. simpl in *.
  constructor.
  - intros Hin. apply in_map_iff in Hin. destruct Hin as ([k2 g2] & Hk2 & Hin).
    simpl in Hk2. subst k2.
    destruct gs as [|[k1 g1] gs']; [destruct Hin |].
    simpl in Hadj. destruct Hadj as [Hdiff _].
    inversion Hruns' as [| ? ? [Hne1 Hk1] Hruns'']; subst. simpl in *.
    destruct Hin as [Heq | Hin]; [congruence |].
    apply in_split in Hin. destruct Hin as (ga & gb & ->).
    rewrite Forall_app in Hruns''. destruct Hruns'' as [_ Hr2].
    inversion Hr2 as [| ? ? [Hne2 Hk2] _]; subst. simpl in *.
    destruct g as [|x gx]; [congruence |].
    destruct g1 as [|z gz]; [congruence |].
    destruct g2 as [|y gy]; [congruence |].
    apply Hdiff. rewrite <- (Hk x) by now left.
    rewrite <- (Hk1 z) by now left. symmetry.
    apply (Hcont [] x (gx ++ (z :: gz) ++ List.concat (map snd ga)) y
             (gy ++ List.concat (map snd gb))).
    + rewrite map_app, concat_app. simpl. rewrite <- !app_assoc. simpl.
      rewrite <- !app_assoc. reflexivity.
    + rewrite (Hk x), (Hk2 y) by now left. reflexivity.
    + apply in_or_app. right. apply in_or_app. left. now left.
  - apply IH; [assumption | now destruct gs as [|[] ?]; [exact I | destruct Hadj] |].
    now apply (contiguous_tail g).
Qed.

(** When the keys of the groups are distinct, a group holds all the items
    of its key. *)
Lemma runs_filter (gs : list (K * list A)) k g :
  Forall (run_of key) gs -> NoDup (map fst gs) -> In (k, g) gs ->
  filter (fun x => eqb (key x) k) (List.concat (map snd gs)) = g.
Proof.
  induction gs as [|[k1 g1] gs IH]; intros Hruns Hnd Hin; [destruct Hin |].
  inversion Hruns as [| ? ? [Hne Hk] Hruns']; subst.
  inversion Hnd as [| ? ? Hnotin Hnd']; subst. simpl in *.
  rewrite filter_app. destruct Hin as [[= -> ->] | Hin].
  - assert (H1 : filter (fun x => eqb (key x) k) g = g).
    { clear -Hk eqb_eq. induction g as [|x g IHg]; [reflexivity |]. simpl.
      assert (E : eqb (key x) k = true) by (apply eqb_eq, Hk; now left).
      rewrite E, IHg; [reflexivity |]. intros y Hy. apply Hk. now right. }
    assert (H2 : filter (fun x => eqb (key x) k) (List.concat (map snd gs)) = []).
    { clear -Hruns' Hnotin eqb_eq.
      induction gs as [|[k2 g2] gs IHgs]; [reflexivity |].
      inversion Hruns' as [| ? ? [_ Hk2] Hr]; subst. simpl in *.
      rewrite filter_app, IHgs, app_nil_r by tauto.
      assert (Hne : k2 <> k) by tauto.
      clear -Hk2 Hne eqb_eq. induction g2 as [|x g2 IHg]; [reflexivity |].
      simpl. assert (E : eqb (key x) k = false).
      { apply eqb_neq. rewrite (Hk2 x) by now left. exact Hne. }
      rewrite E. apply IHg. intros y Hy. apply Hk2. now right. }
    now rewrite H1, H2, app_nil_r.
  - rewrite (IH Hruns' Hnd' Hin).
    assert (Hne1 : k1 <> k).
    { intros ->. apply Hnotin. apply in_map_iff. now exists (k, g). }
    assert (H1 : filter (fun x => eqb (key x) k) g1 = []).
    { clear -Hk Hne1 eqb_eq. induction g1 as [|x g1 IHg]; [reflexivity |].
      simpl. assert (E : eqb (key x) k = false).
      { apply eqb_neq. rewrite (Hk x) by now left. exact Hne1. }
      rewrite E. apply IHg. intros y Hy. apply Hk. now right. }
    now rewrite H1.
Qed.

End GroupByMore.

Section AccumulateMore.
Context {num : Type} {N : Number num}.
Implicit Types (groups : list (datetime * list (HistoricalState num))).

Lemma accumulate_length acc groups :
  List.length (accumulate acc groups) = List.length groups.
Proof.
  revert acc. induction groups as [|[d c] groups IH]; intros acc; simpl;
    [reflexivity | now rewrite IH].
Qed.

(** The loop over [g1 ++ g2] is the loop over [g1], then the loop over
    [g2] from the value [accumulated] has after [g1]. *)
Lemma accumulate_app acc g1 g2 :
  accumulate acc (g1 ++ g2) =
  accumulate acc g1 ++
  accumulate (last (map sd_sum (accumulate acc g1)) acc) g2.
Proof.
  revert acc. induction g1 as [|[d c] g1 IH]; intros acc; [reflexivity |].
  cbn [app accumulate map]. rewrite IH, last_cons. reflexivity.
Qed.

(** An entry of the loop's result comes from a group. *)
Lemma accumulate_In acc groups e :
  In e (accumulate acc groups) ->
  exists g, In g groups /\ sd_start e = fst g /\ sd_state e = run_total g.
Proof.
  revert acc. induction groups as [|[d c] groups IH]; intros acc; simpl;
    [intros [] |].
  intros [<- | Hin].
  - exists (d, c). now repeat split; [left |..].
  - destruct (IH _ Hin) as (g & Hg & Hs). exists g. split; [now right | exact Hs].
Qed.

Lemma initial_sum_of_result hist latest out :
  async_calculate_statistic_data hist latest = Ok out ->
  exists S, initial_sum latest = Ok S /\
            out = accumulate S (groupby day_block_for_hist_state datetime_eqb hist).
Proof.
  unfold async_calculate_statistic_data.
  destruct (initial_sum latest) as [S | e]; simpl; [| discriminate].
  intros [= <-]. now exists S.
Qed.

End AccumulateMore.

(** X1. Importing readings in two batches gives the same statistics as
    importing them at once, provided the batches are cut between two days
    and the second batch is seeded with the last cumulative sum of the
    first. *)
Theorem batches_compose (num : Type) (N : Number num)
    (l1 l2 : list (HistoricalState num)) (a b : HistoricalState num)
    (latest : option (list (string * num)))
    (out : list (StatisticData num)) (e : StatisticData num) :
  async_calculate_statistic_data (l1 ++ [a]) latest = Ok (out ++ [e]) ->
  day_block_for_hist_state a <> day_block_for_hist_state b ->
  exists out2,
    async_calculate_statistic_data (b :: l2) (Some [("sum", sd_sum e)]) = Ok out2 /\
    async_calculate_statistic_data ((l1 ++ [a]) ++ b :: l2) latest =
      Ok ((out ++ [e]) ++ out2).
Proof.
  intros H1 Hne.
  destruct (initial_sum_of_result _ _ _ H1) as (S & HS & Hout).
  eexists. split; [reflexivity |].
  rewrite (calculate_seeded _ _ _ HS).
  rewrite (groupby_app _ _ datetime_eqb_eq) by exact Hne.
  rewrite accumulate_app, <- Hout, map_app. cbn [map].
  rewrite last_last. reflexivity.
Qed.

Lemma batches_compose_witness :
  let a := reading (at_time 2024 3 1 20) 1.5%float in
  let b := reading (at_time 2024 3 2 8) 3%float in
  let l1 := [reading (at_time 2024 3 1 8) 5%float] in
  let l2 := [reading (at_time 2024 3 3 8) 0.25%float] in
  exists out2,
    async_calculate_statistic_data (b :: l2) (Some [("sum", 106.5%float)]) = Ok out2 /\
    async_calculate_statistic_data ((l1 ++ [a]) ++ b :: l2)
      (Some [("sum", 100%float)]) =
      Ok (([] ++ [entry (at_time 2024 3 1 0) 6.5%float 106.5%float]) ++ out2).
Proof.
  intros a b l1 l2.
  apply (batches_compose float float_Number l1 l2 a b
           (Some [("sum", 100%float)]) []
           (entry (at_time 2024 3 1 0) 6.5%float 106.5%float)).
  - vm_compute. reflexivity.
  - discriminate.
Defined.

(** A cut inside a day is visible: the day gets two entries. *)
Example batch_cut_inside_a_day :
  let a := reading (at_time 2024 3 1 8) 5%float in
  let b := reading (at_time 2024 3 1 20) 1.5%float in
  async_calculate_statistic_data [a; b] None =
    Ok [entry (at_time 2024 3 1 0) 6.5%float 6.5%float] /\
  async_calculate_statistic_data [a] None =
    Ok [entry (at_time 2024 3 1 0) 5%float 5%float] /\
  async_calculate_statistic_data [b] (Some [("sum", 5%float)]) =
    Ok [entry (at_time 2024 3 1 0) 1.5%float 6.5%float].
Proof. vm_compute. repeat split. Qed.

(** X2. The aggregation returns one entry more than there are readings
    dated another day than the reading before them, and none for no
    reading; there are never more entries than readings, and every entry
    starts at the midnight of the day of one of the readings. *)
Theorem entries_count (num : Type) (N : Number num)
    (hist_states : list (HistoricalState num))
    (latest : option (list (string * num))) (out : list (StatisticData num)) :
  async_calculate_statistic_data hist_states latest = Ok out ->
  List.length out =
    match hist_states with
    | [] => 0%nat
    | _ :: _ => Datatypes.S (day_changes hist_states)
    end /\
  (List.length out <= List.length hist_states)%nat /\
  Forall (fun e => exists x, In x hist_states /\
                    sd_start e = replace (dt x) 0 0 0 0) out.
Proof.
  intros H. destruct (initial_sum_of_result _ _ _ H) as (S & _ & ->).
  rewrite accumulate_length.
  assert (Hlen : List.length (groupby day_block_for_hist_state datetime_eqb
                               hist_states) =
                 match hist_states with
                 | [] => 0%nat
                 | _ :: _ => Datatypes.S (day_changes hist_states)
                 end).
  { destruct hist_states as [|x l]; [reflexivity |].
    apply (groupby_from_length _ _ datetime_eqb_eq l x); reflexivity. }
  split; [exact Hlen |]. split.
  - rewrite Hlen. destruct hist_states as [|x l]; [apply le_n |].
    unfold day_changes, neighbours. cbn [tl List.length].
    pose proof (filter_length_le
      (fun p => negb (datetime_eqb (day_block_for_hist_state (snd p))
                                   (day_block_for_hist_state (fst p))))
      (combine (x :: l) l)) as Hf.
    rewrite length_combine in Hf. cbn [List.length] in Hf. lia.
  - apply Forall_forall. intros e He.
    destruct (accumulate_In _ _ _ He) as ([d g] & Hg & Hs & _). simpl in Hs.
    pose proof (groupby_runs day_block_for_hist_state _ datetime_eqb_eq
                  hist_states) as Hruns.
    rewrite Forall_forall in Hruns. destruct (Hruns _ Hg) as [Hne Hk].
    simpl in *. destruct g as [|x g]; [congruence |].
    exists x. split.
    + rewrite <- (groupby_concat day_block_for_hist_state datetime_eqb hist_states).
      apply in_concat. exists (x :: g). split; [| now left].
      apply in_map_iff. now exists (d, x :: g).
    + rewrite Hs. symmetry. apply (Hk x). now left.
Qed.

Lemma entries_count_witness :
  let hist_states := [reading (at_time 2024 3 1 8) 5%float;
                      reading (at_time 2024 3 1 20) 1.5%float;
                      reading (at_time 2024 3 2 8) 3%float] in
  let out := [entry (at_time 2024 3 1 0) 6.5%float 6.5%float;
              entry (at_time 2024 3 2 0) 3%float 9.5%float] in
  List.length out = 2%nat /\
  (List.length out <= List.length hist_states)%nat /\
  Forall (fun e => exists x, In x hist_states /\
                    sd_start e = replace (dt x) 0 0 0 0) out.
Proof.
  intros hist_states out.
  apply (entries_count float float_Number hist_states None out).
  vm_compute. reflexivity.
Defined.

(** X3. When the readings of each day are next to one another (as in a
    chronological list), the aggregation is a true grouping by day: the
    entries are of distinct days, every day of a reading has its entry,
    and the period total of an entry is the sum of all the readings of its
    day, in their order. *)
Theorem contiguous_days_group (num : Type) (N : Number num)
    (hist_states : list (HistoricalState num))
    (latest : option (list (string * num))) (out : list (StatisticData num)) :
  async_calculate_statistic_data hist_states latest = Ok out ->
  contiguous day_block_for_hist_state hist_states ->
  NoDup (map sd_start out) /\
  (forall x, In x hist_states ->
             In (day_block_for_hist_state x) (map sd_start out)) /\
  Forall (fun e => sd_state e =
                   py_sum (map state (readings_of (sd_start e) hist_states)))
         out.
Proof.
  intros H Hcont. destruct (initial_sum_of_result _ _ _ H) as (S & _ & ->).
  set (groups := groupby day_block_for_hist_state datetime_eqb hist_states).
  pose proof (groupby_runs day_block_for_hist_state _ datetime_eqb_eq
                hist_states) as Hruns.
  pose proof (groupby_adjacent day_block_for_hist_state _ datetime_eqb_eq
                hist_states) as Hadj.
  pose proof (groupby_concat day_block_for_hist_state datetime_eqb hist_states)
    as Hcat.
  fold groups in Hruns, Hadj, Hcat.
  assert (Hnd : NoDup (map fst groups)).
  { apply (runs_NoDup day_block_for_hist_state); try assumption.
    now rewrite Hcat. }
  rewrite accumulate_start. split; [exact Hnd |]. split.
  - intros x Hx. rewrite <- Hcat in Hx. apply in_concat in Hx.
    destruct Hx as (g & Hg & Hxg). apply in_map_iff in Hg.
    destruct Hg as ([d g'] & <- & Hin). simpl in Hxg.
    rewrite Forall_forall in Hruns. destruct (Hruns _ Hin) as [_ Hk].
    rewrite (Hk x Hxg). apply in_map_iff. now exists (d, g').
  - apply Forall_forall. intros e He.
    destruct (accumulate_In _ _ _ He) as ([d g] & Hg & Hs & Ht).
    simpl in Hs. rewrite Ht, Hs. unfold run_total, readings_of. simpl.
    rewrite <- Hcat at 1.
    now rewrite (runs_filter day_block_for_hist_state datetime_eqb
                   datetime_eqb_eq groups d g Hruns Hnd Hg).
Qed.

Lemma contiguous_days_group_witness :
  let hist_states := [reading (at_time 2024 3 2 8) 3%float;
                      reading (at_time 2024 3 1 8) 5%float;
                      reading (at_time 2024 3 1 20) 1.5%float] in
  let out := [entry (at_time 2024 3 2 0) 3%float 3%float;
              entry (at_time 2024 3 1 0) 6.5%float 9.5%float] in
  NoDup (map sd_start out) /\
  (forall x, In x hist_states ->
             In (day_block_for_hist_state x) (map sd_start out)) /\
  Forall (fun e => sd_state e =
                   py_sum (map state (readings_of (sd_start e) hist_states)))
         out.
Proof.
  intros hist_states out.
  apply (contiguous_days_group float float_Number hist_states None out).
  - vm_compute. reflexivity.
  - intros l1 x l2 y l3 Heq Hxy z Hz. unfold hist_states in Heq.
    repeat match goal with
           | H : _ :: _ = _ :: _ |- _ => injection H as ? H; subst
           | H : [] = _ :: _ |- _ => discriminate H
           | H : [] = ?l ++ _ :: _ |- _ => destruct l; discriminate H
           | H : _ = ?l ++ _ :: _ |- _ => destruct l; simpl in H
           | H : In _ [] |- _ => destruct H
           | H : datetime_eqb _ _ = true |- _ => discriminate H
           end;
    try discriminate Hxy.
Defined.

Section RecorderFacts.
Context {num : Type} {N : Number num}.

Lemma dict_lookup_of_numbers k (d : list (string * num)) :
  dict_lookup k (Recorder.of_numbers d) = option_map Some (dict_lookup k d).
Proof.
  induction d as [|[k' v] d IH]; simpl; [reflexivity |].
  now destruct (String.eqb k k').
Qed.

Lemma recorder_cases hist_states (latest : option (@Recorder.row num)) :
  Recorder.async_calculate_statistic_data hist_states latest =
  match Recorder.initial_sum latest with
  | Raise e => Raise e
  | Ok (Some seed) =>
      Ok (accumulate seed
            (groupby day_block_for_hist_state datetime_eqb hist_states))
  | Ok None =>
      match hist_states with
      | [] => Ok []
      | _ :: _ => Raise TypeError
      end
  end.
Proof.
  unfold Recorder.async_calculate_statistic_data.
  destruct (Recorder.initial_sum latest) as [[S |] | e]; simpl;
    [| | reflexivity].
  - now destruct (groupby day_block_for_hist_state datetime_eqb hist_states)
      as [|[d c] rest].
  - destruct hist_states as [|x l]; [reflexivity |].
    pose proof (groupby_runs day_block_for_hist_state datetime_eqb
                  datetime_eqb_eq (x :: l)) as Hr.
    pose proof (groupby_concat day_block_for_hist_state datetime_eqb
                  (x :: l)) as Hc.
    destruct (groupby day_block_for_hist_state datetime_eqb (x :: l))
      as [|[d c] rest]; [discriminate Hc | reflexivity].
Qed.

Lemma initial_sum_of_numbers (latest : option (list (string * num))) :
  Recorder.initial_sum (option_map Recorder.of_numbers latest) =
  match Sensor.initial_sum latest with
  | Ok seed => Ok (Some seed)
  | Raise e => Raise e
  end.
Proof.
  destruct latest as [[|[k v] d] |]; try reflexivity.
  change (Recorder.initial_sum
            (option_map Recorder.of_numbers (Some ((k, v) :: d))))
    with (match dict_lookup "sum" (Recorder.of_numbers ((k, v) :: d)) with
          | Some s => Ok s
          | None => Raise KeyError
          end).
  change (Sensor.initial_sum (Some ((k, v) :: d)))
    with (match dict_lookup "sum" ((k, v) :: d) with
          | Some s => Ok s
          | None => Raise KeyError
          end).
  rewrite dict_lookup_of_numbers.
  now destruct (dict_lookup "sum" ((k, v) :: d)).
Qed.

(** On rows of numbers the aggregation is the one of [Sensor]. *)
Lemma recorder_numbers hist_states (latest : option (list (string * num))) :
  Recorder.async_calculate_statistic_data hist_states
    (option_map Recorder.of_numbers latest) =
  Sensor.async_calculate_statistic_data hist_states latest.
Proof.
  rewrite recorder_cases, initial_sum_of_numbers.
  unfold Sensor.async_calculate_statistic_data.
  now destruct (Sensor.initial_sum latest).
Qed.

Lemma recorder_initial_sum (latest : option (@Recorder.row num)) :
  match Recorder.initial_sum latest with
  | Raise e =>
      e = KeyError /\
      exists d, latest = Some d /\ d <> [] /\ dict_lookup "sum" d = None
  | Ok None => exists d, latest = Some d /\ dict_lookup "sum" d = Some None
  | Ok (Some seed) =>
      latest = None \/ latest = Some [] \/
      exists d, latest = Some d /\ dict_lookup "sum" d = Some (Some seed)
  end.
Proof.
  destruct latest as [[|kv d] |]; [right; now left | | now left].
  change (Recorder.initial_sum (Some (kv :: d)))
    with (match dict_lookup "sum" (kv :: d) with
          | Some s => Ok s
          | None => @Raise (option num) KeyError
          end).
  destruct (dict_lookup "sum" (kv :: d)) as [[seed |] |] eqn:Hl.
  - right. right. now exists (kv :: d).
  - now exists (kv :: d).
  - split; [reflexivity |]. exists (kv :: d). now repeat split.
Qed.

End RecorderFacts.

(** X4. What [latest] holds decides how the aggregation fails. It raises
    [KeyError] exactly when [latest] is a non-empty dict without a [sum]
    key, whatever the readings (even none). It raises [TypeError] exactly
    when the [sum] of [latest] is [None] and there is a reading (the first
    addition fails); with no reading it returns the empty list. Otherwise
    it returns: an empty dict counts as no prior total, the days and the
    period totals of the result do not depend on [latest], and on a row
    whose values are numbers it is the aggregation of [Sensor]. *)
Theorem latest_decides_failure (num : Type) (N : Number num)
    (hist_states : list (HistoricalState num)) :
  let run := Recorder.async_calculate_statistic_data hist_states in
  (forall latest,
      run latest = Raise KeyError <->
      exists d, latest = Some d /\ d <> [] /\ dict_lookup "sum" d = None) /\
  (forall latest,
      run latest = Raise TypeError <->
      hist_states <> [] /\
      exists d, latest = Some d /\ dict_lookup "sum" d = Some None) /\
  (forall latest,
      (exists out, run latest = Ok out) \/
      run latest = Raise KeyError \/ run latest = Raise TypeError) /\
  (forall d,
      dict_lookup "sum" d = Some None -> hist_states = [] ->
      run (Some d) = Ok []) /\
  run (Some []) = run None /\
  (forall latest1 latest2 out1 out2,
      run latest1 = Ok out1 -> run latest2 = Ok out2 ->
      map sd_start out1 = map sd_start out2 /\
      map sd_state out1 = map sd_state out2) /\
  (forall latest,
      run (option_map Recorder.of_numbers latest) =
      Sensor.async_calculate_statistic_data hist_states latest).
Proof.
  cbv zeta.
  assert (Hcases := recorder_cases hist_states).
  assert (Hinit := @recorder_initial_sum num N).
  split; [| split; [| split; [| split; [| split; [| split]]]]].
  - intros latest. rewrite Hcases. specialize (Hinit latest).
    destruct (Recorder.initial_sum latest) as [[S |] | e] eqn:HS.
    + split; [discriminate |]. intros (d & -> & Hne & Hl).
      destruct Hinit as [H | [H | (d' & [= <-] & H)]]; congruence.
    + split; [now destruct hist_states |]. intros (d & -> & Hne & Hl).
      destruct Hinit as (d' & [= <-] & H). congruence.
    + destruct Hinit as (-> & H). now split.
  - intros latest. rewrite Hcases. specialize (Hinit latest).
    destruct (Recorder.initial_sum latest) as [[S |] | e] eqn:HS.
    + split; [discriminate |]. intros (_ & d & -> & Hl).
      destruct Hinit as [H | [H | (d' & [= <-] & H)]]; try congruence.
      injection H as ->. simpl in Hl. discriminate.
    + destruct hist_states as [|x l].
      * split; [discriminate | intros [H _]; congruence].
      * split; [| reflexivity]. intros _. split; [discriminate | exact Hinit].
    + destruct Hinit as (-> & d & -> & Hne & Hl).
      split; [discriminate |]. intros (_ & d' & [= <-] & Hl'). congruence.
  - intros latest. rewrite Hcases. specialize (Hinit latest).
    destruct (Recorder.initial_sum latest) as [[S |] | e].
    + left. eauto.
    + destruct hist_states; [left; eauto | right; now right].
    + destruct Hinit as (-> & _). right. now left.
  - intros d Hl ->. rewrite Hcases.
    destruct d as [|kv d]; [discriminate Hl |].
    unfold Recorder.initial_sum. now rewrite Hl.
  - reflexivity.
  - intros latest1 latest2 out1 out2. rewrite !Hcases.
    destruct (Recorder.initial_sum latest1) as [[S1 |] | e1];
      destruct (Recorder.initial_sum latest2) as [[S2 |] | e2];
      try discriminate.
    + intros [= <-] [= <-]. now rewrite !accumulate_start, !accumulate_state.
    + destruct hist_states; [| discriminate]. now intros [= <-] [= <-].
    + destruct hist_states; [| discriminate]. now intros [= <-] [= <-].
    + destruct hist_states; [| discriminate]. now intros [= <-] [= <-].
  - apply recorder_numbers.
Qed.

(** The recorder's row with no sum yet, and one reading. *)
Example sum_is_None :
  let latest := Some [("start", None); ("sum", None)] in
  Recorder.async_calculate_statistic_data
    [reading (at_time 2024 3 1 8) 5%float] latest = Raise TypeError /\
  Recorder.async_calculate_statistic_data (num := float) [] latest = Ok [].
Proof. split; reflexivity. Qed.

(* ================================================================== *)
(** * The API client: tokens, exceptions, calls *)
(* ================================================================== *)

Lemma unauthorized_below_400 (r : response) :
  status r < 400 -> unauthorized r = false.
Proof.
  intros H. unfold unauthorized.
  destruct (Z.eqb_spec (status r) 401); [lia |].
  destruct (Z.eqb_spec (status r) 403); [lia | reflexivity].
Qed.

Section TokenRuns.
Context {E : Env}.

(** The run of [async_get_token] on a response that carries a token. *)
Lemma get_token_found net w resp d t :
  net (calls w) (auth_request (self w)) = Responds resp ->
  status resp < 400 ->
  content resp = Json (VDict d) ->
  token_of d = Some t ->
  async_get_token net w =
  let w1 := {| self := set_access_token t (self w);
               calls := calls w ++ [auth_request (self w)];
               logged := logged w ++
                 [(DEBUG, "Attempting to authenticate user %s")] |} in
  match jwt_decode t with
  | Some payload =>
      (Ok t, {| self := set_customer_code (customer_code_of payload) (self w1);
                calls := calls w1; logged := logged w1 |})
  | None => (Raise PyJWTError, w1)
  end.
Proof.
  intros Hnet Hlt Hjson Htok.
  pose proof (unauthorized_below_400 resp Hlt) as Hun.
  apply Z.leb_gt in Hlt.
  unfold async_get_token, _set_customer_code_from_token. unfold_monad.
  unfold id, raise_for_status, response_json.
  cbn -[auth_request unauthorized]. rewrite Hnet.
  cbn -[auth_request unauthorized]. rewrite Hun, Hlt, Hjson.
  cbn -[auth_request unauthorized].
  unfold token_of in Htok.
  destruct (dict_lookup "access_token" d) as [t1 |] eqn:Ha.
  - injection Htok as ->. cbn -[auth_request]. 
    destruct (jwt_decode t) as [payload |]; reflexivity.
  - rewrite Htok. cbn -[auth_request].
    destruct (jwt_decode t) as [payload |]; reflexivity.
Qed.

End TokenRuns.

(** X5. When the authentication endpoint answers with a status below 400
    and a JSON object that holds a token ([access_token], or else [token])
    which decodes, [async_get_token] returns that token after one call,
    stores it in [_access_token], sets [_customer_code] to the payload's
    [customer_code] ([None] when the payload has none) and changes nothing
    else of the client. *)
Theorem token_is_stored (E : Env) (net : transport) (w : world)
    (resp : response) (d : dict) (t : value) (payload : dict) :
  net (calls w) (auth_request (self w)) = Responds resp ->
  status resp < 400 ->
  content resp = Json (VDict d) ->
  token_of d = Some t ->
  jwt_decode t = Some payload ->
  let run := async_get_token net w in
  fst run = Ok t /\
  self (snd run) =
    {| _username := _username (self w); _password := _password (self w);
       _access_token := t;
       _customer_code := customer_code_of payload;
       _customer_id := _customer_id (self w);
       _group_id := _group_id (self w);
       _balance_group_id := _balance_group_id (self w) |} /\
  calls (snd run) = calls w ++ [auth_request (self w)].
Proof.
  intros Hnet Hlt Hjson Htok Hjwt run. subst run.
  rewrite (get_token_found net w resp d t Hnet Hlt Hjson Htok).
  cbv zeta. rewrite Hjwt. repeat split.
Qed.

Lemma token_is_stored_witness :
  let net := always (ok_json (VDict [("token", VStr "T1");
                                     ("expires_in", VInt 3600)])) in
  let run := async_get_token (E := sample_env) net resolved in
  fst run = Ok (VStr "T1") /\
  self (snd run) =
    {| _username := "user"; _password := "secret";
       _access_token := VStr "T1";
       _customer_code := VStr "C-1001";
       _customer_id := VInt 42;
       _group_id := VInt 7;
       _balance_group_id := VInt 9 |} /\
  calls (snd run) =
    calls resolved ++ [auth_request (E := sample_env) (self resolved)].
Proof.
  intros net run.
  apply (token_is_stored sample_env net resolved
           {| status := 200;
              content := Json (VDict [("token", VStr "T1");
                                      ("expires_in", VInt 3600)]) |}
           [("token", VStr "T1"); ("expires_in", VInt 3600)]
           (VStr "T1") [("customer_code", VStr "C-1001")]).
  - reflexivity.
  - simpl. lia.
  - reflexivity.
  - reflexivity.
  - reflexivity.
Defined.

(** When both keys are present, [access_token] wins. *)
Example access_token_is_preferred :
  fst (async_get_token (E := sample_env)
         (always (ok_json (VDict [("token", VStr "A");
                                  ("access_token", VStr "B")]))) fresh)
  = Ok (VStr "B").
Proof. vm_compute. reflexivity. Qed.

Section TokenFailures.
Context {E : Env}.

Lemma get_token_failure_self net w e :
  fst (async_get_token net w) = Raise e -> e <> PyJWTError ->
  self (snd (async_get_token net w)) = self w.
Proof.
  unfold async_get_token, _set_customer_code_from_token. unfold_monad.
  unfold raise_for_status, response_json, contains, getitem, get, id.
  cbn -[auth_request unauthorized].
  repeat (case_step; cbn -[auth_request unauthorized] in *;
          try discriminate; try reflexivity);
    intros [= <-] Hne; congruence.
Qed.

End TokenFailures.

(** X6. An authentication that fails with anything but a token-decoding
    error leaves the client as it was: after [InvalidAuth], [CannotConnect]
    or a response that is not a JSON object with a token, the token held
    before (if any), the customer code and the identifiers are unchanged. *)
Theorem failed_authentication_keeps_client (E : Env) (net : transport)
    (w : world) (e : exn) :
  fst (async_get_token net w) = Raise e ->
  e <> PyJWTError ->
  self (snd (async_get_token net w)) = self w.
Proof. apply get_token_failure_self. Qed.

Lemma failed_authentication_keeps_client_witness :
  self (snd (async_get_token (E := sample_env) (always (status_only 403))
               resolved)) = self resolved.
Proof.
  apply (failed_authentication_keeps_client sample_env
           (always (status_only 403)) resolved InvalidAuth).
  - vm_compute. reflexivity.
  - discriminate.
Defined.

(** X7. A token that does not decode is kept: [async_get_token] raises the
    decoding error (not [CannotConnect]) after it has stored the token, with
    the customer code unchanged, and the next [_api_request] is sent with
    that token without another authentication. *)
Theorem undecodable_token_is_kept (E : Env) (net : transport) (w : world)
    (resp : response) (d : dict) (t : value) :
  net (calls w) (auth_request (self w)) = Responds resp ->
  status resp < 400 ->
  content resp = Json (VDict d) ->
  token_of d = Some t ->
  jwt_decode t = None ->
  is_None t = false ->
  let run := async_get_token net w in
  fst run = Raise PyJWTError /\
  _access_token (self (snd run)) = t /\
  _customer_code (self (snd run)) = _customer_code (self w) /\
  forall method u k,
    exists rest,
      calls (snd (_api_request method u k net (snd run))) =
      calls (snd run) ++ api_call method u (with_headers t k) :: rest.
Proof.
  intros Hnet Hlt Hjson Htok Hjwt Hnone run. subst run.
  rewrite (get_token_found net w resp d t Hnet Hlt Hjson Htok).
  cbv zeta. rewrite Hjwt. repeat split.
  intros method u k.
  apply (api_request_first_call method u k net
           {| self := set_access_token t (self w);
              calls := calls w ++ [auth_request (self w)];
              logged := logged w ++
                [(DEBUG, "Attempting to authenticate user %s")] |}).
  exact Hnone.
Qed.

Lemma undecodable_token_is_kept_witness :
  let net := always (ok_json (VDict [("access_token", VInt 5)])) in
  let run := async_get_token (E := sample_env) net fresh in
  fst run = Raise PyJWTError /\
  _access_token (self (snd run)) = VInt 5 /\
  _customer_code (self (snd run)) = _customer_code (self fresh) /\
  forall method u k,
    exists rest,
      calls (snd (_api_request (E := sample_env) method u k net (snd run))) =
      calls (snd run) ++ api_call method u (with_headers (VInt 5) k) :: rest.
Proof.
  intros net run.
  apply (undecodable_token_is_kept sample_env net fresh
           {| status := 200;
              content := Json (VDict [("access_token", VInt 5)]) |}
           [("access_token", VInt 5)] (VInt 5)).
  - reflexivity.
  - simpl. lia.
  - reflexivity.
  - reflexivity.
  - reflexivity.
  - reflexivity.
Defined.

Section RaisesOnly.
Variable P : exn -> Prop.

Lemma raises_ret {A} (a : A) : raises_only P (ret a).
Proof. intros net w e. discriminate. Qed.

Lemma raises_raise {A} e : P e -> raises_only P (@raise A e).
Proof. intros H net w e' [= <-]. exact H. Qed.

Lemma raises_lift {A} (r : result A) : may_raise P r -> raises_only P (lift r).
Proof. intros H net w e. apply H. Qed.

Lemma raises_attr {A} (f : TridensApiClient -> A) : raises_only P (attr f).
Proof. intros net w e. discriminate. Qed.

Lemma raises_update f : raises_only P (update f).
Proof. intros net w e. discriminate. Qed.

Lemma raises_log l msg : raises_only P (log l msg).
Proof. intros net w e. discriminate. Qed.

Lemma raises_send r : P ClientError -> raises_only P (send r).
Proof.
  intros H net w e. unfold send. destruct (net (calls w) r); simpl;
    [discriminate | now intros [= <-]].
Qed.

Lemma raises_bind {A B} (m : M A) (k : A -> M B) :
  raises_only P m -> (forall a, raises_only P (k a)) ->
  raises_only P (bind m k).
Proof.
  intros Hm Hk net w e. unfold bind. specialize (Hm net w).
  destruct (m net w) as [[a | e'] w1]; simpl in *; [apply Hk | ].
  intros [= <-]. now apply Hm.
Qed.

(** What the body raises is caught or allowed; the handler raises what is
    allowed. *)
Lemma raises_try_except {A} (m : M A) catches (h : M A) :
  raises_only (fun e => catches e = true \/ P e) m -> raises_only P h ->
  raises_only P (try_except m catches h).
Proof.
  intros Hm Hh net w e. unfold try_except. specialize (Hm net w).
  destruct (m net w) as [[a | e'] w1]; simpl in *; [discriminate |].
  destruct (catches e') eqn:Hc; [apply Hh |].
  simpl. intros [= <-]. destruct (Hm e' eq_refl); congruence.
Qed.

End RaisesOnly.

Lemma raises_weaken (P Q : exn -> Prop) {A} (m : M A) :
  (forall e, P e -> Q e) -> raises_only P m -> raises_only Q m.
Proof. intros H Hm net w e He. apply H. now apply (Hm net w). Qed.

Lemma may_raise_rbind P {A B} (r : result A) (k : A -> result B) :
  may_raise P r -> (forall a, may_raise P (k a)) -> may_raise P (rbind r k).
Proof.
  intros Hr Hk e. destruct r as [a | e']; simpl; [apply Hk |].
  intros [= <-]. now apply Hr.
Qed.

Ltac raised := intros ? [= <-]; unfold parse_error; simpl; tauto.

Lemma getitem_raises v k : may_raise parse_error (getitem v k).
Proof. unfold getitem. repeat case_step; (discriminate || raised). Qed.

Lemma py_int_raises v : may_raise parse_error (py_int v).
Proof.
  unfold py_int, int_of_float, int_of_string.
  repeat case_step; (discriminate || raised).
Qed.

Lemma py_float_raises v : may_raise parse_error (py_float v).
Proof.
  unfold py_float, float_of_int, float_of_string.
  repeat case_step; (discriminate || raised).
Qed.

Lemma int_truediv_raises ms : may_raise parse_error (int_truediv ms 1000).
Proof.
  unfold int_truediv. change (1000 =? 0) with false. cbv iota.
  repeat case_step; (discriminate || raised).
Qed.

Section Parsing.
Context {E : Env}.

Lemma consumption_record_raises item :
  may_raise parse_error (consumption_record item).
Proof.
  unfold consumption_record.
  repeat (apply may_raise_rbind;
          [first [apply getitem_raises | apply py_int_raises
                 | apply py_float_raises | apply int_truediv_raises] | intros ?]).
  discriminate.
Qed.

Lemma consumption_records_Forall2 items rs :
  consumption_records items = Ok rs <->
  Forall2 (fun item r => consumption_record item = Ok r) items rs.
Proof.
  revert rs. induction items as [|item items IH]; intros rs; simpl.
  - split; [intros [= <-]; constructor | intros H; now inversion H].
  - split.
    + destruct (consumption_record item) as [r | e] eqn:Hr; simpl;
        [| discriminate].
      destruct (consumption_records items) as [rs' | e] eqn:Hrs; simpl;
        [| discriminate].
      intros [= <-]. constructor; [exact Hr | now apply IH].
    + intros H. inversion H as [| ? r ? rs' Hr Hrs]; subst.
      apply IH in Hrs. now rewrite Hr, Hrs.
Qed.

Lemma consumption_records_first_error good bad rest e :
  Forall (fun item => exists r, consumption_record item = Ok r) good ->
  consumption_record bad = Raise e ->
  consumption_records (good ++ bad :: rest) = Raise e.
Proof.
  intros Hgood Hbad. induction Hgood as [| item good [r Hr] _ IH]; simpl.
  - now rewrite Hbad.
  - now rewrite Hr, IH.
Qed.

Lemma consumption_records_raises items :
  may_raise parse_error (consumption_records items).
Proof.
  induction items as [|item items IH]; simpl; [discriminate |].
  apply may_raise_rbind; [apply consumption_record_raises | intros r].
  apply may_raise_rbind; [exact IH | intros rs]. discriminate.
Qed.

End Parsing.

Example sample_usage_event_in_scope : in_scope sample_usage_event = true.
Proof. vm_compute. reflexivity. Qed.

(** X14. [fetch_consumption] keeps the usage events all or none. On
    events within the scope of the embedding (plain numerals, times of
    read that [datetime.fromtimestamp] accepts) it returns one record per
    event, in the order of the response, exactly when every event
    converts, and otherwise raises the error of the first event that does
    not ([KeyError], [TypeError], [ValueError] or [OverflowError], never
    [CannotConnect]) and returns no record. *)
Theorem usage_events_all_or_nothing (E : Env) :
  (forall items rs,
      Forall (fun item => in_scope item = true) items ->
      (consumption_records items = Ok rs <->
       Forall2 (fun item r => consumption_record item = Ok r) items rs)) /\
  (forall good bad rest e,
      Forall (fun item => in_scope item = true) (good ++ [bad]) ->
      Forall (fun item => exists r, consumption_record item = Ok r) good ->
      consumption_record bad = Raise e ->
      consumption_records (good ++ bad :: rest) = Raise e /\
      parse_error e) /\
  (forall start end_ net w d items,
      is_resolved w ->
      fst (fetch_consumption_data start end_ net w) = Ok (VDict d) ->
      dict_lookup "objects" d = Some (VList items) ->
      Forall (fun item => in_scope item = true) items ->
      fst (fetch_consumption start end_ net w) = consumption_records items).
Proof.
  split; [intros items rs _; apply consumption_records_Forall2 | split].
  - intros good bad rest e _ Hgood Hbad.
    split; [now apply consumption_records_first_error |].
    now apply (consumption_record_raises bad).
  - intros start end_ net w d items _ Hdata Hobj _.
    unfold fetch_consumption, bind.
    destruct (fetch_consumption_data start end_ net w) as [r w1].
    simpl in Hdata. subst r.
    unfold fetch_consumption_records. unfold_monad. simpl. rewrite Hobj.
    simpl. now destruct (consumption_records items).
Qed.

(** An event without its [quantity] loses the whole page. *)
Example one_malformed_event :
  let bad := VDict [("fields",
                     VDict [("time_of_read", VStr "1700086400000")]);
                    ("amount_with_discount", VStr "3.25")] in
  in_scope sample_usage_event = true /\ in_scope bad = true /\
  fst (fetch_consumption (E := sample_env) None None
         (always (ok_json (VDict [("objects",
                                   VList [sample_usage_event; bad])])))
         resolved) = Raise KeyError.
Proof. vm_compute. repeat split. Qed.

Ltac raises_step :=
  lazymatch goal with
  | |- raises_only _ (ret _) => apply raises_ret
  | |- raises_only _ (raise _) => apply raises_raise
  | |- raises_only _ (lift _) => apply raises_lift
  | |- raises_only _ (attr _) => apply raises_attr
  | |- raises_only _ (update _) => apply raises_update
  | |- raises_only _ (log _ _) => apply raises_log
  | |- raises_only _ (send _) => apply raises_send
  | |- raises_only _ (bind _ _) => apply raises_bind; [| intros ?]
  | |- raises_only _ (let _ := _ in _) => cbv zeta
  | |- raises_only _ (if ?b then _ else _) => destruct b
  | |- raises_only _ (match ?x with _ => _ end) => destruct x
  end.

Lemma not_ClientError_try {A} (m h : M A) :
  raises_only not_ClientError h ->
  raises_only not_ClientError (try_except m is_ClientError h).
Proof.
  intros Hh. apply raises_try_except; [| exact Hh].
  intros net w e _. destruct e; simpl; (now left) || (right; discriminate).
Qed.

Lemma parse_error_not_ClientError e : parse_error e -> not_ClientError e.
Proof. unfold parse_error. simpl. intros H ->. intuition discriminate. Qed.

Lemma getitem_not_ClientError v k : may_raise not_ClientError (getitem v k).
Proof. intros e H. now apply parse_error_not_ClientError, (getitem_raises v k). Qed.

Lemma getindex_not_ClientError v i : may_raise not_ClientError (getindex v i).
Proof.
  unfold getindex. repeat case_step; intros e [= <-]; discriminate.
Qed.

Lemma get_not_ClientError v k dflt : may_raise not_ClientError (get v k dflt).
Proof. unfold get. destruct v; intros e [= <-]; discriminate. Qed.

Lemma iter_not_ClientError v : may_raise not_ClientError (iter v).
Proof. unfold iter. destruct v; intros e [= <-]; discriminate. Qed.

Section NoClientError.
Context {E : Env}.

Lemma get_token_raises : raises_only not_ClientError async_get_token.
Proof.
  unfold async_get_token.
  repeat raises_step. apply not_ClientError_try.
  repeat raises_step. discriminate.
Qed.

Lemma api_request_raises method u k :
  raises_only not_ClientError (_api_request method u k).
Proof.
  unfold _api_request.
  repeat (raises_step || apply get_token_raises).
  apply not_ClientError_try. repeat raises_step. discriminate.
Qed.

Lemma customer_data_raises : raises_only not_ClientError _get_customer_data.
Proof.
  unfold _get_customer_data.
  repeat (raises_step || apply get_token_raises || apply api_request_raises).
  apply raises_try_except; [| apply raises_log].
  intros net w e _. now left.
Qed.

Lemma subscription_data_raises :
  raises_only not_ClientError _get_subscription_data.
Proof.
  unfold _get_subscription_data.
  repeat (raises_step || apply customer_data_raises
          || apply api_request_raises).
  apply raises_try_except; [| apply raises_log].
  apply (raises_weaken not_ClientError); [intros e He; now right |].
  repeat (raises_step || apply getitem_not_ClientError
          || apply getindex_not_ClientError).
Qed.

Lemma fetch_consumption_raises start end_ :
  raises_only not_ClientError (fetch_consumption start end_).
Proof.
  unfold fetch_consumption, fetch_consumption_data, fetch_consumption_records.
  repeat (raises_step || apply subscription_data_raises
          || apply api_request_raises || apply get_not_ClientError
          || apply iter_not_ClientError).
  intros e H.
  match type of H with consumption_records ?items = _ =>
    now apply parse_error_not_ClientError, (consumption_records_raises items)
  end.
Qed.

End NoClientError.

(** X8. No [aiohttp.ClientError] leaves the client: whatever the server
    answers and whatever state the client is in, none of its methods
    raises one (they are converted to [CannotConnect]). *)
Theorem no_ClientError_escapes (E : Env) (net : transport) (w : world) :
  fst (async_get_token net w) <> Raise ClientError /\
  fst (async_test_authentication net w) <> Raise ClientError /\
  (forall method u k,
      fst (_api_request method u k net w) <> Raise ClientError) /\
  fst (_get_customer_data net w) <> Raise ClientError /\
  fst (_get_subscription_data net w) <> Raise ClientError /\
  (forall start end_,
      fst (fetch_consumption start end_ net w) <> Raise ClientError).
Proof.
  split; [| split; [| split; [| split; [| split]]]].
  - intros H. now apply (get_token_raises net w ClientError).
  - unfold async_test_authentication, bind, ret.
    destruct (async_get_token net w) as [[t | e] w1] eqn:Ht; simpl;
      [discriminate |].
    intros [= ->]. apply (get_token_raises net w ClientError); [| reflexivity].
    now rewrite Ht.
  - intros method u k H.
    now apply (api_request_raises method u k net w ClientError).
  - intros H. now apply (customer_data_raises net w ClientError).
  - intros H. now apply (subscription_data_raises net w ClientError).
  - intros start end_ H.
    now apply (fetch_consumption_raises start end_ net w ClientError).
Qed.

#[local] Arguments _api_request : simpl never.
#[local] Arguments _get_customer_data : simpl never.
#[local] Arguments _get_subscription_data : simpl never.

Section SingleCall.
Context {E : Env}.

(** The run of [_api_request] with a token held, when the answer is not
    401 or 403: one call, and the client as before. *)
Lemma api_request_single method u k net w :
  is_None (_access_token (self w)) = false ->
  let a1 := api_call method u (with_headers (_access_token (self w)) k) in
  (forall resp, net (calls w) a1 = Responds resp -> unauthorized resp = false) ->
  let run := _api_request method u k net w in
  fst run = outcome_result (net (calls w) a1) /\
  calls (snd run) = calls w ++ [a1] /\
  self (snd run) = self w.
Proof.
  intros Ht a1 Hun run. subst run a1.
  unfold _api_request. unfold_monad. simpl. rewrite Ht. simpl.
  destruct (net (calls w) _) as [resp |] eqn:Hnet; simpl; [| now repeat split].
  rewrite (Hun resp eq_refl). simpl.
  unfold response_result, raise_for_status, response_json.
  destruct (400 <=? status resp); simpl; [now repeat split |].
  destruct (content resp); simpl; now repeat split.
Qed.

(** The same run when the answer is a JSON body with a status below 400. *)
Lemma api_request_ok method u k net w resp v :
  is_None (_access_token (self w)) = false ->
  net (calls w) (api_call method u (with_headers (_access_token (self w)) k))
    = Responds resp ->
  status resp < 400 -> content resp = Json v ->
  _api_request method u k net w =
  (Ok v, {| self := self w;
            calls := calls w ++
              [api_call method u (with_headers (_access_token (self w)) k)];
            logged := logged w |}).
Proof.
  intros Ht Hnet Hlt Hjson.
  pose proof (unauthorized_below_400 resp Hlt) as Hun.
  apply Z.leb_gt in Hlt.
  unfold _api_request. unfold_monad. simpl. rewrite Ht. simpl.
  rewrite Hnet. simpl. rewrite Hun. simpl.
  unfold raise_for_status, response_json. rewrite Hlt, Hjson. reflexivity.
Qed.

End SingleCall.

(** X9. With a token held, a request the session sends (its query values
    are strings and integers) that is not answered 401 or 403 is one call,
    with no authentication and no retry, and leaves the client unchanged:
    it returns the body of a JSON answer of status below 400 and raises
    [CannotConnect] on a network failure, on any status of 400 or more
    (404, 500, ...) and on an answer that is not served as JSON; a body
    that does not parse raises the decoder's error. *)
Theorem request_without_retry (E : Env) (method : string) (u : fstring)
    (k : kwargs) (net : transport) (w : world) :
  sendable k ->
  is_None (_access_token (self w)) = false ->
  let a1 := api_call method u (with_headers (_access_token (self w)) k) in
  (forall resp, net (calls w) a1 = Responds resp ->
                status resp <> 401 /\ status resp <> 403) ->
  let run := _api_request method u k net w in
  calls (snd run) = calls w ++ [a1] /\
  self (snd run) = self w /\
  fst run =
    match net (calls w) a1 with
    | Fails => Raise CannotConnect
    | Responds resp =>
        if 400 <=? status resp then Raise CannotConnect
        else match content resp with
             | Json v => Ok v
             | NotJson => Raise CannotConnect
             | BadJson => Raise JSONDecodeError
             end
    end.
Proof.
  intros _ Ht a1 Hun run.
  destruct (api_request_single method u k net w Ht) as (Hr & Hc & Hs).
  { intros resp Hnet. destruct (Hun resp Hnet) as [H1 H3].
    destruct (unauthorized resp) eqn:Hu; [| reflexivity].
    apply unauthorized_iff in Hu. tauto. }
  repeat split; [exact Hc | exact Hs |].
  subst run. rewrite Hr. fold a1. now destruct (net (calls w) a1).
Qed.

Lemma request_without_retry_witness :
  let u := customer_url (VStr "C-1001") in
  let net := always (status_only 404) in
  let a1 := api_call "GET" u (with_headers (VStr "T0") no_kwargs) in
  let run := _api_request (E := sample_env) "GET" u no_kwargs net resolved in
  calls (snd run) = calls resolved ++ [a1] /\
  self (snd run) = self resolved /\
  fst run = Raise CannotConnect.
Proof.
  intros u net a1 run.
  apply (request_without_retry sample_env "GET" u no_kwargs net resolved).
  - exact I.
  - reflexivity.
  - intros resp [= <-]. simpl. split; discriminate.
Defined.

Section Chain.
Context {E : Env}.

Lemma customer_data_run net w data w1 :
  is_None (_customer_code (self w)) = false ->
  _api_request "GET" (customer_url (_customer_code (self w))) no_kwargs net w
    = (Ok data, w1) ->
  _get_customer_data net w =
  match group_of data with
  | Ok group_id =>
      (Ok tt, {| self := set_group_id group_id (self w1); calls := calls w1;
                 logged := logged w1 ++
                   [(INFO, "Successfully obtained customer group information")] |})
  | Raise _ =>
      (Ok tt, {| self := self w1; calls := calls w1;
                 logged := logged w1 ++
                   [(ERROR, "Unable to obtain customer group information")] |})
  end.
Proof.
  intros Hc Hreq. unfold _get_customer_data, group_of. unfold_monad. simpl.
  rewrite Hc. simpl. rewrite Hreq. simpl.
  destruct (get data "groups" VNone) as [groups | e1]; simpl; [| reflexivity].
  destruct (getindex groups 0) as [group | e2]; simpl; [| reflexivity].
  destruct (getitem group "id") as [group_id | e3]; simpl; reflexivity.
Qed.

Lemma subscription_data_run net w data w1 bid cid :
  is_None (_group_id (self w)) = false ->
  _api_request "GET" customers_url
    (with_params [("parent-group", _group_id (self w))]) net w = (Ok data, w1) ->
  balance_group_of data = Ok bid -> customer_of data = Ok cid ->
  _get_subscription_data net w =
  (Ok tt, {| self := set_customer_id cid (set_balance_group_id bid (self w1));
             calls := calls w1;
             logged := logged w1 ++
               [(INFO, "Successfully obtained subscription data")] |}).
Proof.
  intros Hg Hreq Hb Hc.
  unfold _get_subscription_data, balance_group_of, customer_of, with_params in *.
  unfold_monad. simpl. rewrite Hg. simpl.
  match goal with
  | |- context [_api_request ?m ?u ?k net w] =>
      replace (_api_request m u k net w) with (Ok data, w1)
        by (symmetry; exact Hreq)
  end.
  simpl.
  destruct (getitem data "objects") as [objects |]; simpl in *;
    [| discriminate].
  destruct (getindex objects 0) as [object |]; simpl in *; [| discriminate].
  destruct (getitem object "subscriptions") as [subs |]; simpl in *;
    [| discriminate].
  destruct (getindex subs 0) as [sub |]; simpl in *; [| discriminate].
  destruct (getitem sub "balance_group") as [bg |]; simpl in *;
    [| discriminate].
  rewrite Hb, Hc. reflexivity.
Qed.

End Chain.

Section ChainFresh.
Context {E : Env}.

Lemma customer_data_after_token net w t w1 data w2 :
  is_None (_customer_code (self w)) = true ->
  async_get_token net w = (Ok t, w1) ->
  _api_request "GET" (customer_url (_customer_code (self w1))) no_kwargs net w1
    = (Ok data, w2) ->
  _get_customer_data net w =
  match group_of data with
  | Ok group_id =>
      (Ok tt, {| self := set_group_id group_id (self w2); calls := calls w2;
                 logged := logged w2 ++
                   [(INFO, "Successfully obtained customer group information")] |})
  | Raise _ =>
      (Ok tt, {| self := self w2; calls := calls w2;
                 logged := logged w2 ++
                   [(ERROR, "Unable to obtain customer group information")] |})
  end.
Proof.
  intros Hc Htok Hreq. unfold _get_customer_data, group_of. unfold_monad.
  simpl. rewrite Hc. simpl. rewrite Htok. simpl. rewrite Hreq. simpl.
  destruct (get data "groups" VNone) as [groups | e1]; simpl; [| reflexivity].
  destruct (getindex groups 0) as [group | e2]; simpl; [| reflexivity].
  destruct (getitem group "id") as [group_id | e3]; simpl; reflexivity.
Qed.

Lemma subscription_data_after_customer net w w1 data w2 bid cid :
  is_None (_group_id (self w)) = true ->
  _get_customer_data net w = (Ok tt, w1) ->
  _api_request "GET" customers_url
    (with_params [("parent-group", _group_id (self w1))]) net w1
    = (Ok data, w2) ->
  balance_group_of data = Ok bid -> customer_of data = Ok cid ->
  _get_subscription_data net w =
  (Ok tt, {| self := set_customer_id cid (set_balance_group_id bid (self w2));
             calls := calls w2;
             logged := logged w2 ++
               [(INFO, "Successfully obtained subscription data")] |}).
Proof.
  intros Hg Hcust Hreq Hb Hc.
  unfold _get_subscription_data, balance_group_of, customer_of, with_params in *.
  unfold_monad. simpl. rewrite Hg. simpl. rewrite Hcust. simpl.
  match goal with
  | |- context [_api_request ?m ?u ?k net w1] =>
      replace (_api_request m u k net w1) with (Ok data, w2)
        by (symmetry; exact Hreq)
  end.
  simpl.
  destruct (getitem data "objects") as [objects |]; simpl in *;
    [| discriminate].
  destruct (getindex objects 0) as [object |]; simpl in *; [| discriminate].
  destruct (getitem object "subscriptions") as [subs |]; simpl in *;
    [| discriminate].
  destruct (getindex subs 0) as [sub |]; simpl in *; [| discriminate].
  destruct (getitem sub "balance_group") as [bg |]; simpl in *;
    [| discriminate].
  rewrite Hb, Hc. reflexivity.
Qed.

End ChainFresh.

(** X13. On a client just constructed, when the server accepts the
    credentials and answers each lookup with a well-formed body, the id of
    the profile's first group being a string or an integer (a value the
    session sends in a query),
    [fetch_consumption] makes exactly four calls, in this order: the
    authentication, the customer profile of the token's customer code, the
    subscriptions of the profile's first group, the usage events of the
    customer found there. The three lookups carry the token; the client
    ends with the token, the customer code, the group, the customer and the
    balance group; the result is the records of the usage events. *)
Theorem first_fetch_chain (E : Env) (net : transport)
    (username password : string) (start end_ : option datetime)
    (d payload : dict) (tok data2 gid data3 bid cid data4 : value) :
  let c0 := new_client username password in
  let c1 := auth_request c0 in
  let c2 := api_call "GET" (customer_url (customer_code_of payload))
              (with_headers tok no_kwargs) in
  let c3 := api_call "GET" customers_url
              (with_headers tok (with_params [("parent-group", gid)])) in
  let c4 := api_call "GET" (usage_events_url cid)
              (with_headers tok (with_params (usage_events_params start end_))) in
  answers net [] c1 (VDict d) ->
  token_of d = Some tok -> is_None tok = false ->
  jwt_decode tok = Some payload ->
  answers net [c1] c2 data2 -> group_of data2 = Ok gid ->
  query_value gid = true ->
  answers net [c1; c2] c3 data3 ->
  balance_group_of data3 = Ok bid -> customer_of data3 = Ok cid ->
  answers net [c1; c2; c3] c4 data4 ->
  let run := fetch_consumption start end_ net
               {| self := c0; calls := []; logged := [] |} in
  calls (snd run) = [c1; c2; c3; c4] /\
  self (snd run) =
    {| _username := username; _password := password;
       _access_token := tok;
       _customer_code := customer_code_of payload;
       _customer_id := cid; _group_id := gid; _balance_group_id := bid |} /\
  fst run =
    rbind (rbind (get data4 "objects" (VList [])) iter) consumption_records.
Proof.
  intros c0 c1 c2 c3 c4 (r1 & N1 & L1 & J1) Htok Hnone Hjwt
    (r2 & N2 & L2 & J2) Hgid _ (r3 & N3 & L3 & J3) Hbid Hcid
    (r4 & N4 & L4 & J4) run.
  set (w0 := {| self := c0; calls := []; logged := [] |}) in *.
  (* authentication *)
  pose proof (get_token_found net w0 r1 d tok N1 L1 J1 Htok) as T.
  cbv zeta in T. rewrite Hjwt in T.
  match type of T with _ = (_, ?w) => set (w1 := w) in * end.
  (* customer profile *)
  assert (Q2 : _api_request "GET" (customer_url (_customer_code (self w1)))
                 no_kwargs net w1 =
               (Ok data2, {| self := self w1; calls := calls w1 ++ [c2];
                             logged := logged w1 |})).
  { apply (api_request_ok "GET" _ no_kwargs net w1 r2 data2);
      [exact Hnone | exact N2 | exact L2 | exact J2]. }
  pose proof (customer_data_after_token net w0 tok w1 data2 _ eq_refl T Q2) as C.
  rewrite Hgid in C.
  match type of C with _ = (_, ?w) => set (w2 := w) in * end.
  (* subscriptions *)
  assert (Q3 : _api_request "GET" customers_url
                 (with_params [("parent-group", _group_id (self w2))]) net w2 =
               (Ok data3, {| self := self w2; calls := calls w2 ++ [c3];
                             logged := logged w2 |})).
  { apply (api_request_ok "GET" customers_url _ net w2 r3 data3);
      [exact Hnone | exact N3 | exact L3 | exact J3]. }
  pose proof (subscription_data_after_customer net w0 w2 data3 _ bid cid
                eq_refl C Q3 Hbid Hcid) as S.
  match type of S with _ = (_, ?w) => set (w3 := w) in * end.
  (* usage events *)
  assert (Q4 : _api_request "GET" (usage_events_url (_customer_id (self w3)))
                 (with_params (usage_events_params start end_)) net w3 =
               (Ok data4, {| self := self w3; calls := calls w3 ++ [c4];
                             logged := logged w3 |})).
  { apply (api_request_ok "GET" _ _ net w3 r4 data4);
      [exact Hnone | exact N4 | exact L4 | exact J4]. }
  subst run. unfold fetch_consumption, fetch_consumption_data. unfold_monad.
  change (is_None (_customer_id (self w0))) with true. cbv iota.
  cbn [orb]. rewrite S.
  unfold with_params in Q4.
  match goal with
  | |- context [_api_request ?m ?u ?k net w3] =>
      replace (_api_request m u k net w3) with
        (Ok data4, {| self := self w3; calls := calls w3 ++ [c4];
                      logged := logged w3 |})
        by (symmetry; exact Q4)
  end.
  unfold fetch_consumption_records. unfold_monad. simpl.
  destruct (get data4 "objects" (VList [])) as [objects | e]; simpl;
    [| now repeat split].
  destruct (iter objects) as [items | e]; simpl; [| now repeat split].
  destruct (consumption_records items) as [rs | e]; simpl; now repeat split.
Qed.

Lemma first_fetch_chain_witness :
  let tok := VStr "T1" in
  let c0 := new_client "user" "secret" in
  let c1 := auth_request (E := sample_env) c0 in
  let c2 := api_call "GET" (customer_url (VStr "C-1001"))
              (with_headers tok no_kwargs) in
  let c3 := api_call "GET" customers_url
              (with_headers tok (with_params [("parent-group", VInt 7)])) in
  let c4 := api_call "GET" (usage_events_url (VInt 42))
              (with_headers tok
                 (with_params (usage_events_params (E := sample_env) None None))) in
  let run := fetch_consumption (E := sample_env) None None resolving
               {| self := c0; calls := []; logged := [] |} in
  calls (snd run) = [c1; c2; c3; c4] /\
  self (snd run) =
    {| _username := "user"; _password := "secret";
       _access_token := tok;
       _customer_code := VStr "C-1001";
       _customer_id := VInt 42; _group_id := VInt 7;
       _balance_group_id := VInt 9 |} /\
  fst run =
    rbind (rbind (get (VDict [("objects", VList [sample_usage_event])])
                    "objects" (VList [])) iter)
          (consumption_records (E := sample_env)).
Proof.
  intros tok c0 c1 c2 c3 c4.
  apply (first_fetch_chain sample_env resolving "user" "secret" None None
           [("access_token", VStr "T1")] [("customer_code", VStr "C-1001")]
           (VStr "T1")
           (VDict [("groups", VList [VDict [("id", VInt 7)]])])
           (VInt 7)
           (VDict [("objects",
              VList [VDict [("id", VInt 42);
                            ("subscriptions",
                             VList [VDict [("balance_group",
                                            VDict [("id", VInt 9)])]])]])])
           (VInt 9) (VInt 42)
           (VDict [("objects", VList [sample_usage_event])]));
    try reflexivity;
    (eexists; split; [reflexivity | split; [simpl; lia | reflexivity]]).
Defined.

Section GroupCached.
Context {E : Env}.

Lemma subscription_data_held net w :
  is_None (_group_id (self w)) = false ->
  let request :=
    _api_request "GET" customers_url
      (with_params [("parent-group", _group_id (self w))]) net w in
  calls (snd (_get_subscription_data net w)) = calls (snd request) /\
  _group_id (self (snd (_get_subscription_data net w))) =
    _group_id (self (snd request)).
Proof.
  intros Hg request. subst request.
  unfold _get_subscription_data, with_params. unfold_monad. simpl.
  rewrite Hg. simpl.
  destruct (_api_request _ _ _ net w) as [[data | e] w1]; simpl;
    [| now split].
  repeat (case_step; simpl; try (split; reflexivity)).
Qed.

End GroupCached.

(** X12. With the group id held, [_get_subscription_data] makes no
    customer lookup: apart from authentications, its calls are requests for
    the subscriptions of that group, and the group id stays as it was. *)
Theorem group_lookup_is_cached (E : Env) (net : transport) (w : world) :
  is_None (_group_id (self w)) = false ->
  let run := _get_subscription_data net w in
  (exists new,
      calls (snd run) = calls w ++ new /\
      Forall (fun c => is_post c = true \/
                       (via c = Request /\ meth c = "GET" /\
                        url c = customers_url /\
                        kw_params (kw c) =
                          Some [("parent-group", _group_id (self w))]))
             new) /\
  _group_id (self (snd run)) = _group_id (self w).
Proof.
  intros Hg run. subst run.
  destruct (subscription_data_held net w Hg) as [Hc Hs]. cbv zeta in Hc, Hs.
  rewrite Hc, Hs. split.
  - apply (api_request_within
             (fun c => is_post c = true \/
                       (via c = Request /\ meth c = "GET" /\
                        url c = customers_url /\
                        kw_params (kw c) =
                          Some [("parent-group", _group_id (self w))]))).
    + intros c. now left.
    + intros k' Hp _. right. repeat split. exact Hp.
  - apply (api_request_identity "GET" customers_url).
Qed.

Lemma group_lookup_is_cached_witness :
  let net := always (ok_json (VDict [("objects", VList [])])) in
  let run := _get_subscription_data (E := sample_env) net grouped in
  (exists new,
      calls (snd run) = calls grouped ++ new /\
      Forall (fun c => is_post c = true \/
                       (via c = Request /\ meth c = "GET" /\
                        url c = customers_url /\
                        kw_params (kw c) =
                          Some [("parent-group", _group_id (self grouped))]))
             new) /\
  _group_id (self (snd run)) = _group_id (self grouped).
Proof.
  intros net.
  apply (group_lookup_is_cached sample_env net grouped). reflexivity.
Defined.

(** X11. Once the customer profile is fetched, no failure to extract the
    group leaves [_get_customer_data]: it returns after that one request
    without another call, either with the id of the first group of the
    profile stored in [_group_id] and the success logged, or, when the
    profile has no such id, with the client as it was and an error
    logged. *)
Theorem customer_lookup_swallows (E : Env) (net : transport) (w : world)
    (data : value) (w1 : world) :
  is_None (_customer_code (self w)) = false ->
  _api_request "GET" (customer_url (_customer_code (self w))) no_kwargs net w
    = (Ok data, w1) ->
  let run := _get_customer_data net w in
  let extracted :=
    rbind (rbind (get data "groups" VNone) (fun g => getindex g 0))
          (fun g => getitem g "id") in
  fst run = Ok tt /\
  calls (snd run) = calls w1 /\
  match extracted with
  | Ok group_id =>
      self (snd run) = set_group_id group_id (self w1) /\
      logged (snd run) = logged w1 ++
        [(INFO, "Successfully obtained customer group information")]
  | Raise _ =>
      self (snd run) = self w1 /\
      logged (snd run) = logged w1 ++
        [(ERROR, "Unable to obtain customer group information")]
  end.
Proof.
  intros Hc Hreq. cbv zeta. unfold _get_customer_data. unfold_monad. simpl.
  rewrite Hc. simpl.
  match goal with
  | |- context [_api_request ?m ?u ?k net w] =>
      replace (_api_request m u k net w) with (Ok data, w1)
        by (symmetry; exact Hreq)
  end.
  simpl.
  destruct (get data "groups" VNone) as [groups | e1]; simpl;
    [| now destruct w1].
  destruct (getindex groups 0) as [group | e2]; simpl; [| now destruct w1].
  destruct (getitem group "id") as [group_id | e3]; simpl;
    [| now destruct w1].
  now repeat split.
Qed.

Lemma customer_lookup_swallows_witness :
  let net := always (ok_json (VDict [("groups", VList [])])) in
  let w1 := {| self := self resolved;
               calls := [api_call "GET" (customer_url (VStr "C-1001"))
                           (with_headers (VStr "T0") no_kwargs)];
               logged := [] |} in
  let run := _get_customer_data (E := sample_env) net resolved in
  fst run = Ok tt /\
  calls (snd run) = calls w1 /\
  self (snd run) = self w1 /\
  logged (snd run) =
    [(ERROR, "Unable to obtain customer group information")].
Proof.
  intros net w1.
  apply (customer_lookup_swallows sample_env net resolved
           (VDict [("groups", VList [])]) w1).
  - reflexivity.
  - vm_compute. reflexivity.
Defined.

Lemma dict_lookup_set_same {V} k (v : V) d :
  dict_lookup k (dict_set k v d) = Some v.
Proof.
  induction d as [|[k' v'] d IH]; simpl.
  - now rewrite String.eqb_refl.
  - destruct (String.eqb k k') eqn:Ek; simpl; rewrite Ek; [reflexivity | exact IH].
Qed.

Lemma dict_lookup_set_other {V} k k' (v : V) d :
  k <> k' -> dict_lookup k' (dict_set k v d) = dict_lookup k' d.
Proof.
  intros Hne. induction d as [|[k0 v0] d IH]; simpl.
  - destruct (String.eqb_spec k' k); [congruence | reflexivity].
  - destruct (String.eqb_spec k k0) as [<- | Hk]; simpl.
    + destruct (String.eqb_spec k' k); [congruence | reflexivity].
    + destruct (String.eqb k' k0); [reflexivity | exact IH].
Qed.

Lemma with_headers_authorized method u token k :
  authorized (api_call method u (with_headers token k)).
Proof.
  unfold authorized, api_call, with_headers. simpl.
  eexists _, token. split; [reflexivity |].
  rewrite !dict_lookup_set_same.
  rewrite !(dict_lookup_set_other "Response-Type") by discriminate.
  rewrite !dict_lookup_set_same.
  rewrite (dict_lookup_set_other "Accept") by discriminate.
  rewrite dict_lookup_set_same. now repeat split.
Qed.

Lemma set_authorization_authorized method u token' token k :
  authorized (api_call method u
                (set_authorization token' (with_headers token k))).
Proof.
  unfold authorized, api_call, set_authorization, with_headers. simpl.
  eexists _, token'. split; [reflexivity |].
  rewrite dict_lookup_set_same.
  rewrite !(dict_lookup_set_other "Authorization") by discriminate.
  rewrite dict_lookup_set_same.
  rewrite (dict_lookup_set_other "Response-Type") by discriminate.
  rewrite dict_lookup_set_same. now repeat split.
Qed.

Section Discipline.
Context {E : Env}.

Lemma auth_request_credentials c c' :
  _username c' = _username c -> _password c' = _password c ->
  auth_request c' = auth_request c.
Proof. intros Hu Hp. unfold auth_request. now rewrite Hu, Hp. Qed.

Lemma well_formed_call_credentials c c' r :
  _username c' = _username c -> _password c' = _password c ->
  well_formed_call c r -> well_formed_call c' r.
Proof.
  intros Hu Hp. unfold well_formed_call.
  now rewrite (auth_request_credentials c c' Hu Hp).
Qed.

Lemma discipline_refl w : discipline w w.
Proof. repeat split. apply calls_within_refl. Qed.

Lemma discipline_trans w1 w2 w3 :
  discipline w1 w2 -> discipline w2 w3 -> discipline w1 w3.
Proof.
  intros (Hu1 & Hp1 & H1) (Hu2 & Hp2 & H2).
  split; [congruence | split; [congruence |]].
  apply (calls_within_trans _ w1 w2 w3); [exact H1 |].
  destruct H2 as (new & Hc & Hf). exists new. split; [exact Hc |].
  revert Hf. apply Forall_impl. intros r.
  apply well_formed_call_credentials; congruence.
Qed.

Lemma discipline_log w l :
  discipline w {| self := self w; calls := calls w; logged := logged w ++ l |}.
Proof.
  repeat split. exists []. simpl. split; [now rewrite app_nil_r | constructor].
Qed.

Lemma discipline_update w f :
  _username (f (self w)) = _username (self w) ->
  _password (f (self w)) = _password (self w) ->
  discipline w {| self := f (self w); calls := calls w; logged := logged w |}.
Proof.
  intros Hu Hp. split; [exact Hu | split; [exact Hp |]].
  exists []. simpl. split; [now rewrite app_nil_r | constructor].
Qed.

Lemma discipline_send w r :
  well_formed_call (self w) r ->
  discipline w {| self := self w; calls := calls w ++ [r]; logged := logged w |}.
Proof.
  intros H. repeat split. exists [r]. split; [reflexivity | now constructor].
Qed.

Lemma get_token_discipline : stable discipline async_get_token.
Proof.
  intros net w.
  destruct (get_token_identity net w) as (Hu & Hp & _).
  split; [exact Hu | split; [exact Hp |]].
  exists [auth_request (self w)]. split; [apply get_token_calls |].
  constructor; [reflexivity | constructor].
Qed.

End Discipline.

#[local] Hint Resolve discipline_refl discipline_trans : core.

Ltac discipline_leaf :=
  lazymatch goal with
  | |- stable _ (log _ _) => apply stable_log; intros ?; apply discipline_log
  | |- stable _ (update _) =>
      apply stable_update; intros ?; apply discipline_update; reflexivity
  | |- stable _ (send _) => apply stable_send; intros ?; apply discipline_send
  end.

Section DisciplineOfMethods.
Context {E : Env}.

Lemma api_call_well_formed c0 u k' :
  kw_json k' = None ->
  is_lookup (api_call "GET" u k') = true \/
  is_usage_events (api_call "GET" u k') = true ->
  authorized (api_call "GET" u k') ->
  well_formed_call c0 (api_call "GET" u k').
Proof.
  intros Hj Hu Ha. unfold well_formed_call.
  change (via (api_call "GET" u k')) with Request.
  split; [reflexivity | split; [exact Hj | split; [exact Hu | exact Ha]]].
Qed.

Lemma api_request_discipline u k :
  kw_json k = None ->
  (forall k', is_lookup (api_call "GET" u k') = true \/
              is_usage_events (api_call "GET" u k') = true) ->
  stable discipline (_api_request "GET" u k).
Proof.
  intros Hj Hu. unfold _api_request.
  repeat (stable_step || apply get_token_discipline); discipline_leaf.
  - apply api_call_well_formed;
      [exact Hj | apply Hu | apply with_headers_authorized].
  - apply api_call_well_formed;
      [exact Hj | apply Hu | apply set_authorization_authorized].
Qed.

Lemma customer_data_discipline : stable discipline _get_customer_data.
Proof.
  unfold _get_customer_data.
  repeat (stable_step || apply get_token_discipline
          || (apply api_request_discipline;
              [reflexivity | intros ?; left; reflexivity]));
    discipline_leaf.
Qed.

Lemma subscription_data_discipline : stable discipline _get_subscription_data.
Proof.
  unfold _get_subscription_data.
  repeat (stable_step || apply customer_data_discipline
          || (apply api_request_discipline;
              [reflexivity | intros ?; left; reflexivity]));
    discipline_leaf.
Qed.

Lemma fetch_consumption_discipline start end_ :
  stable discipline (fetch_consumption start end_).
Proof.
  unfold fetch_consumption, fetch_consumption_data, fetch_consumption_records.
  repeat (stable_step || apply subscription_data_discipline
          || (apply api_request_discipline;
              [reflexivity | intros ?; right; reflexivity]));
    discipline_leaf.
Qed.

Lemma test_authentication_discipline :
  stable discipline async_test_authentication.
Proof.
  unfold async_test_authentication.
  repeat (stable_step || apply get_token_discipline).
Qed.

Lemma session_discipline ops net w : discipline w (session ops net w).
Proof.
  revert w. induction ops as [| op ops IH]; intros w; simpl.
  - apply discipline_refl.
  - apply (discipline_trans w (perform op net w)); [| apply IH].
    destruct op; simpl;
      [apply test_authentication_discipline
      | apply fetch_consumption_discipline].
Qed.

End DisciplineOfMethods.

(** X10. Whatever the server answers, all the calls of a client, over any
    sequence of operations, are of two kinds: the POST to [/authenticate]
    with the credentials the client was constructed with, and GET requests
    without a body to the customer, subscription or usage-events URL, each
    with an [Authorization: Bearer ...] header, [Accept: application/json]
    and [Response-Type: full]. The credentials never change. *)
Theorem calls_are_well_formed (E : Env) (ops : list operation)
    (net : transport) (w : world) :
  let w' := session ops net w in
  _username (self w') = _username (self w) /\
  _password (self w') = _password (self w) /\
  exists new,
    calls w' = calls w ++ new /\
    Forall (fun c =>
              match via c with
              | Post => c = auth_request (self w)
              | Request =>
                  meth c = "GET" /\ kw_json (kw c) = None /\
                  (is_lookup c = true \/ is_usage_events c = true) /\
                  exists headers token,
                    kw_headers (kw c) = Some headers /\
                    dict_lookup "Authorization" headers =
                      Some [Lit "Bearer "; Fmt token] /\
                    dict_lookup "Accept" headers =
                      Some [Lit "application/json"] /\
                    dict_lookup "Response-Type" headers = Some [Lit "full"]
              end) new.
Proof. exact (session_discipline ops net w). Qed.

(* ================================================================== *)
(** * The sensors and their set-up *)
(* ================================================================== *)

(** ** Dates *)

(** The day number of the date [civil_from_days] gives is the number it
    was given. *)
Lemma days_from_civil_from_days z :
  let '(y, m, d) := civil_from_days z in days_from_civil y m d = z.
Proof.
  unfold civil_from_days, days_from_civil. cbv zeta.
  repeat match goal with
  | |- context [if ?b then _ else _] =>
      lazymatch b with
      | context [if _ then _ else _] => fail
      | _ => let E := fresh "E" in destruct b eqn:E
      end
  end.
  all: repeat match goal with
       | H : (_ <? _) = true |- _ => apply Z.ltb_lt in H
       | H : (_ <? _) = false |- _ => apply Z.ltb_ge in H
       | H : (_ <=? _) = true |- _ => apply Z.leb_le in H
       | H : (_ <=? _) = false |- _ => apply Z.leb_gt in H
       end.
  all: Z.div_mod_to_equations; lia.
Qed.

(** Subtracting days moves the day number and keeps the time of day. *)
Lemma sub_timedelta_day_number d days d' :
  Entities.sub_timedelta d days = Ok d' ->
  day_number d' = day_number d - days /\
  hour d' = hour d /\ minute d' = minute d /\ second d' = second d /\
  microsecond d' = microsecond d.
Proof.
  unfold Entities.sub_timedelta, day_number. cbv zeta.
  destruct (_ && _); [| discriminate].
  pose proof (days_from_civil_from_days
                (days_from_civil (year d) (month d) (day d) - days)) as R.
  destruct (civil_from_days _) as [[y m] dd].
  intros [= <-]. simpl. now repeat split.
Qed.

Example sub_timedelta_samples :
  Entities.sub_timedelta (at_time 2024 3 1 1) 1 = Ok (at_time 2024 2 29 1) /\
  Entities.sub_timedelta (at_time 2023 3 1 1) 1 = Ok (at_time 2023 2 28 1) /\
  Entities.sub_timedelta (at_time 2024 1 1 0) 1 = Ok (at_time 2023 12 31 0) /\
  Entities.sub_timedelta (at_time 2024 1 10 12) 15 = Ok (at_time 2023 12 26 12) /\
  Entities.sub_timedelta (at_time 2024 1 10 12) 30 = Ok (at_time 2023 12 11 12) /\
  Entities.sub_timedelta (at_time 1 1 1 0) 1 = Raise OverflowError /\
  Entities.sub_timedelta (at_time 1 1 15 0) 15 = Raise OverflowError /\
  Entities.sub_timedelta (at_time 1 1 16 0) 15 = Ok (at_time 1 1 1 0).
Proof. vm_compute. repeat split. Qed.

(** ** The sensors *)

Section HistoricalStates.
Context {E : Env} {H : Entities.Host}.
Variable value_of : ConsumptionRecord -> float.

Lemma historical_state_of_record r s :
  Entities.historical_state value_of r = Ok s -> state_of_record value_of r s.
Proof.
  unfold Entities.historical_state, state_of_record.
  destruct (Entities.astimezone (time_of_read r)) as [local zone]. simpl.
  destruct (Entities.sub_timedelta local 1) as [corrected |] eqn:Hs; simpl;
    [| discriminate].
  intros [= <-]. simpl. split; [reflexivity |].
  exists corrected. split; [reflexivity |].
  split; [apply (sub_timedelta_day_number local 1 corrected Hs) | reflexivity].
Qed.

Lemma historical_states_of_records records states :
  Entities.historical_states value_of records = Ok states ->
  Forall2 (state_of_record value_of) records states.
Proof.
  revert states. induction records as [|r records IH]; intros states; simpl.
  - intros [= <-]. constructor.
  - destruct (Entities.historical_state value_of r) as [s |] eqn:Hs; simpl;
      [| discriminate].
    destruct (Entities.historical_states value_of records) as [ss |]; simpl;
      [| discriminate].
    intros [= <-]. constructor;
      [now apply historical_state_of_record | now apply IH].
Qed.

(** The three ways [update_historical] ends. *)
Lemma update_historical_run days now_start now_end net w :
  let run := Entities.update_historical days value_of now_start now_end net w in
  match Entities.sub_timedelta now_start days with
  | Raise e => run = (Raise e, w)
  | Ok start =>
      let fetched := fetch_consumption (Some start) (Some now_end) net w in
      snd run = snd fetched /\
      match fst fetched with
      | Raise e => fst run = Raise e
      | Ok records => fst run = Entities.historical_states value_of records
      end
  end.
Proof.
  unfold Entities.update_historical. unfold_monad.
  destruct (Entities.sub_timedelta now_start days) as [start | e]; simpl;
    [| reflexivity].
  destruct (fetch_consumption (Some start) (Some now_end) net w)
    as [[records | e] w1]; simpl; [| now split].
  now split.
Qed.

End HistoricalStates.

(** X15. An update of a sensor's history either replaces the sensor's
    historical states or leaves them as they were: when the update raises
    (the request failed, an event did not parse, a date is out of range)
    the states of before are kept; when it returns, the new states are one
    per record [fetch_consumption] returned, in the same order, each with
    the record's consumption (energy sensor) or cost (cost sensor), dated
    one calendar day before the record's time of read at the same time of
    day. The states of the other sensor are never touched. *)
Theorem update_replaces_or_keeps (E : Env) (H : Entities.Host)
    (now_start now_end : datetime) (net : transport) (p : Entities.platform) :
  (let run := Entities.energy_async_update_historical now_start now_end net p in
   Entities.cost_historical_states (snd run) = Entities.cost_historical_states p /\
   (forall e, fst run = Raise e ->
              Entities.energy_historical_states (snd run) =
              Entities.energy_historical_states p) /\
   (fst run = Ok tt ->
    exists start records states,
      Entities.sub_timedelta now_start 15 = Ok start /\
      fst (fetch_consumption (Some start) (Some now_end) net
             (Entities.tridens_api p)) = Ok records /\
      Entities.energy_historical_states (snd run) = Some states /\
      Forall2 (state_of_record consumption) records states))
  /\
  (let run := Entities.cost_async_update_historical now_start now_end net p in
   Entities.energy_historical_states (snd run) =
     Entities.energy_historical_states p /\
   (forall e, fst run = Raise e ->
              Entities.cost_historical_states (snd run) =
              Entities.cost_historical_states p) /\
   (fst run = Ok tt ->
    exists start records states,
      Entities.sub_timedelta now_start 30 = Ok start /\
      fst (fetch_consumption (Some start) (Some now_end) net
             (Entities.tridens_api p)) = Ok records /\
      Entities.cost_historical_states (snd run) = Some states /\
      Forall2 (state_of_record cost) records states)).
Proof.
  split.
  - cbv zeta. unfold Entities.energy_async_update_historical.
    pose proof (update_historical_run consumption 15 now_start now_end net
                  (Entities.tridens_api p)) as R. cbv zeta in R.
    destruct (Entities.update_historical 15 consumption now_start now_end net
                (Entities.tridens_api p)) as [[states | e] w1]; simpl.
    + split; [reflexivity |]. split; [discriminate |]. intros _.
      destruct (Entities.sub_timedelta now_start 15) as [start |];
        [| discriminate].
      destruct R as [_ R]. simpl in R.
      destruct (fst (fetch_consumption (Some start) (Some now_end) net
                       (Entities.tridens_api p))) as [records |] eqn:Hf;
        [| discriminate].
      exists start, records, states. repeat split; try assumption.
      now apply historical_states_of_records.
    + split; [reflexivity |]. split; [reflexivity | discriminate].
  - cbv zeta. unfold Entities.cost_async_update_historical.
    pose proof (update_historical_run cost 30 now_start now_end net
                  (Entities.tridens_api p)) as R. cbv zeta in R.
    destruct (Entities.update_historical 30 cost now_start now_end net
                (Entities.tridens_api p)) as [[states | e] w1]; simpl.
    + split; [reflexivity |]. split; [discriminate |]. intros _.
      destruct (Entities.sub_timedelta now_start 30) as [start |];
        [| discriminate].
      destruct R as [_ R]. simpl in R.
      destruct (fst (fetch_consumption (Some start) (Some now_end) net
                       (Entities.tridens_api p))) as [records |] eqn:Hf;
        [| discriminate].
      exists start, records, states. repeat split; try assumption.
      now apply historical_states_of_records.
    + split; [reflexivity |]. split; [reflexivity | discriminate].
Qed.

(** ** Samples: a host in UTC whose Home Assistant is in UTC too *)

(** The usage event of the specification, read on 2023-11-14 at 22:13:20
    UTC, is dated the day before by both sensors. *)
Example sample_updates :
  let now := at_time 2023 11 20 6 in
  let read := {| year := 2023; month := 11; day := 13; hour := 22;
                 minute := 13; second := 20; microsecond := 0 |} in
  let first := Entities.energy_async_update_historical
                 (E := sample_env) (H := sample_host) now now resolving
                 sample_platform in
  let second := Entities.cost_async_update_historical
                  (E := sample_env) (H := sample_host) now now resolving
                  (snd first) in
  fst first = Ok tt /\
  Entities.energy_historical_states (snd first) = Some [reading read 12.5%float] /\
  Entities.cost_historical_states (snd first) = None /\
  fst second = Ok tt /\
  Entities.energy_historical_states (snd second) =
    Some [reading read 12.5%float] /\
  Entities.cost_historical_states (snd second) = Some [reading read 3.25%float] /\
  List.length (calls (Entities.tridens_api (snd first))) = 4%nat /\
  List.length (calls (Entities.tridens_api (snd second))) = 5%nat.
Proof. vm_compute. repeat split. Qed.

(** A failed update keeps the states. *)
Example failed_update_keeps_states :
  let now := at_time 2023 11 20 6 in
  let first := Entities.energy_async_update_historical
                 (E := sample_env) (H := sample_host) now now resolving
                 sample_platform in
  let second := Entities.energy_async_update_historical
                  (E := sample_env) (H := sample_host) now now
                  (always Fails) (snd first) in
  fst second = Raise CannotConnect /\
  Entities.energy_historical_states (snd second) =
    Entities.energy_historical_states (snd first) /\
  Entities.energy_historical_states (snd second) <> None.
Proof. vm_compute. repeat split. discriminate. Qed.

Section Window.
Context {E : Env} {H : Entities.Host}.

Lemma window_query_params start end_ :
  usage_events_params (Some start) (Some end_) = window_query start end_.
Proof. reflexivity. Qed.

Lemma update_historical_calls value_of days now_start now_end net w :
  let run := Entities.update_historical days value_of now_start now_end net w in
  match Entities.sub_timedelta now_start days with
  | Raise e => fst run = Raise e /\ calls (snd run) = calls w
  | Ok start =>
      exists new,
        calls (snd run) = calls w ++ new /\
        Forall (fun c => is_usage_events c = true ->
                         meth c = "GET" /\
                         kw_params (kw c) = Some (window_query start now_end))
               new
  end.
Proof.
  pose proof (update_historical_run value_of days now_start now_end net w) as R.
  cbv zeta in *.
  destruct (Entities.sub_timedelta now_start days) as [start | e].
  - destruct R as [-> _].
    apply (fetch_consumption_within
             (fun c => is_usage_events c = true ->
                       meth c = "GET" /\
                       kw_params (kw c) = Some (window_query start now_end))).
    + intros c. discriminate.
    + intros code k' _ _. discriminate.
    + intros g k' _ _. discriminate.
    + intros cid k' Hp _ _. split; [reflexivity | exact Hp].
  - rewrite R. now split.
Qed.

End Window.

(** X16. The energy sensor asks for the usage events of the last 15 days
    and the cost sensor for those of the last 30 days: every usage-events
    request of an update is a GET whose [time-from] is the first reading of
    the clock minus 15 (30) days and whose [time-to] is the second reading,
    each in milliseconds since the epoch. When that start date is out of
    range the update raises [OverflowError] and makes no call. *)
Theorem update_window (E : Env) (H : Entities.Host)
    (now_start now_end : datetime) (net : transport) (p : Entities.platform) :
  (let run := Entities.energy_async_update_historical now_start now_end net p in
   match Entities.sub_timedelta now_start 15 with
   | Raise e =>
       fst run = Raise e /\ e = OverflowError /\
       calls (Entities.tridens_api (snd run)) = calls (Entities.tridens_api p)
   | Ok start =>
       exists new,
         calls (Entities.tridens_api (snd run)) =
           calls (Entities.tridens_api p) ++ new /\
         Forall (fun c => is_usage_events c = true ->
                          meth c = "GET" /\
                          kw_params (kw c) = Some (window_query start now_end))
                new
   end)
  /\
  (let run := Entities.cost_async_update_historical now_start now_end net p in
   match Entities.sub_timedelta now_start 30 with
   | Raise e =>
       fst run = Raise e /\ e = OverflowError /\
       calls (Entities.tridens_api (snd run)) = calls (Entities.tridens_api p)
   | Ok start =>
       exists new,
         calls (Entities.tridens_api (snd run)) =
           calls (Entities.tridens_api p) ++ new /\
         Forall (fun c => is_usage_events c = true ->
                          meth c = "GET" /\
                          kw_params (kw c) = Some (window_query start now_end))
                new
   end).
Proof.
  assert (Hover : forall d n e, Entities.sub_timedelta d n = Raise e ->
                                e = OverflowError).
  { intros d n e. unfold Entities.sub_timedelta. cbv zeta.
    destruct (_ && _); [| now intros [= <-]].
    destruct (civil_from_days _) as [[? ?] ?]. discriminate. }
  split; cbv zeta.
  - unfold Entities.energy_async_update_historical.
    pose proof (update_historical_calls consumption 15 now_start now_end net
                  (Entities.tridens_api p)) as R. cbv zeta in R.
    destruct (Entities.sub_timedelta now_start 15) as [start | e] eqn:Hs;
      destruct (Entities.update_historical 15 consumption now_start now_end net
                  (Entities.tridens_api p)) as [[states | e'] w1];
      simpl in *; try exact R.
    + destruct R as [R _]. discriminate R.
    + destruct R as [R1 R2]. injection R1 as ->.
      repeat split; [now apply (Hover now_start 15) | exact R2].
  - unfold Entities.cost_async_update_historical.
    pose proof (update_historical_calls cost 30 now_start now_end net
                  (Entities.tridens_api p)) as R. cbv zeta in R.
    destruct (Entities.sub_timedelta now_start 30) as [start | e] eqn:Hs;
      destruct (Entities.update_historical 30 cost now_start now_end net
                  (Entities.tridens_api p)) as [[states | e'] w1];
      simpl in *; try exact R.
    + destruct R as [R _]. discriminate R.
    + destruct R as [R1 R2]. injection R1 as ->.
      repeat split; [now apply (Hover now_start 30) | exact R2].
Qed.

Section Sharing.
Context {E : Env} {H : Entities.Host}.

(** On a client with its identifiers resolved, an update makes no lookup
    and keeps the identifiers. *)
Lemma update_historical_resolved value_of days now_start now_end net w :
  is_resolved w ->
  let w' := snd (Entities.update_historical days value_of now_start now_end
                   net w) in
  (exists new,
      calls w' = calls w ++ new /\
      Forall (fun c => is_lookup c = false /\
                       (is_post c = true \/
                        url c = usage_events_url (_customer_id (self w))))
             new) /\
  same_identity w w'.
Proof.
  intros Hr w'. subst w'.
  pose proof (update_historical_run value_of days now_start now_end net w) as R.
  cbv zeta in R.
  destruct (Entities.sub_timedelta now_start days) as [start | e].
  - destruct R as [-> _]. destruct Hr as [Hc Hb]. split.
    + rewrite fetch_calls, fetch_data_resolved by assumption.
      apply (api_request_within
               (fun c => is_lookup c = false /\
                         (is_post c = true \/
                          url c = usage_events_url (_customer_id (self w))))).
      * intros c. split; [reflexivity | now left].
      * intros k' _ _. split; [reflexivity | now right].
    + apply fetch_resolved_identity. now split.
  - rewrite R. simpl. split; [| apply same_identity_refl].
    exists []. split; [now rewrite app_nil_r | constructor].
Qed.

End Sharing.

(** X17. The two sensors share one client: once an update of the energy
    sensor has left the customer and the balance group resolved, an update
    of the cost sensor makes no customer lookup and no subscription lookup
    (its calls are usage-events requests for the customer the energy sensor
    resolved, and authentications) and keeps the identifiers. *)
Theorem sensors_share_identifiers (E : Env) (H : Entities.Host)
    (now1 now2 now3 now4 : datetime) (net : transport)
    (p : Entities.platform) :
  let p1 := snd (Entities.energy_async_update_historical now1 now2 net p) in
  let w1 := Entities.tridens_api p1 in
  is_None (_customer_id (self w1)) = false ->
  is_None (_balance_group_id (self w1)) = false ->
  let p2 := snd (Entities.cost_async_update_historical now3 now4 net p1) in
  let w2 := Entities.tridens_api p2 in
  (exists new,
      calls w2 = calls w1 ++ new /\
      Forall (fun c => is_lookup c = false /\
                       (is_post c = true \/
                        url c = usage_events_url (_customer_id (self w1))))
             new) /\
  _customer_id (self w2) = _customer_id (self w1) /\
  _balance_group_id (self w2) = _balance_group_id (self w1) /\
  _group_id (self w2) = _group_id (self w1).
Proof.
  intros p1 w1 Hc Hb p2 w2.
  assert (Hw2 : w2 = snd (Entities.update_historical 30 cost now3 now4 net w1)).
  { subst w2 p2. unfold Entities.cost_async_update_historical. fold w1.
    now destruct (Entities.update_historical 30 cost now3 now4 net w1)
      as [[] ?]. }
  destruct (update_historical_resolved cost 30 now3 now4 net w1)
    as [Hcalls (_ & _ & Hi1 & Hi2 & Hi3)]; [now split |].
  rewrite <- Hw2 in *. now repeat split.
Qed.

Lemma sensors_share_identifiers_witness :
  let now := at_time 2023 11 20 6 in
  let p1 := snd (Entities.energy_async_update_historical
                   (E := sample_env) (H := sample_host) now now resolving
                   sample_platform) in
  let w1 := Entities.tridens_api p1 in
  let p2 := snd (Entities.cost_async_update_historical
                   (E := sample_env) (H := sample_host) now now resolving p1) in
  let w2 := Entities.tridens_api p2 in
  (exists new,
      calls w2 = calls w1 ++ new /\
      Forall (fun c => is_lookup c = false /\
                       (is_post c = true \/
                        url c = usage_events_url (_customer_id (self w1))))
             new) /\
  _customer_id (self w2) = _customer_id (self w1) /\
  _balance_group_id (self w2) = _balance_group_id (self w1) /\
  _group_id (self w2) = _group_id (self w1).
Proof.
  intros now.
  apply (sensors_share_identifiers sample_env sample_host now now now now
           resolving sample_platform).
  - vm_compute. reflexivity.
  - vm_compute. reflexivity.
Defined.

(** ** The set-up of the platform *)

Lemma append_inj_l (s a b : string) : (s ++ a = s ++ b)%string -> a = b.
Proof.
  induction s as [|c s IH]; simpl; [trivial |]. intros [= H]. now apply IH.
Qed.

Lemma truthy_iff (v : option string) :
  Entities.truthy v = true <-> exists s, v = Some s /\ s <> "".
Proof.
  unfold Entities.truthy. destruct v as [s |].
  - destruct (String.eqb_spec s ""); simpl; split.
    + discriminate.
    + intros (s' & [= <-] & Hne). congruence.
    + intros _. now exists s.
    + reflexivity.
  - split; [discriminate | intros (s & H & _); discriminate].
Qed.

(** X20. The set-up of the sensor platform raises [KeyError] when the
    integration has stored no device information for the entry, and else
    [ValueError] exactly when the entry's user name or password is missing
    or empty; otherwise it makes no network call and adds two entities, the
    energy sensor and the cost sensor, with the entry's device information,
    different unique ids, and one new client with the entry's credentials
    for both. *)
Theorem platform_setup (C : Entities.Const) (hass_data_ : Entities.hass_data)
    (config_entry : Entities.ConfigEntry) :
  let r := Entities.async_setup_entry hass_data_ config_entry in
  let stored :=
    match dict_lookup Entities.DOMAIN hass_data_ with
    | Some infos => dict_lookup (Entities.entry_id config_entry) infos
    | None => None
    end in
  let username := dict_lookup "username" (Entities.data config_entry) in
  let password := dict_lookup "password" (Entities.data config_entry) in
  (stored = None -> r = Raise KeyError) /\
  (forall device_info,
      stored = Some device_info ->
      (r = Raise ValueError <->
       (username = None \/ username = Some "" \/
        password = None \/ password = Some "")) /\
      (forall u p,
          username = Some u -> u <> "" -> password = Some p -> p <> "" ->
          exists energy cost,
            r = Ok ([energy; cost],
                    {| Entities.tridens_api :=
                         {| self := new_client u p; calls := []; logged := [] |};
                       Entities.energy_historical_states := None;
                       Entities.cost_historical_states := None |}) /\
            Entities._attr_device_info energy = device_info /\
            Entities._attr_device_info cost = device_info /\
            Entities._attr_device_class energy = Entities.ENERGY /\
            Entities._attr_device_class cost = Entities.MONETARY /\
            Entities._attr_unique_id energy =
              (Entities.entry_id config_entry ++ "_" ++ u ++ "_energy")%string /\
            Entities._attr_unique_id cost =
              (Entities.entry_id config_entry ++ "_" ++ u ++ "_cost")%string /\
            Entities._attr_unique_id energy <> Entities._attr_unique_id cost)).
Proof.
  cbv zeta. unfold Entities.async_setup_entry. split.
  - destruct (dict_lookup Entities.DOMAIN hass_data_) as [infos |];
      [| reflexivity].
    now intros ->.
  - intros device_info Hstored.
    destruct (dict_lookup Entities.DOMAIN hass_data_) as [infos |];
      [| discriminate].
    rewrite Hstored.
    unfold Entities.KaizenEnergySensor, Entities.KaizenEnergyCostSensor.
    destruct (dict_lookup "username" (Entities.data config_entry))
      as [u |] eqn:Hu;
      destruct (dict_lookup "password" (Entities.data config_entry))
        as [p |] eqn:Hp; simpl.
    + destruct (String.eqb_spec u "") as [-> | Hue];
        destruct (String.eqb_spec p "") as [-> | Hpe]; simpl.
      * split; [split; [intros _; tauto | reflexivity] |].
        intros u p [= <-] Hne. congruence.
      * split; [split; [intros _; tauto | reflexivity] |].
        intros u p' [= <-] Hne. congruence.
      * split; [split; [intros _; tauto | reflexivity] |].
        intros u' p [= <-] _ [= <-] Hne. congruence.
      * split.
        { split; [discriminate |].
          intros [H | [H | [H | H]]]; congruence. }
        intros u' p' [= <-] _ [= <-] _.
        eexists _, _. split; [reflexivity |]. simpl.
        repeat (split; [reflexivity |]).
        intros Heq. apply append_inj_l in Heq. injection Heq as Heq.
        apply append_inj_l in Heq. discriminate Heq.
    + split; [split; [intros _; tauto |] |].
      * intros _. now destruct (negb (String.eqb u "")).
      * intros u' p' _ _ [=].
    + split; [split; [intros _; tauto | reflexivity] |].
      intros u' p' [=].
    + split; [split; [intros _; tauto | reflexivity] |].
      intros u' p' [=].
Qed.

(* ================================================================== *)
(** * The integration and the configuration flow *)
(* ================================================================== *)

(** ** The set-up of the integration *)

Lemma dict_lookup_filter_same {V} k (d : list (string * V)) :
  dict_lookup k (filter (fun kv => negb (String.eqb k (fst kv))) d) = None.
Proof.
  induction d as [|[k' v] d IH]; simpl; [reflexivity |].
  destruct (String.eqb k k') eqn:Ek; simpl; [exact IH |].
  now rewrite Ek.
Qed.

Lemma dict_lookup_filter_other {V} k k' (d : list (string * V)) :
  k' <> k ->
  dict_lookup k' (filter (fun kv => negb (String.eqb k (fst kv))) d) =
  dict_lookup k' d.
Proof.
  intros Hne. induction d as [|[k0 v] d IH]; simpl; [reflexivity |].
  destruct (String.eqb_spec k k0) as [<- | Hk]; simpl.
  - destruct (String.eqb_spec k' k); [congruence | exact IH].
  - destruct (String.eqb k' k0); [reflexivity | exact IH].
Qed.

Lemma dict_lookup_setdefault {V} k k' (v : V) d :
  dict_lookup k' (Entities.setdefault k v d) =
  match dict_lookup k' d with
  | Some x => Some x
  | None => if String.eqb k' k then Some v else None
  end.
Proof.
  unfold Entities.setdefault.
  destruct (dict_lookup k d) as [x |] eqn:Hk.
  - destruct (dict_lookup k' d) eqn:Hk'; [reflexivity |].
    destruct (String.eqb_spec k' k); [congruence | reflexivity].
  - destruct (String.eqb_spec k' k) as [-> | Hne].
    + now rewrite dict_lookup_set_same, Hk.
    + rewrite dict_lookup_set_other by congruence.
      now destruct (dict_lookup k' d).
Qed.

Lemma string_eqb_sym (a b : string) : String.eqb a b = String.eqb b a.
Proof.
  destruct (String.eqb_spec a b), (String.eqb_spec b a); congruence.
Qed.

Section IntegrationFacts.
Context {C : Entities.Const}.

Lemma setup_stores forward hass entry :
  let after :=
    Integration.hass_data_
      (snd (Integration.async_setup_entry forward hass entry)) in
  stored_info after entry = Some Integration.get_device_info /\
  others_kept entry (Integration.hass_data_ hass) after.
Proof.
  cbv zeta.
  assert (Hd : Integration.hass_data_
                 (snd (Integration.async_setup_entry forward hass entry)) =
               let data0 := Entities.setdefault Entities.DOMAIN []
                              (Integration.hass_data_ hass) in
               dict_set Entities.DOMAIN
                 (dict_set (Entities.entry_id entry) Integration.get_device_info
                    match dict_lookup Entities.DOMAIN data0 with
                    | Some i => i
                    | None => []
                    end) data0).
  { unfold Integration.async_setup_entry. now destruct forward. }
  rewrite Hd. cbv zeta. clear Hd.
  unfold others_kept, stored_info.
  rewrite !dict_lookup_set_same. split; [reflexivity |].
  split.
  - intros other Hne. rewrite ?dict_lookup_set_same. cbv beta iota.
    rewrite dict_lookup_set_other by congruence.
    rewrite dict_lookup_setdefault, String.eqb_refl.
    now destruct (dict_lookup Entities.DOMAIN (Integration.hass_data_ hass)).
  - intros domain Hne. rewrite dict_lookup_set_other by congruence.
    rewrite dict_lookup_setdefault.
    destruct (dict_lookup domain (Integration.hass_data_ hass));
      [reflexivity |].
    destruct (String.eqb_spec domain Entities.DOMAIN); [congruence | reflexivity].
Qed.

Lemma unload_removes hass entry info :
  stored_info (Integration.hass_data_ hass) entry = Some info ->
  let run := Integration.async_unload_entry (Ok true) hass entry in
  fst run = Ok true /\
  stored_info (Integration.hass_data_ (snd run)) entry = None /\
  others_kept entry (Integration.hass_data_ hass)
    (Integration.hass_data_ (snd run)).
Proof.
  unfold others_kept, stored_info, Integration.async_unload_entry,
    Entities.pop. cbv zeta. simpl.
  destruct (dict_lookup Entities.DOMAIN (Integration.hass_data_ hass))
    as [infos |] eqn:Hd; [| discriminate].
  intros Hi. rewrite Hi. simpl. split; [reflexivity |].
  rewrite !dict_lookup_set_same. split; [apply dict_lookup_filter_same |].
  split.
  - intros other Hne. rewrite ?dict_lookup_set_same.
    now apply dict_lookup_filter_other.
  - intros domain Hne. now rewrite dict_lookup_set_other by congruence.
Qed.

Lemma unload_absent hass entry :
  stored_info (Integration.hass_data_ hass) entry = None ->
  let run := Integration.async_unload_entry (Ok true) hass entry in
  fst run = Raise KeyError /\
  Integration.hass_data_ (snd run) = Integration.hass_data_ hass.
Proof.
  unfold stored_info, Integration.async_unload_entry, Entities.pop.
  cbv zeta. simpl.
  destruct (dict_lookup Entities.DOMAIN (Integration.hass_data_ hass))
    as [infos |]; [| now split].
  intros ->. now split.
Qed.

End IntegrationFacts.

Lemma others_kept_refl {C : Entities.Const} entry d : others_kept entry d d.
Proof. now split. Qed.

Lemma others_kept_trans {C : Entities.Const} entry d1 d2 d3 :
  others_kept entry d1 d2 -> others_kept entry d2 d3 -> others_kept entry d1 d3.
Proof.
  intros [H1 H2] [H3 H4]. split.
  - intros other Hne. now rewrite H3, H1.
  - intros domain Hne. now rewrite H4, H2.
Qed.

Section IntegrationRuns.
Context {C : Entities.Const}.

Lemma setup_calls forward hass entry :
  let run := Integration.async_setup_entry forward hass entry in
  match forward with
  | Ok _ =>
      fst run = Ok true /\
      Integration.framework_calls (snd run) =
        Integration.framework_calls hass ++
        [Integration.async_forward_entry_setups entry Integration.PLATFORMS;
         Integration.add_update_listener entry]
  | Raise e =>
      fst run = Raise e /\
      Integration.framework_calls (snd run) =
        Integration.framework_calls hass ++
        [Integration.async_forward_entry_setups entry Integration.PLATFORMS]
  end.
Proof.
  unfold Integration.async_setup_entry. destruct forward; cbn.
  - now rewrite <- app_assoc.
  - now split.
Qed.

Lemma unload_calls unload hass entry :
  Integration.framework_calls
    (snd (Integration.async_unload_entry unload hass entry)) =
  Integration.framework_calls hass ++
  [Integration.async_unload_platforms entry Integration.PLATFORMS].
Proof.
  unfold Integration.async_unload_entry. cbn.
  destruct unload as [[|] | e]; try reflexivity.
  destruct (dict_lookup Entities.DOMAIN (Integration.hass_data_ hass));
    [| reflexivity].
  now destruct (Entities.pop (Entities.entry_id entry) l).
Qed.

Lemma unload_not_done unload hass entry :
  unload <> Ok true ->
  let run := Integration.async_unload_entry unload hass entry in
  fst run = unload /\
  Integration.hass_data_ (snd run) = Integration.hass_data_ hass.
Proof.
  unfold Integration.async_unload_entry.
  destruct unload as [[|] | e]; [congruence | now split | now split].
Qed.

Lemma platform_after_unload hass_data_ entry :
  stored_info hass_data_ entry = None ->
  Entities.async_setup_entry hass_data_ entry = Raise KeyError.
Proof.
  unfold stored_info, Entities.async_setup_entry.
  destruct (dict_lookup Entities.DOMAIN hass_data_); [| reflexivity].
  now intros ->.
Qed.

Lemma platform_after_setup hass_data_ entry info :
  stored_info hass_data_ entry = Some info ->
  Entities.async_setup_entry hass_data_ entry <> Raise KeyError /\
  forall sensors p,
    Entities.async_setup_entry hass_data_ entry = Ok (sensors, p) ->
    Forall (fun s => Entities._attr_device_info s = info) sensors.
Proof.
  unfold stored_info, Entities.async_setup_entry.
  destruct (dict_lookup Entities.DOMAIN hass_data_); [| discriminate].
  intros ->. cbv zeta.
  destruct (negb _); [split; [discriminate | discriminate] |].
  destruct (dict_lookup "username" (Entities.data entry));
    [| split; discriminate].
  destruct (dict_lookup "password" (Entities.data entry));
    [| split; discriminate].
  split; [discriminate |].
  intros sensors p [= <- _]. now repeat constructor.
Qed.

Lemma unload_cases_aux unload hass entry :
  let run := Integration.async_unload_entry unload hass entry in
  match unload with
  | Ok true =>
      match stored_info (Integration.hass_data_ hass) entry with
      | Some _ =>
          fst run = Ok true /\
          stored_info (Integration.hass_data_ (snd run)) entry = None /\
          others_kept entry (Integration.hass_data_ hass)
            (Integration.hass_data_ (snd run))
      | None =>
          fst run = Raise KeyError /\
          Integration.hass_data_ (snd run) = Integration.hass_data_ hass
      end
  | _ =>
      fst run = unload /\
      Integration.hass_data_ (snd run) = Integration.hass_data_ hass
  end.
Proof.
  cbv zeta. destruct unload as [[|] | e].
  - destruct (stored_info (Integration.hass_data_ hass) entry) as [info |] eqn:Hs.
    + now apply (unload_removes hass entry info).
    + now apply unload_absent.
  - now apply unload_not_done.
  - now apply unload_not_done.
Qed.

End IntegrationRuns.

(** X18. The set-up of the integration stores the device information of
    the entry in [hass.data] before it forwards the set-up to the sensor
    platform, and keeps what [hass.data] holds for other entries and other
    domains. The set-up of the platform therefore finds it ([KeyError] is
    not raised) and gives it to every entity it adds. When forwarding
    raises, the exception leaves the set-up, no update listener is
    registered, and the device information stays stored. *)
Theorem setup_then_platform (C : Entities.Const) (forward : result unit)
    (hass : Integration.HomeAssistant) (entry : Entities.ConfigEntry) :
  let run := Integration.async_setup_entry forward hass entry in
  let after := Integration.hass_data_ (snd run) in
  let forwarded :=
    Integration.framework_calls hass ++
    [Integration.async_forward_entry_setups entry Integration.PLATFORMS] in
  stored_info after entry = Some Integration.get_device_info /\
  others_kept entry (Integration.hass_data_ hass) after /\
  Entities.async_setup_entry after entry <> Raise KeyError /\
  (forall sensors p,
      Entities.async_setup_entry after entry = Ok (sensors, p) ->
      Forall (fun s => Entities._attr_device_info s =
                       Integration.get_device_info) sensors) /\
  (forward = Ok tt ->
   fst run = Ok true /\
   Integration.framework_calls (snd run) =
     forwarded ++ [Integration.add_update_listener entry]) /\
  (forall e,
      forward = Raise e ->
      fst run = Raise e /\
      Integration.framework_calls (snd run) = forwarded).
Proof.
  cbv zeta.
  destruct (setup_stores forward hass entry) as [Hs Hk].
  destruct (platform_after_setup _ _ _ Hs) as [Hne Hall].
  pose proof (setup_calls forward hass entry) as Hc. cbv zeta in Hc.
  repeat (split; [assumption |]). split.
  - intros ->. now rewrite <- app_assoc.
  - now intros e ->.
Qed.

(** The sensors a set-up of the integration and of the platform gives. *)
Example setup_sample_entry :
  let C := {| Entities.DOMAIN := "tridens"; Entities.NAME := "Kaizen" |} in
  let entry := {| Entities.entry_id := "e1";
                  Entities.data := [("username", "user");
                                    ("password", "secret")] |} in
  let hass := {| Integration.hass_data_ := [];
                 Integration.framework_calls := [];
                 Integration.hass_logged := [] |} in
  let after :=
    Integration.hass_data_
      (snd (Integration.async_setup_entry (Ok tt) hass entry)) in
  after = [("tridens", [("e1", Integration.get_device_info)])] /\
  exists energy cost p,
    Entities.async_setup_entry after entry = Ok ([energy; cost], p) /\
    Entities._attr_unique_id energy = "e1_user_energy" /\
    Entities._attr_unique_id cost = "e1_user_cost" /\
    self (Entities.tridens_api p) = new_client "user" "secret".
Proof.
  cbv zeta. split; [reflexivity |].
  eexists _, _, _. repeat split.
Qed.

(** X19. Unloading an entry asks Home Assistant once to unload the
    platforms. When that returns true, the entry's device information is
    removed from [hass.data] and the rest is kept, or [KeyError] is raised
    when none is stored for the entry; when it returns false or raises,
    [hass.data] is left as it is and the result is passed on. After an
    unload that removed the information, the set-up of the platform raises
    [KeyError]. *)
Theorem unload_cases (C : Entities.Const) (unload : result bool)
    (hass : Integration.HomeAssistant) (entry : Entities.ConfigEntry) :
  let run := Integration.async_unload_entry unload hass entry in
  let before := Integration.hass_data_ hass in
  let after := Integration.hass_data_ (snd run) in
  Integration.framework_calls (snd run) =
    Integration.framework_calls hass ++
    [Integration.async_unload_platforms entry Integration.PLATFORMS] /\
  (unload <> Ok true -> fst run = unload /\ after = before) /\
  (unload = Ok true ->
   match stored_info before entry with
   | Some _ =>
       fst run = Ok true /\
       stored_info after entry = None /\
       others_kept entry before after /\
       Entities.async_setup_entry after entry = Raise KeyError
   | None => fst run = Raise KeyError /\ after = before
   end).
Proof.
  cbv zeta. split; [apply unload_calls |].
  split; [apply unload_not_done |].
  intros ->. destruct (stored_info (Integration.hass_data_ hass) entry)
    as [info |] eqn:Hs.
  - destruct (unload_removes hass entry info Hs) as (H1 & H2 & H3).
    repeat (split; [assumption |]).
    now apply platform_after_unload.
  - now apply unload_absent.
Qed.

(** X21. A set-up followed by an unload that Home Assistant accepts leaves
    [hass.data] without device information for the entry and with all it
    held for other entries and other domains, whether or not the entry was
    stored before. *)
Theorem setup_unload_round_trip (C : Entities.Const) (forward : result unit)
    (hass : Integration.HomeAssistant) (entry : Entities.ConfigEntry) :
  let mid := snd (Integration.async_setup_entry forward hass entry) in
  let run := Integration.async_unload_entry (Ok true) mid entry in
  fst run = Ok true /\
  stored_info (Integration.hass_data_ (snd run)) entry = None /\
  others_kept entry (Integration.hass_data_ hass)
    (Integration.hass_data_ (snd run)).
Proof.
  cbv zeta.
  destruct (setup_stores forward hass entry) as [Hs Hk].
  destruct (unload_removes _ entry _ Hs) as (H1 & H2 & H3).
  repeat (split; [assumption |]).
  now apply (others_kept_trans entry _ _ _ Hk).
Qed.

(** X22. A reload does not look at what the unload returned. It returns
    exactly when the unload did not raise and forwarding the set-up
    returned, also when Home Assistant refused to unload the platforms;
    the calls it has then made are the unload of the platforms, the
    forwarded set-up and the registration of one more update listener, in
    this order, and [hass.data] holds the entry's device information. *)
Theorem reload_ignores_unload_result (C : Entities.Const)
    (unload : result bool) (forward : result unit)
    (hass : Integration.HomeAssistant) (entry : Entities.ConfigEntry) :
  let run := Integration.async_reload_entry unload forward hass entry in
  let before := Integration.hass_data_ hass in
  let after := Integration.hass_data_ (snd run) in
  (fst run = Ok tt <->
   forward = Ok tt /\
   (unload = Ok false \/
    unload = Ok true /\ stored_info before entry <> None)) /\
  (fst run = Ok tt ->
   stored_info after entry = Some Integration.get_device_info /\
   others_kept entry before after /\
   Integration.framework_calls (snd run) =
     Integration.framework_calls hass ++
     [Integration.async_unload_platforms entry Integration.PLATFORMS;
      Integration.async_forward_entry_setups entry Integration.PLATFORMS;
      Integration.add_update_listener entry]).
Proof.
  cbv zeta. unfold Integration.async_reload_entry.
  pose proof (unload_calls unload hass entry) as Huc.
  pose proof (unload_cases_aux unload hass entry) as Hu.
  destruct (Integration.async_unload_entry unload hass entry) as [r h1] eqn:Hun.
  cbn [fst snd] in *.
  pose proof (setup_stores forward h1 entry) as [Hs Hk]. 
  pose proof (setup_calls forward h1 entry) as Hsc. cbv zeta in Hsc.
  destruct (Integration.async_setup_entry forward h1 entry) as [r2 h2] eqn:Hse.
  cbn [fst snd] in *.
  destruct unload as [[|] | e].
  - destruct (stored_info (Integration.hass_data_ hass) entry) as [info |] eqn:Hst.
    + destruct Hu as (-> & _ & Hk1).
      destruct forward as [[] | e2]; destruct Hsc as [-> Hsc]; cbn [fst snd].
      * split; [split; [intros _; split; [reflexivity | right; split; [reflexivity | discriminate]] | reflexivity] |].
        intros _. split; [assumption |]. split.
        { now apply (others_kept_trans entry _ _ _ Hk1). }
        rewrite Hsc, Huc, <- app_assoc. reflexivity.
      * split; [split; [discriminate | intros [[=] _]] | discriminate].
    + destruct Hu as (-> & _). cbn [fst snd].
      split; [split; [discriminate | intros [_ [[=] | [_ H]]]; congruence] | discriminate].
  - destruct Hu as (-> & Hd).
    destruct forward as [[] | e2]; destruct Hsc as [-> Hsc]; cbn [fst snd].
    * split; [split; [intros _; split; [reflexivity | now left] | reflexivity] |].
      intros _. split; [assumption |]. split.
      { now rewrite Hd in Hk. }
      rewrite Hsc, Huc, <- app_assoc. reflexivity.
    * split; [split; [discriminate | intros [[=] _]] | discriminate].
  - destruct Hu as (-> & Hd). cbn [fst snd].
    split; [split; [discriminate | intros [_ [[=] | [[=] _]]]] | discriminate].
Qed.

(** ** The configuration flow *)

Section TokenCases.
Context {E : Env}.

(** The failures of [async_get_token], by the answer of the endpoint. *)
Lemma get_token_cases net w :
  let answer := net (calls w) (auth_request (self w)) in
  let r := fst (async_get_token net w) in
  (answer = Fails -> r = Raise CannotConnect) /\
  (forall resp,
      answer = Responds resp -> unauthorized resp = true ->
      r = Raise InvalidAuth) /\
  (forall resp,
      answer = Responds resp -> unauthorized resp = false ->
      400 <= status resp -> r = Raise CannotConnect) /\
  (forall resp d,
      answer = Responds resp -> status resp < 400 ->
      content resp = Json (VDict d) -> token_of d = None ->
      r = Raise CannotConnect).
Proof.
  cbv zeta.
  unfold async_get_token, _set_customer_code_from_token. unfold_monad.
  unfold id. cbn -[auth_request unauthorized].
  destruct (net (calls w) (auth_request (self w))) as [resp |] eqn:Hnet;
    cbn -[auth_request unauthorized].
  2:{ repeat split; intros; discriminate. }
  split; [discriminate |].
  split; [intros ? [= <-] ->; reflexivity |].
  split.
  - intros ? [= <-] -> Hge. unfold raise_for_status.
    apply Z.leb_le in Hge. now rewrite Hge.
  - intros ? d [= <-] Hlt Hjson Htok.
    rewrite (unauthorized_below_400 resp Hlt).
    unfold raise_for_status, response_json.
    apply Z.leb_gt in Hlt. rewrite Hlt, Hjson. simpl.
    unfold token_of in Htok.
    destruct (dict_lookup "access_token" d); [discriminate |].
    now rewrite Htok.
Qed.

(** [async_get_token] returns only a token it found and decoded. *)
Lemma get_token_Ok net w t :
  fst (async_get_token net w) = Ok t ->
  exists resp d payload,
    net (calls w) (auth_request (self w)) = Responds resp /\
    status resp < 400 /\
    content resp = Json (VDict d) /\
    token_of d = Some t /\
    jwt_decode t = Some payload.
Proof.
  unfold async_get_token, _set_customer_code_from_token. unfold_monad.
  unfold id. cbn -[auth_request unauthorized].
  destruct (net (calls w) (auth_request (self w))) as [resp |] eqn:Hnet;
    cbn -[auth_request unauthorized]; [| discriminate].
  destruct (unauthorized resp); cbn -[auth_request]; [discriminate |].
  unfold raise_for_status, response_json.
  destruct (400 <=? status resp) eqn:Hst; cbn -[auth_request];
    [discriminate |].
  apply Z.leb_gt in Hst.
  destruct (content resp) as [v | |] eqn:Hc; cbn -[auth_request];
    try discriminate.
  destruct v as [| | | | s | l | d]; cbn -[auth_request]; try discriminate.
  - destruct (is_substring _ _); cbn -[auth_request]; [discriminate |].
    destruct (is_substring _ _); cbn -[auth_request]; discriminate.
  - destruct (existsb _ l); cbn -[auth_request]; [discriminate |].
    destruct (existsb _ l); cbn -[auth_request]; discriminate.
  - unfold token_of.
    destruct (dict_lookup "access_token" d) as [t1 |] eqn:Ha;
      cbn -[auth_request].
    + destruct (jwt_decode t1) as [payload |] eqn:Hj; cbn -[auth_request];
        [| discriminate].
      intros [= <-]. exists resp, d, payload.
      repeat split; try assumption; try reflexivity.
      unfold dict in *. now rewrite Ha.
    + destruct (dict_lookup "token" d) as [t1 |] eqn:Ht; cbn -[auth_request];
        [| discriminate].
      destruct (jwt_decode t1) as [payload |] eqn:Hj; cbn -[auth_request];
        [| discriminate].
      intros [= <-]. exists resp, d, payload.
      repeat split; try assumption; try reflexivity.
      unfold dict in *. now rewrite Ha, Ht.
Qed.

End TokenCases.

Section FlowRuns.
Context {E : Env}.

(** The step on a form that has both names and a new unique id. *)
Lemma step_user_run abort_reason user_input net u p :
  dict_lookup "username" user_input = Some u ->
  dict_lookup "password" user_input = Some p ->
  abort_reason u = None ->
  ConfigFlow.async_step_user abort_reason (Some user_input) net =
  match async_get_token net (hub_of u p) with
  | (Ok _, w) =>
      (ConfigFlow.Returns (ConfigFlow.CreateEntry u user_input),
       {| ConfigFlow.requests := calls w;
          ConfigFlow.records := logged w ++
            [(INFO, "Simulating successful authentication for %s")] |})
  | (Raise CannotConnect, w) =>
      (form_with "cannot_connect",
       {| ConfigFlow.requests := calls w; ConfigFlow.records := logged w |})
  | (Raise InvalidAuth, w) =>
      (form_with "invalid_auth",
       {| ConfigFlow.requests := calls w; ConfigFlow.records := logged w |})
  | (Raise _, w) =>
      (form_with "unknown",
       {| ConfigFlow.requests := calls w;
          ConfigFlow.records := logged w ++ [(ERROR, "Unexpected exception")] |})
  end.
Proof.
  intros Hu Hp Hab.
  unfold ConfigFlow.async_step_user, ConfigFlow.validate_input,
    async_test_authentication, hub_of, form_with.
  rewrite Hu, Hab, Hp. unfold_monad.
  destruct (async_get_token net _) as [[t | e] w]; [reflexivity |].
  now destruct e.
Qed.

Lemma step_user_requests abort_reason user_input net u p :
  dict_lookup "username" user_input = Some u ->
  dict_lookup "password" user_input = Some p ->
  abort_reason u = None ->
  ConfigFlow.requests
    (snd (ConfigFlow.async_step_user abort_reason (Some user_input) net)) =
  [auth_request (new_client u p)].
Proof.
  intros Hu Hp Hab. rewrite (step_user_run _ _ _ u p Hu Hp Hab).
  pose proof (get_token_calls net (hub_of u p)) as Hc.
  destruct (async_get_token net (hub_of u p)) as [[t | e] w];
    [exact Hc |].
  now destruct e.
Qed.

End FlowRuns.

(** X23. A submitted form with a user name that is not configured yet and
    a password makes exactly one call, the authentication with the form's
    credentials, and no exception leaves the step. The entry is created,
    with the user name as title and the form as data, when the endpoint
    answers with a status below 400 and a token that decodes. Else the form
    is shown again: with [invalid_auth] on 401 or 403, with
    [cannot_connect] on a network failure, on another status of 400 or
    more and on an answer without token, and with [unknown] (and an error
    logged) when the token does not decode. *)
Theorem submission_outcome (E : Env) (abort_reason : string -> option string)
    (user_input : list (string * string)) (net : transport) (u p : string) :
  dict_lookup "username" user_input = Some u ->
  dict_lookup "password" user_input = Some p ->
  abort_reason u = None ->
  let answer := net [] (auth_request (new_client u p)) in
  let run := ConfigFlow.async_step_user abort_reason (Some user_input) net in
  ConfigFlow.requests (snd run) = [auth_request (new_client u p)] /\
  (answer = Fails -> fst run = form_with "cannot_connect") /\
  (forall resp,
      answer = Responds resp ->
      (status resp = 401 \/ status resp = 403 ->
       fst run = form_with "invalid_auth") /\
      (400 <= status resp -> status resp <> 401 -> status resp <> 403 ->
       fst run = form_with "cannot_connect") /\
      (forall d,
          status resp < 400 -> content resp = Json (VDict d) ->
          match token_of d with
          | None => fst run = form_with "cannot_connect"
          | Some t =>
              match jwt_decode t with
              | Some _ =>
                  fst run =
                  ConfigFlow.Returns (ConfigFlow.CreateEntry u user_input)
              | None =>
                  fst run = form_with "unknown" /\
                  In (ERROR, "Unexpected exception")
                     (ConfigFlow.records (snd run))
              end
          end)).
Proof.
  intros Hu Hp Hab answer run. subst answer run.
  split; [now apply step_user_requests with (p := p) |].
  rewrite (step_user_run _ _ _ u p Hu Hp Hab).
  destruct (get_token_cases net (hub_of u p)) as (Hfail & Hun & Hst & Hno).
  cbv zeta in *. change (calls (hub_of u p)) with (@nil request) in *.
  change (self (hub_of u p)) with (new_client u p) in *.
  split.
  - intros Ha. specialize (Hfail Ha).
    destruct (async_get_token net (hub_of u p)) as [r w]. simpl in Hfail.
    now subst r.
  - intros resp Ha. split; [| split].
    + intros H401. apply unauthorized_iff in H401.
      specialize (Hun resp Ha H401).
      destruct (async_get_token net (hub_of u p)) as [r w]. simpl in Hun.
      now subst r.
    + intros Hge H1 H3.
      assert (Hf : unauthorized resp = false).
      { destruct (unauthorized resp) eqn:Hq; [| reflexivity].
        apply unauthorized_iff in Hq. tauto. }
      specialize (Hst resp Ha Hf Hge).
      destruct (async_get_token net (hub_of u p)) as [r w]. simpl in Hst.
      now subst r.
    + intros d Hlt Hjson.
      destruct (token_of d) as [t |] eqn:Htok.
      * rewrite (get_token_found net (hub_of u p) resp d t Ha Hlt Hjson Htok).
        cbv zeta. destruct (jwt_decode t); [reflexivity |].
        split; [reflexivity |]. cbn. right. now left.
      * specialize (Hno resp d Ha Hlt Hjson Htok).
        destruct (async_get_token net (hub_of u p)) as [r w]. simpl in Hno.
        now subst r.
Qed.

Lemma submission_outcome_witness :
  let input := [("username", "user"); ("password", "secret")] in
  let run net :=
    ConfigFlow.async_step_user (E := sample_env) (fun _ => None)
      (Some input) net in
  fst (run (always (token_response "T1"))) =
    ConfigFlow.Returns (ConfigFlow.CreateEntry "user" input) /\
  fst (run (always (status_only 401))) = form_with "invalid_auth" /\
  fst (run (always (status_only 500))) = form_with "cannot_connect" /\
  fst (run (always Fails)) = form_with "cannot_connect" /\
  fst (run (always (ok_json (VDict [("token", VInt 5)])))) =
    form_with "unknown".
Proof.
  intros input run.
  assert (H : forall net,
             let answer :=
               net [] (auth_request (E := sample_env)
                         (new_client "user" "secret")) in
             _ /\ _ /\ _) by
    (intros net;
     exact (submission_outcome sample_env (fun _ => None) input net
              "user" "secret" eq_refl eq_refl eq_refl)).
  split; [| split; [| split; [| split]]].
  - destruct (H (always (token_response "T1"))) as (_ & _ & H1).
    destruct (H1 _ eq_refl) as (_ & _ & H2).
    apply (H2 [("access_token", VStr "T1")]); [simpl; lia | reflexivity].
  - destruct (H (always (status_only 401))) as (_ & _ & H1).
    destruct (H1 _ eq_refl) as (H2 & _). apply H2. now left.
  - destruct (H (always (status_only 500))) as (_ & _ & H1).
    destruct (H1 _ eq_refl) as (_ & H2 & _).
    apply H2; simpl; lia.
  - destruct (H (always Fails)) as (_ & H1 & _). now apply H1.
  - destruct (H (always (ok_json (VDict [("token", VInt 5)])))) as (_ & _ & H1).
    destruct (H1 _ eq_refl) as (_ & _ & H2).
    apply (H2 [("token", VInt 5)]); [simpl; lia | reflexivity].
Defined.

(** X24. The flow creates an entry only after an authentication that
    succeeded: the form has a user name, which is the entry's title and
    was not configured before, and a password, the form is the entry's
    data, and the endpoint answered the one call with a status below 400
    and a token that decodes. *)
Theorem entry_only_when_authenticated (E : Env)
    (abort_reason : string -> option string)
    (user_input : option (list (string * string))) (net : transport)
    (title : string) (data : list (string * string)) :
  fst (ConfigFlow.async_step_user abort_reason user_input net) =
    ConfigFlow.Returns (ConfigFlow.CreateEntry title data) ->
  user_input = Some data /\
  dict_lookup "username" data = Some title /\
  abort_reason title = None /\
  exists p resp d t payload,
    dict_lookup "password" data = Some p /\
    net [] (auth_request (new_client title p)) = Responds resp /\
    status resp < 400 /\
    content resp = Json (VDict d) /\
    token_of d = Some t /\
    jwt_decode t = Some payload.
Proof.
  destruct user_input as [input |]; [| discriminate].
  destruct (dict_lookup "username" input) as [u |] eqn:Hu.
  2:{ unfold ConfigFlow.async_step_user. rewrite Hu. discriminate. }
  destruct (abort_reason u) as [reason |] eqn:Hab.
  { unfold ConfigFlow.async_step_user. rewrite Hu, Hab. discriminate. }
  destruct (dict_lookup "password" input) as [p |] eqn:Hp.
  2:{ unfold ConfigFlow.async_step_user, ConfigFlow.validate_input.
      rewrite Hu, Hab, Hp. discriminate. }
  rewrite (step_user_run _ _ _ u p Hu Hp Hab).
  pose proof (get_token_Ok net (hub_of u p)) as Hok.
  destruct (async_get_token net (hub_of u p)) as [[t | e] w].
  - intros [= <- <-]. destruct (Hok t eq_refl) as (resp & d & payload & H).
    repeat (split; [assumption || reflexivity |]).
    exists p, resp, d, t, payload. split; [assumption | exact H].
  - now destruct e.
Qed.

Lemma entry_only_when_authenticated_witness :
  let input := [("username", "user"); ("password", "secret")] in
  Some input = Some input /\
  dict_lookup "username" input = Some "user" /\
  (fun _ : string => @None string) "user" = None /\
  exists p resp d t payload,
    dict_lookup "password" input = Some p /\
    always (token_response "T1") []
      (auth_request (E := sample_env) (new_client "user" p)) = Responds resp /\
    status resp < 400 /\
    content resp = Json (VDict d) /\
    token_of d = Some t /\
    jwt_decode (Env := sample_env) t = Some payload.
Proof.
  intros input.
  apply (entry_only_when_authenticated sample_env (fun _ => None)
           (Some input) (always (token_response "T1")) "user" input).
  vm_compute. reflexivity.
Defined.

(** X25. A step of the flow makes at most one call, and none without a
    form, for a form without user name or password, or for a user name
    that is configured already. Without a form it shows the empty form. The
    only exception that leaves it, besides the abort of a configured user
    name, is the [KeyError] of a form without user name; a form without
    password is shown again with [unknown]. *)
Theorem step_outcomes (E : Env) (abort_reason : string -> option string)
    (user_input : option (list (string * string))) (net : transport) :
  let run := ConfigFlow.async_step_user abort_reason user_input net in
  let username :=
    match user_input with
    | Some input => dict_lookup "username" input
    | None => None
    end in
  let password :=
    match user_input with
    | Some input => dict_lookup "password" input
    | None => None
    end in
  (user_input = None ->
   run = (ConfigFlow.Returns (ConfigFlow.ShowForm "user" []),
          ConfigFlow.no_trace)) /\
  (forall e,
      fst run = ConfigFlow.Raises e <->
      e = KeyError /\ user_input <> None /\ username = None) /\
  (forall reason,
      fst run = ConfigFlow.AbortFlow reason <->
      exists u, username = Some u /\ abort_reason u = Some reason) /\
  (forall u,
      username = Some u -> abort_reason u = None -> password = None ->
      fst run = form_with "unknown" /\
      ConfigFlow.requests (snd run) = []) /\
  (ConfigFlow.requests (snd run) = [] \/
   exists u p,
     username = Some u /\ password = Some p /\ abort_reason u = None /\
     ConfigFlow.requests (snd run) = [auth_request (new_client u p)]).
Proof.
  cbv zeta. destruct user_input as [input |].
  2:{ cbn. split; [reflexivity |].
      split; [intros e; split; [discriminate | intros (_ & H & _); congruence] |].
      split; [intros r; split; [discriminate | intros (u & [=] & _)] |].
      split; [intros u [=] | now left]. }
  split; [discriminate |].
  destruct (dict_lookup "username" input) as [u |] eqn:Hu.
  2:{ unfold ConfigFlow.async_step_user. rewrite Hu. cbn.
      split; [intros e; split; [intros [= <-]; repeat split; discriminate
                               | intros (-> & _); reflexivity] |].
      split; [intros r; split; [discriminate | intros (u & [=] & _)] |].
      split; [intros u [=] | now left]. }
  destruct (abort_reason u) as [reason |] eqn:Hab.
  { unfold ConfigFlow.async_step_user. rewrite Hu, Hab. cbn.
    split; [intros e; split; [discriminate | intros (_ & _ & [=])] |].
    split; [intros r; split;
            [intros [= <-]; now exists u
            | intros (u' & [= <-] & H); congruence] |].
    split; [intros u' [= <-]; congruence | now left]. }
  destruct (dict_lookup "password" input) as [p |] eqn:Hp.
  2:{ unfold ConfigFlow.async_step_user, ConfigFlow.validate_input.
      rewrite Hu, Hab, Hp. cbn.
      split; [intros e; split; [discriminate | intros (_ & _ & [=])] |].
      split; [intros r; split;
              [discriminate | intros (u' & [= <-] & H); congruence] |].
      split; [intros u' _ _ _; now split | now left]. }
  pose proof (step_user_requests abort_reason input net u p Hu Hp Hab) as Hreq.
  rewrite (step_user_run _ _ _ u p Hu Hp Hab) in *.
  split; [| split; [| split]].
  - intros e. split; [| intros (_ & _ & [=])].
    destruct (async_get_token net (hub_of u p)) as [[t | e'] w];
      [discriminate | now destruct e'].
  - intros r. split; [| intros (u' & [= <-] & H); congruence].
    destruct (async_get_token net (hub_of u p)) as [[t | e'] w];
      [discriminate | now destruct e'].
  - intros u' _ _ [=].
  - right. now exists u, p.
Qed.

(** A form without password makes no call and is shown again. *)
Example form_without_password :
  ConfigFlow.async_step_user (E := sample_env) (fun _ => None)
    (Some [("username", "user")]) (always (token_response "T1")) =
  (form_with "unknown",
   {| ConfigFlow.requests := [];
      ConfigFlow.records := [(ERROR, "Unexpected exception")] |}).
Proof. reflexivity. Qed.
